(** * Procedural building generator: mesh aggregation and glTF packing

    A shallow embedding of the three generator scripts of the repository

      - [building_generator.py]     (slabs, columns, beams; one merged mesh)
      - [building_generator_v2.py]  (adds bracing, shear walls, core, normals)
      - [building_generator_v3.py]  (named mesh groups, two LOD levels)

    together with the properties of box construction, index re-basing,
    normal estimation and byte-exact buffer packing that their
    specification states.

    Python values are modelled as follows.  An [int] is a [Z]; the result
    of [len] is a [nat].  A [float] is an element of a type [F] carrying
    the operations of the class [PyFloat].  The instance CPython computes
    with is binary64, the kernel's [float]; [+], [-], [*], [/] and
    [math.sqrt] are correctly rounded there, while [**] goes through the
    C library's [pow], which is not: [float_PyFloat] takes the rounded
    product for it, and [libm_PyFloat] takes the library as a parameter.
    The real numbers are a third instance, the idealisation in which
    nothing rounds or overflows.  The dimensions the scripts write as
    [int] literals ([building_width = 20]) meet a float in their first
    operation and are modelled by their float value; [create_box] on
    arguments of either kind is [PyNumber.create_box].  A raised
    exception is the [Raise] branch of [result], tagged with the name of
    the exception class.  The module-level names a script binds and the
    file it writes are the [world] of its [run]. *)

From Stdlib Require Import String Ascii ZArith List Bool Lia Permutation.
From Stdlib.Strings Require Import Byte.
From Stdlib Require Import DecimalString.
From Stdlib Require Import Floats.
From Stdlib Require Import Reals Lra.
Import ListNotations.

Set Implicit Arguments.

(* ================================================================== *)
(** * Exceptions and the error monad *)
(* ================================================================== *)

(** A Python exception is identified by the name of its class. *)
Definition exn := string.

Definition ZeroDivisionError : exn := "ZeroDivisionError"%string.
Definition IndexError : exn := "IndexError"%string.
Definition ValueError : exn := "ValueError"%string.
Definition OverflowError : exn := "OverflowError"%string.
Definition StructError : exn := "struct.error"%string.


Inductive result (A : Type) : Type :=
| Ok (a : A)
| Raise (e : exn).

Arguments Ok {A} a.
Arguments Raise {A} e.

Definition bind {A B : Type} (m : result A) (k : A -> result B) : result B :=
  match m with
  | Ok a => k a
  | Raise e => Raise e
  end.

Declare Scope py_scope.
Delimit Scope py_scope with py.
Notation "x <- m ;; k" := (bind m (fun x => k))
  (at level 61, m at next level, right associativity) : py_scope.
Notation "' p <- m ;; k" := (bind m (fun p => k))
  (at level 61, p pattern, m at next level, right associativity) : py_scope.

(** [[f(x) for x in xs]] where [f] may raise: the first exception wins. *)
Fixpoint mapM {A B : Type} (f : A -> result B) (xs : list A) : result (list B) :=
  match xs with
  | [] => Ok []
  | x :: rest =>
      (y <- f x ;; ys <- mapM f rest ;; Ok (y :: ys))%py
  end.

(** A [for] loop whose body updates a state and may raise. *)
Fixpoint foldM {A S : Type} (body : A -> S -> result S) (xs : list A) (s : S)
  : result S :=
  match xs with
  | [] => Ok s
  | x :: rest => (s' <- body x s ;; foldM body rest s')%py
  end.

(* ================================================================== *)
(** * Python numbers *)
(* ================================================================== *)

(** The operations on [float] the scripts use.  [fadd], [fsub], [fmul],
    [fneg] never raise in Python; [fdiv] is the quotient for a divisor
    that is not zero, [fsqrt] the root of an argument that is not
    negative, and [fpow2 x] is [x**2], which raises [OverflowError] when
    the square of a finite number is not finite. *)
Class PyFloat (F : Type) : Type := {
  f_of_Z : Z -> F;
  fadd : F -> F -> F;
  fsub : F -> F -> F;
  fmul : F -> F -> F;
  fdiv : F -> F -> F;
  fneg : F -> F;
  fsqrt : F -> F;
  fpow2 : F -> result F;
  f_is_zero : F -> bool;
  fltb : F -> F -> bool
}.

(** [struct.pack('<f', x)]: the binary32 pattern of [x] as a number below
    [2^32], or [OverflowError] when a finite [x] is too large. *)
Class PyPack (F : Type) : Type := {
  f32_bits : F -> result Z
}.

Declare Scope pyfloat_scope.
Delimit Scope pyfloat_scope with flt.
Notation "x + y" := (fadd x y) : pyfloat_scope.
Notation "x - y" := (fsub x y) : pyfloat_scope.
Notation "x * y" := (fmul x y) : pyfloat_scope.
Notation "x / y" := (fdiv x y) : pyfloat_scope.
Notation "- x" := (fneg x) : pyfloat_scope.

Section Numbers.
Context {F : Type} `{PyFloat F}.

(** A decimal literal [n/d] with small [n] and [d]: both are exact in
    binary64 and the quotient is correctly rounded, so [dec 35 10] is the
    literal [3.5] and [dec 1 1000000] the literal [1e-6]. *)
Definition dec (n d : Z) : F := (f_of_Z n / f_of_Z d)%flt.

Definition two : F := f_of_Z 2.
Definition zero : F := f_of_Z 0.
Definition eps : F := dec 1 1000000.

(** [a / b] for a float [b]. *)
Definition py_div (a b : F) : result F :=
  if f_is_zero b then Raise ZeroDivisionError else Ok (a / b)%flt.

(** [a / n] for an [int] [n]. *)
Definition py_div_int (a : F) (n : Z) : result F :=
  if (n =? 0)%Z then Raise ZeroDivisionError else Ok (a / f_of_Z n)%flt.

(** [math.sqrt(x)]. *)
Definition py_sqrt (x : F) : result F :=
  if fltb x zero then Raise ValueError else Ok (fsqrt x).

(** [max(xs)] and [min(xs)] over a generator: the first element, replaced
    by each later one that compares greater (smaller); [ValueError] on an
    empty sequence. *)
Definition py_max (xs : list F) : result F :=
  match xs with
  | [] => Raise ValueError
  | x :: rest => Ok (fold_left (fun m y => if fltb m y then y else m) rest x)
  end.

Definition py_min (xs : list F) : result F :=
  match xs with
  | [] => Raise ValueError
  | x :: rest => Ok (fold_left (fun m y => if fltb y m then y else m) rest x)
  end.

End Numbers.

(** [range(n)]. *)
Definition py_range (n : Z) : list Z := map Z.of_nat (seq 0 (Z.to_nat n)).

(** [xs[i]] on a list, with Python's negative indices. *)
Definition py_norm_index (len : nat) (i : Z) : result nat :=
  if (0 <=? i)%Z then
    if (i <? Z.of_nat len)%Z then Ok (Z.to_nat i) else Raise IndexError
  else
    if (- Z.of_nat len <=? i)%Z then Ok (Z.to_nat (Z.of_nat len + i))
    else Raise IndexError.

Definition py_get {A : Type} (xs : list A) (i : Z) : result A :=
  (k <- py_norm_index (length xs) i ;;
   match nth_error xs k with
   | Some x => Ok x
   | None => Raise IndexError
   end)%py.

(** In-place update of the element at position [k]. *)
Fixpoint update_nth {A : Type} (k : nat) (f : A -> A) (xs : list A) : list A :=
  match xs, k with
  | [], _ => []
  | x :: rest, O => f x :: rest
  | x :: rest, S k' => x :: update_nth k' f rest
  end.

(* ================================================================== *)
(** * Binary64 instance *)
(* ================================================================== *)

Module Binary64.

(** [float(n)] for an [int] [n], rounded to nearest even. *)
Definition of_Z (z : Z) : float :=
  SF2Prim (binary_normalize prec emax z 0 false).

Definition is_finite (x : float) : bool :=
  negb (PrimFloat.is_nan x) && negb (PrimFloat.is_infinity x).

(** [x ** 2] where the C library's [pow] is correctly rounded: the
    rounded product, and [OverflowError] when the square of a finite
    number is not finite.  [Libm.float_pow2] is [x ** 2] for any
    library. *)
Definition pow2 (x : float) : result float :=
  let y := PrimFloat.mul x x in
  if is_finite x && PrimFloat.is_infinity y then Raise OverflowError else Ok y.

(** The binary32 number nearest to a binary64 one. *)
Definition to_binary32 (x : float) : spec_float :=
  match Prim2SF x with
  | S754_finite s m e => binary_round 24 128 s m e
  | y => y
  end.

Definition sign_bit (s : bool) : Z := if s then 2147483648%Z else 0%Z.

(** Field encoding of a binary32 number: sign, 8 exponent bits, 23
    fraction bits.  The kernel's floats have one NaN, encoded here as
    the quiet NaN of sign zero; the NaN a processor produces can have
    the sign bit set. *)
Definition bits_of_binary32 (x : spec_float) : Z :=
  match x with
  | S754_zero s => sign_bit s
  | S754_infinity s => (sign_bit s + 2139095040)%Z
  | S754_nan => 2143289344%Z
  | S754_finite s m e =>
      let mz := Z.pos m in
      if (mz <? 8388608)%Z then (sign_bit s + mz)%Z
      else (sign_bit s + (e + 150) * 8388608 + (mz - 8388608))%Z
  end.

Definition pack_bits (x : float) : result Z :=
  match to_binary32 x with
  | S754_infinity s =>
      if PrimFloat.is_infinity x then Ok (bits_of_binary32 (S754_infinity s))
      else Raise OverflowError
  | y => Ok (bits_of_binary32 y)
  end.

End Binary64.

#[export] Instance float_PyFloat : PyFloat float := {
  f_of_Z := Binary64.of_Z;
  fadd := PrimFloat.add;
  fsub := PrimFloat.sub;
  fmul := PrimFloat.mul;
  fdiv := PrimFloat.div;
  fneg := PrimFloat.opp;
  fsqrt := PrimFloat.sqrt;
  fpow2 := Binary64.pow2;
  f_is_zero := PrimFloat.is_zero;
  fltb := PrimFloat.ltb
}.

#[export] Instance float_PyPack : PyPack float := {
  f32_bits := Binary64.pack_bits
}.

(** ** Squaring through the C library *)

Module Libm.

Definition one : float := Binary64.of_Z 1.

(** [x ** 2] on a float, as CPython's [float_pow] does it for the
    exponent [2.0]: a NaN is returned as it is, an infinity gives
    [fabs(x)], a zero gives [0.0]; a negative base is replaced by its
    absolute value (the exponent is an even integer), a base of one
    gives [1.0]; every other base is handed to the C library's [pow],
    and [OverflowError] is raised when the library reports a range
    error, that is when its result is infinite (an underflow to zero is
    no error).  [c_pow2 v] is the library's [pow(v, 2.0)]: the C
    standard does not ask it to be correctly rounded, and it is not. *)
Definition float_pow2 (c_pow2 : float -> float) (x : float) : result float :=
  if PrimFloat.is_nan x then Ok x
  else if PrimFloat.is_infinity x then Ok (PrimFloat.abs x)
  else if PrimFloat.eqb x PrimFloat.zero then Ok PrimFloat.zero
  else
    let v := if PrimFloat.ltb x PrimFloat.zero then PrimFloat.opp x else x in
    if PrimFloat.eqb v one then Ok one
    else
      let r := c_pow2 v in
      if PrimFloat.is_infinity r then Raise OverflowError else Ok r.

End Libm.

(** Binary64 arithmetic with [**] going through a given C library. *)
Definition libm_PyFloat (c_pow2 : float -> float) : PyFloat float := {|
  f_of_Z := Binary64.of_Z;
  fadd := PrimFloat.add;
  fsub := PrimFloat.sub;
  fmul := PrimFloat.mul;
  fdiv := PrimFloat.div;
  fneg := PrimFloat.opp;
  fsqrt := PrimFloat.sqrt;
  fpow2 := Libm.float_pow2 c_pow2;
  f_is_zero := PrimFloat.is_zero;
  fltb := PrimFloat.ltb
|}.

(* ================================================================== *)
(** * Real-number instance *)
(* ================================================================== *)

(** The idealisation of [float] by the real numbers: no operation rounds
    or overflows.  Comparisons are decided classically. *)
#[export] Instance R_PyFloat : PyFloat R := {
  f_of_Z := IZR;
  fadd := Rplus;
  fsub := Rminus;
  fmul := Rmult;
  fdiv := Rdiv;
  fneg := Ropp;
  fsqrt := sqrt;
  fpow2 := fun x => Ok (x * x)%R;
  f_is_zero := fun x => if Req_dec_T x 0 then true else false;
  fltb := fun x y => if Rlt_dec x y then true else false
}.

(* ================================================================== *)
(** * Geometry helpers *)
(* ================================================================== *)

(** A vertex, and a normal: a tuple of three floats. *)
Definition vertex (F : Type) : Type := (F * F * F)%type.

Section Geometry.
Context {F : Type} `{PyFloat F}.

(** The index list of a box: twelve triangles, two per face. *)
Definition box_indices : list Z :=
  [0;1;2;2;3;0;
   1;5;6;6;2;1;
   5;4;7;7;6;5;
   4;0;3;3;7;4;
   3;2;6;6;7;3;
   4;5;1;1;0;4]%Z.

(** [create_box(w, h, d, tx, ty, tz)], the same function in the three
    scripts. *)
Definition create_box (w h d tx ty tz : F) : list (vertex F) * list Z :=
  let hw := (w / two)%flt in
  let hh := (h / two)%flt in
  let hd := (d / two)%flt in
  let verts :=
    [ (- hw, - hh, hd); (hw, - hh, hd); (hw, hh, hd); (- hw, hh, hd);
      (- hw, - hh, - hd); (hw, - hh, - hd); (hw, hh, - hd); (- hw, hh, - hd) ]%flt in
  let verts := map (fun '(x, y, z) => (x + tx, y + ty, z + tz)%flt) verts in
  (verts, box_indices).

End Geometry.

(** ** Arguments that are [int] or [float] *)

(** Python does not type the arguments of [create_box]: the scripts hand
    it [int]s ([building_width = 20], the defaults [tx=0, ty=0, tz=0])
    as well as floats.  An [int] has no bound, and it is converted when
    it meets a float. *)
Module PyNumber.

Inductive number : Type :=
| Int (n : Z)
| Flt (x : float).

(** An [int] as a float, rounded to nearest even; [OverflowError] when
    that is beyond the largest float. *)
Definition float_of_int (n : Z) : result float :=
  match binary_normalize prec emax n 0 false with
  | S754_infinity _ => Raise OverflowError
  | x => Ok (SF2Prim x)
  end.

(** The float operand [t] stands for in [x + t]. *)
Definition as_float (t : number) : result float :=
  match t with
  | Flt y => Ok y
  | Int n => float_of_int n
  end.

(** [a / 2]: the float quotient, or for an [int] the exact quotient
    rounded to nearest even, [OverflowError] when that is beyond the
    largest float. *)
Definition half (a : number) : result float :=
  match a with
  | Flt x => Ok (x / Binary64.of_Z 2)%float
  | Int n =>
      match binary_normalize prec emax n (-1) false with
      | S754_infinity _ => Raise OverflowError
      | q => Ok (SF2Prim q)
      end
  end.

(** [x + t] for a float [x]. *)
Definition add (x : float) (t : number) : result float :=
  (y <- as_float t ;; Ok (x + y)%float)%py.

(** [create_box(w, h, d, tx, ty, tz)] on such arguments. *)
Definition create_box (w h d tx ty tz : number)
  : result (list (vertex float) * list Z) :=
  (hw <- half w ;;
   hh <- half h ;;
   hd <- half d ;;
   let verts :=
     [ (- hw, - hh, hd); (hw, - hh, hd); (hw, hh, hd); (- hw, hh, hd);
       (- hw, - hh, - hd); (hw, - hh, - hd); (hw, hh, - hd);
       (- hw, hh, - hd) ]%float in
   verts <- mapM (fun '(x, y, z) =>
                    x' <- add x tx ;;
                    y' <- add y ty ;;
                    z' <- add z tz ;;
                    Ok (x', y', z')) verts ;;
   Ok (verts, box_indices))%py.

End PyNumber.

(* ================================================================== *)
(** * Normal estimator *)
(* ================================================================== *)

Section Normals.
Context {F : Type} `{PyFloat F}.

(** The raw cross product of the two edges of a triangle that leave
    [v0]. *)
Definition face_normal (v0 v1 v2 : vertex F) : vertex F :=
  let '(x0, y0, z0) := v0 in
  let '(x1, y1, z1) := v1 in
  let '(x2, y2, z2) := v2 in
  let ux := (x1 - x0)%flt in
  let uy := (y1 - y0)%flt in
  let uz := (z1 - z0)%flt in
  let vx := (x2 - x0)%flt in
  let vy := (y2 - y0)%flt in
  let vz := (z2 - z0)%flt in
  ((uy * vz - uz * vy)%flt, (uz * vx - ux * vz)%flt, (ux * vy - uy * vx)%flt).

(** [normals[idx][0] += nx; normals[idx][1] += ny; normals[idx][2] += nz]. *)
Definition add_to (n : vertex F) (acc : vertex F) : vertex F :=
  let '(nx, ny, nz) := n in
  let '(ax, ay, az) := acc in
  ((ax + nx)%flt, (ay + ny)%flt, (az + nz)%flt).

(** One step of the inner loop [for idx in (i0, i1, i2)]. *)
Definition accumulate_at (n : vertex F) (idx : Z)
  (normals : list (vertex F)) : result (list (vertex F)) :=
  (k <- py_norm_index (length normals) idx ;;
   Ok (update_nth k (add_to n) normals))%py.

(** The loop [for i in range(0, len(indices), 3)], by recursion on the
    index list taken three at a time; a last slice that is shorter than
    three cannot be unpacked. *)
Fixpoint accumulate (vertices : list (vertex F)) (indices : list Z)
  (normals : list (vertex F)) : result (list (vertex F)) :=
  match indices with
  | [] => Ok normals
  | i0 :: i1 :: i2 :: rest =>
      (v0 <- py_get vertices i0 ;;
       v1 <- py_get vertices i1 ;;
       v2 <- py_get vertices i2 ;;
       let n := face_normal v0 v1 v2 in
       normals <- accumulate_at n i0 normals ;;
       normals <- accumulate_at n i1 normals ;;
       normals <- accumulate_at n i2 normals ;;
       accumulate vertices rest normals)%py
  | _ => Raise ValueError
  end.

(** [math.sqrt(n[0]**2 + n[1]**2 + n[2]**2) + 1e-6]. *)
Definition normal_length (n : vertex F) : result F :=
  let '(n0, n1, n2) := n in
  (p0 <- fpow2 n0 ;;
   p1 <- fpow2 n1 ;;
   p2 <- fpow2 n2 ;;
   r <- py_sqrt (p0 + p1 + p2)%flt ;;
   Ok (r + eps)%flt)%py.

(** The body of the second loop: [(n[0]/l, n[1]/l, n[2]/l)]. *)
Definition normalize (n : vertex F) : result (vertex F) :=
  let '(n0, n1, n2) := n in
  (l <- normal_length n ;;
   x <- py_div n0 l ;;
   y <- py_div n1 l ;;
   z <- py_div n2 l ;;
   Ok (x, y, z))%py.

(** [compute_normals(vertices, indices)] of the second and third
    script. *)
Definition compute_normals (vertices : list (vertex F)) (indices : list Z)
  : result (list (vertex F)) :=
  let normals := map (fun _ => (zero, zero, zero)) vertices in
  (normals <- accumulate vertices indices normals ;;
   mapM normalize normals)%py.

End Normals.

(* ================================================================== *)
(** * Byte packing *)
(* ================================================================== *)

(** The byte of value [z mod 256]. *)
Definition byte_of_Z (z : Z) : byte :=
  match Byte.of_N (Z.to_N (z mod 256)) with
  | Some b => b
  | None => x00
  end.

(** Four bytes, least significant first. *)
Definition le_bytes4 (z : Z) : list byte :=
  [ byte_of_Z z;
    byte_of_Z (Z.shiftr z 8);
    byte_of_Z (Z.shiftr z 16);
    byte_of_Z (Z.shiftr z 24) ].

(** [struct.pack('<I', i)]. *)
Definition pack_I (i : Z) : result (list byte) :=
  if (0 <=? i)%Z && (i <? 4294967296)%Z then Ok (le_bytes4 i)
  else Raise StructError.

Section Packing.
Context {F : Type} `{PyFloat F} `{PyPack F}.

(** [struct.pack('<3f', *v)]. *)
Definition pack_3f (v : vertex F) : result (list byte) :=
  let '(x, y, z) := v in
  (bx <- f32_bits x ;;
   by_ <- f32_bits y ;;
   bz <- f32_bits z ;;
   Ok (le_bytes4 bx ++ le_bytes4 by_ ++ le_bytes4 bz))%py.

(** [b''.join([struct.pack('<3f', *v) for v in vs])]. *)
Definition pack_vec3_list (vs : list (vertex F)) : result (list byte) :=
  (chunks <- mapM pack_3f vs ;; Ok (concat chunks))%py.

End Packing.

(** [b''.join([struct.pack('<I', i) for i in inds])]. *)
Definition pack_index_list (inds : list Z) : result (list byte) :=
  (chunks <- mapM pack_I inds ;; Ok (concat chunks))%py.

(** The alphabet of [base64.b64encode]. *)
Definition b64_alphabet : string :=
  "ABCDEFGHIJKLMNOPQRSTUVWXYZabcdefghijklmnopqrstuvwxyz0123456789+/".

Definition b64_char (n : N) : ascii :=
  match String.get (N.to_nat n) b64_alphabet with
  | Some c => c
  | None => "="%char
  end.

(** [base64.b64encode(bs).decode()]: three bytes give four characters,
    and a last group of one or two bytes is padded with [=]. *)
Fixpoint b64encode (bs : list byte) : string :=
  match bs with
  | [] => EmptyString
  | [a] =>
      let x := Byte.to_N a in
      String (b64_char (x / 4))
        (String (b64_char ((x mod 4) * 16)) "==")
  | [a; b] =>
      let x := Byte.to_N a in
      let y := Byte.to_N b in
      String (b64_char (x / 4))
        (String (b64_char ((x mod 4) * 16 + y / 16))
           (String (b64_char ((y mod 16) * 4)) "="))
  | a :: b :: c :: rest =>
      let x := Byte.to_N a in
      let y := Byte.to_N b in
      let z := Byte.to_N c in
      String (b64_char (x / 4))
        (String (b64_char ((x mod 4) * 16 + y / 16))
           (String (b64_char ((y mod 16) * 4 + z / 64))
              (String (b64_char (z mod 64)) (b64encode rest))))
  end%N.

(** [f"data:application/octet-stream;base64,{encoded}"]. *)
Definition data_uri (bs : list byte) : string :=
  ("data:application/octet-stream;base64," ++ b64encode bs)%string.

(* ================================================================== *)
(** * The glTF document *)
(* ================================================================== *)

Record bufferView : Type := {
  bv_buffer : nat;
  byteOffset : nat;
  byteLength : nat;
  bv_target : option Z
}.

Record accessor (F : Type) : Type := {
  acc_bufferView : nat;
  componentType : Z;
  acc_count : nat;
  acc_type : string;
  acc_max : option (list F);
  acc_min : option (list F)
}.

Record primitive : Type := {
  attributes : list (string * nat);
  prim_indices : nat;
  prim_material : option nat
}.

Record mesh : Type := { primitives : list primitive }.

Record node : Type := {
  node_mesh : nat;
  node_name : option string;
  node_extras : option (string * Z)
}.

(** The embedded buffer: the data URI and the declared length. *)
Record buffer : Type := {
  uri : string;
  buf_byteLength : nat
}.

Record pbr_material (F : Type) : Type := {
  baseColorFactor : list F;
  metallicFactor : F;
  roughnessFactor : F
}.

Record gltf (F : Type) : Type := {
  asset_version : string;
  buffers : list buffer;
  bufferViews : list bufferView;
  accessors : list (accessor F);
  materials : list (pbr_material F);
  meshes : list mesh;
  nodes : list node;
  scenes : list (list nat);
  scene : nat
}.

(** Size in bytes of one element of an accessor. *)
Definition element_size {F : Type} (a : accessor F) : nat :=
  if String.eqb (acc_type a) "VEC3" then 12 else 4.

(* ================================================================== *)
(** * Mesh aggregator *)
(* ================================================================== *)

(** A vertex list with the index list that refers to it. *)
Definition store (V : Type) : Type := (list V * list Z)%type.

(** [add(v, i, store_v, store_i)] of the third script: the offset is the
    length of the vertex list before the call. *)
Definition add {V : Type} (v : list V) (i : list Z) (st : store V) : store V :=
  let '(store_v, store_i) := st in
  let offset := Z.of_nat (length store_v) in
  (store_v ++ v, store_i ++ map (fun idx => (idx + offset)%Z) i).

(** A sequence of [add] calls on one store. *)
Definition add_all {V : Type} (calls : list (list V * list Z)) (st : store V)
  : store V :=
  fold_left (fun st c => add (fst c) (snd c) st) calls st.

(** The module-level buffers of the first and second script, with the
    running offset kept beside them. *)
Record buffers_state (V : Type) : Type := {
  all_vertices : list V;
  all_indices : list Z;
  offset : Z
}.

Definition empty_buffers {V : Type} : buffers_state V :=
  {| all_vertices := []; all_indices := []; offset := 0 |}.

(** [add_mesh(v, i)] of the second script; the first script repeats the
    same three statements after each [create_box]. *)
Definition add_mesh {V : Type} (v : list V) (i : list Z) (st : buffers_state V)
  : buffers_state V :=
  {| all_vertices := all_vertices st ++ v;
     all_indices := all_indices st ++ map (fun idx => (idx + offset st)%Z) i;
     offset := (offset st + Z.of_nat (length v))%Z |}.

Definition add_mesh_all {V : Type} (calls : list (list V * list Z))
  (st : buffers_state V) : buffers_state V :=
  fold_left (fun st c => add_mesh (fst c) (snd c) st) calls st.

(** [str(n)] for an [int]. *)
Definition str_of_Z (n : Z) : string := NilZero.string_of_int (Z.to_int n).

(* ================================================================== *)
(** * Third script: named mesh groups and two LOD levels *)
(* ================================================================== *)

Module V3.

(** The module-level parameters of [building_generator_v3.py]. *)
Record params (F : Type) : Type := {
  floors : Z;
  floor_height : F;
  building_width : F;
  grid_L0 : Z;
  grid_L1 : Z;
  column_size : F;
  beam_height : F;
  beam_width : F;
  slab_thickness : F;
  core_size : F;
  wall_thickness : F
}.

(** The six pairs of lists that [build_structure] fills. *)
Record stores (F : Type) : Type := {
  slabs : store (vertex F);
  cols : store (vertex F);
  beams : store (vertex F);
  spatial : store (vertex F);
  core : store (vertex F);
  walls : store (vertex F)
}.

(** A value of the dictionary [build_structure] returns:
    [(vertices, indices, semantic)]. *)
Definition group (F : Type) : Type := (list (vertex F) * list Z * string)%type.

(** The state of the glTF construction: the module-level [all_buffer],
    [bufferViews], [accessors], [meshes], [nodes] and [node_index]. *)
Record emitter (F : Type) : Type := {
  all_buffer : list byte;
  em_bufferViews : list bufferView;
  em_accessors : list (accessor F);
  em_meshes : list mesh;
  em_nodes : list node;
  node_index : nat
}.

(** What a run of the script finds and what it leaves: the module-level
    names that hold geometry or output, [None] for a name that is not
    bound, and the content of the file [./model_v3.gltf]. *)
Record world (F : Type) : Type := {
  w_lod0 : option (list (string * group F));
  w_lod1 : option (list (string * group F));
  w_emitter : option (emitter F);
  w_gltf : option (gltf F);
  w_file : option (gltf F)
}.

Section Script.
Context {F : Type} `{PyFloat F} `{PyPack F}.
Variable p : params F.

(** The values the script assigns at the top. *)
Definition default_params : params F :=
  {| floors := 5;
     floor_height := dec 35 10;
     building_width := f_of_Z 20;
     grid_L0 := 5;
     grid_L1 := 3;
     column_size := dec 4 10;
     beam_height := dec 5 10;
     beam_width := dec 4 10;
     slab_thickness := dec 3 10;
     core_size := f_of_Z 4;
     wall_thickness := dec 3 10 |}.

Definition empty_stores : stores F :=
  {| slabs := ([], []); cols := ([], []); beams := ([], []);
     spatial := ([], []); core := ([], []); walls := ([], []) |}.

(** [-building_width/2 + g*spacing]. *)
Definition grid_coord (spacing : F) (g : Z) : F :=
  (- building_width p / two + f_of_Z g * spacing)%flt.

(** The double loop under [# Columns]. *)
Definition columns_loop (grid_size : Z) (spacing y : F)
  (cols_st : store (vertex F)) : store (vertex F) :=
  fold_left (fun st gx =>
    fold_left (fun st gz =>
      let x := grid_coord spacing gx in
      let z := grid_coord spacing gz in
      let '(v, i) := create_box (column_size p) (floor_height p) (column_size p)
                       x (y + floor_height p / two)%flt z in
      add v i st)
    (py_range grid_size) st)
  (py_range grid_size) cols_st.

(** The double loop under [# Beams]. *)
Definition beams_loop (grid_size : Z) (spacing y : F)
  (beams_st : store (vertex F)) : store (vertex F) :=
  fold_left (fun st gz =>
    let z := grid_coord spacing gz in
    fold_left (fun st gx =>
      let xs := grid_coord spacing gx in
      let xe := (xs + spacing)%flt in
      let mx := ((xs + xe) / two)%flt in
      let '(v, i) := create_box spacing (beam_height p) (beam_width p)
                       mx (y + floor_height p - beam_height p / two)%flt z in
      add v i st)
    (py_range (grid_size - 1)) st)
  (py_range grid_size) beams_st.

(** The body of [for f in range(floors)]. *)
Definition floor_body (grid_size : Z) (spacing : F) (st : stores F) (f : Z)
  : stores F :=
  let y := (f_of_Z f * floor_height p)%flt in
  let '(v, i) := create_box (building_width p) (slab_thickness p)
                   (building_width p) zero y zero in
  let slabs' := add v i (slabs st) in
  let '(v, i) := create_box (building_width p * dec 9 10)%flt
                   (floor_height p * dec 8 10)%flt
                   (building_width p * dec 9 10)%flt
                   zero (y + floor_height p / two)%flt zero in
  let spatial' := add v i (spatial st) in
  let structural := (f <? floors p - 1)%Z in
  {| slabs := slabs';
     cols := if structural then columns_loop grid_size spacing y (cols st)
             else cols st;
     beams := if structural then beams_loop grid_size spacing y (beams st)
              else beams st;
     spatial := spatial';
     core := core st;
     walls := walls st |}.

(** The loop under [# Core]. *)
Definition core_loop (core_st : store (vertex F)) : store (vertex F) :=
  fold_left (fun st f =>
    let y := (f_of_Z f * floor_height p + floor_height p / two)%flt in
    let '(v, i) := create_box (core_size p) (floor_height p) (core_size p)
                     zero y zero in
    add v i st)
  (py_range (floors p - 1)) core_st.

(** The loop under [# Shear Wall]. *)
Definition walls_loop (walls_st : store (vertex F)) : store (vertex F) :=
  fold_left (fun st f =>
    let y := (f_of_Z f * floor_height p + floor_height p / two)%flt in
    let '(v, i) := create_box (wall_thickness p) (floor_height p)
                     (building_width p)
                     (- building_width p / two)%flt y zero in
    add v i st)
  (py_range (floors p - 1)) walls_st.

(** The six stores at the [return] of [build_structure]. *)
Definition fill_stores (grid_size : Z) (spacing : F) : stores F :=
  let st := fold_left (floor_body grid_size spacing) (py_range (floors p))
              empty_stores in
  {| slabs := slabs st;
     cols := cols st;
     beams := beams st;
     spatial := spatial st;
     core := core_loop (core st);
     walls := walls_loop (walls st) |}.

Definition tagged (st : store (vertex F)) (semantic : string) : group F :=
  (fst st, snd st, semantic).

(** [build_structure(grid_size)]: the dictionary in insertion order. *)
Definition build_structure (grid_size : Z) : result (list (string * group F)) :=
  (spacing <- py_div_int (building_width p) (grid_size - 1) ;;
   let st := fill_stores grid_size spacing in
   Ok [ ("Slabs"%string, tagged (slabs st) "structure");
        ("Columns"%string, tagged (cols st) "structure");
        ("Beams"%string, tagged (beams st) "structure");
        ("Core"%string, tagged (core st) "structure");
        ("Walls"%string, tagged (walls st) "structure");
        ("SpatialZones"%string, tagged (spatial st) "spatial") ])%py.

Definition empty_emitter : emitter F :=
  {| all_buffer := []; em_bufferViews := []; em_accessors := [];
     em_meshes := []; em_nodes := []; node_index := 0 |}.

Definition plain_view (off len : nat) : bufferView :=
  {| bv_buffer := 0; byteOffset := off; byteLength := len; bv_target := None |}.

Definition plain_accessor (bv : nat) (ctype : Z) (count : nat) (ty : string)
  : accessor F :=
  {| acc_bufferView := bv; componentType := ctype; acc_count := count;
     acc_type := ty; acc_max := None; acc_min := None |}.

(** [append_mesh(name, data, lod_level)]. *)
Definition append_mesh (name : string) (data : group F) (lod_level : Z)
  (em : emitter F) : result (emitter F) :=
  let '(verts, inds, semantic) := data in
  (normals <- compute_normals verts inds ;;
   v_bytes <- pack_vec3_list verts ;;
   n_bytes <- pack_vec3_list normals ;;
   i_bytes <- pack_index_list inds ;;
   let offset_v := length (all_buffer em) in
   let buf := (all_buffer em ++ v_bytes)%list in
   let offset_n := length buf in
   let buf := (buf ++ n_bytes)%list in
   let offset_i := length buf in
   let buf := (buf ++ i_bytes)%list in
   let bv_v := length (em_bufferViews em) in
   let views := (em_bufferViews em ++ [plain_view offset_v (length v_bytes)])%list in
   let bv_n := length views in
   let views := (views ++ [plain_view offset_n (length n_bytes)])%list in
   let bv_i := length views in
   let views := (views ++ [plain_view offset_i (length i_bytes)])%list in
   let acc_v := length (em_accessors em) in
   let accs := (em_accessors em
                  ++ [plain_accessor bv_v 5126 (length verts) "VEC3"])%list in
   let acc_n := length accs in
   let accs := (accs ++ [plain_accessor bv_n 5126 (length normals) "VEC3"])%list in
   let acc_i := length accs in
   let accs := (accs ++ [plain_accessor bv_i 5125 (length inds) "SCALAR"])%list in
   let meshes' :=
     (em_meshes em
        ++ [ {| primitives :=
                  [ {| attributes := [("POSITION"%string, acc_v);
                                      ("NORMAL"%string, acc_n)];
                       prim_indices := acc_i;
                       prim_material := None |} ] |} ])%list in
   let nodes' :=
     (em_nodes em
        ++ [ {| node_mesh := length meshes' - 1;
                node_name := Some (name ++ "_LOD" ++ str_of_Z lod_level)%string;
                node_extras := Some (semantic, lod_level) |} ])%list in
   Ok {| all_buffer := buf;
         em_bufferViews := views;
         em_accessors := accs;
         em_meshes := meshes';
         em_nodes := nodes';
         node_index := node_index em |})%py.

(** [for name, data in lod.items(): append_mesh(name, data, level)]. *)
Definition append_all (lod : list (string * group F)) (level : Z)
  (em : emitter F) : result (emitter F) :=
  foldM (fun entry em => append_mesh (fst entry) (snd entry) level em) lod em.

(** The dictionary [gltf] built from the final state. *)
Definition document (em : emitter F) : gltf F :=
  {| asset_version := "2.0";
     buffers := [ {| uri := data_uri (all_buffer em);
                     buf_byteLength := length (all_buffer em) |} ];
     bufferViews := em_bufferViews em;
     accessors := em_accessors em;
     materials := [];
     meshes := em_meshes em;
     nodes := em_nodes em;
     scenes := [ seq 0 (length (em_nodes em)) ];
     scene := 0 |}.

(** The script from [lod0 = build_structure(grid_L0)] to the dictionary
    that is written out. *)
Definition generate : result (gltf F) :=
  (lod0 <- build_structure (grid_L0 p) ;;
   lod1 <- build_structure (grid_L1 p) ;;
   em <- append_all lod0 0 empty_emitter ;;
   em <- append_all lod1 1 em ;;
   Ok (document em))%py.

(** The emission loop, call by call.  [append_mesh] computes the normals
    and packs the three byte strings before it touches a module-level
    name, and nothing after that can raise: a call that raises leaves
    the state the calls before it built. *)
Fixpoint append_each (lod : list (string * group F)) (level : Z)
  (em : emitter F) : emitter F * result unit :=
  match lod with
  | [] => (em, Ok tt)
  | entry :: rest =>
      match append_mesh (fst entry) (snd entry) level em with
      | Ok em' => append_each rest level em'
      | Raise e => (em, Raise e)
      end
  end.

(** A run of the script, statement by statement, started in the world
    [w]: the world it leaves, and [Ok tt] or the exception that ended
    it.  [lod0] and [lod1] are bound one after the other; then
    [all_buffer], [bufferViews], [accessors], [meshes], [nodes] and
    [node_index] are bound to their empty values, the two loops call
    [append_mesh], [gltf] is bound and the file is written. *)
Definition run (w : world F) : world F * result unit :=
  match build_structure (grid_L0 p) with
  | Raise e => (w, Raise e)
  | Ok lod0 =>
      match build_structure (grid_L1 p) with
      | Raise e =>
          ({| w_lod0 := Some lod0; w_lod1 := w_lod1 w;
              w_emitter := w_emitter w; w_gltf := w_gltf w;
              w_file := w_file w |}, Raise e)
      | Ok lod1 =>
          match append_each lod0 0 empty_emitter with
          | (em, Raise e) =>
              ({| w_lod0 := Some lod0; w_lod1 := Some lod1;
                  w_emitter := Some em; w_gltf := w_gltf w;
                  w_file := w_file w |}, Raise e)
          | (em, Ok _) =>
              match append_each lod1 1 em with
              | (em, Raise e) =>
                  ({| w_lod0 := Some lod0; w_lod1 := Some lod1;
                      w_emitter := Some em; w_gltf := w_gltf w;
                      w_file := w_file w |}, Raise e)
              | (em, Ok _) =>
                  ({| w_lod0 := Some lod0; w_lod1 := Some lod1;
                      w_emitter := Some em; w_gltf := Some (document em);
                      w_file := Some (document em) |}, Ok tt)
              end
          end
      end
  end.

End Script.

End V3.

(* ================================================================== *)
(** * Second script: one merged mesh with normals *)
(* ================================================================== *)

Module V2.

(** The module-level parameters of [building_generator_v2.py]. *)
Record params (F : Type) : Type := {
  floors : Z;
  floor_height : F;
  building_width : F;
  grid_size : Z;
  column_size : F;
  beam_height : F;
  beam_width : F;
  slab_thickness : F;
  brace_thickness : F;
  core_size : F;
  wall_thickness : F
}.

(** What a run of the script finds and what it leaves: the buffers
    [all_vertices], [all_indices] and [offset], the name [gltf], and the
    content of the file [./models_v2.gltf]. *)
Record world (F : Type) : Type := {
  w_buffers : option (buffers_state (vertex F));
  w_gltf : option (gltf F);
  w_file : option (gltf F)
}.

Section Script.
Context {F : Type} `{PyFloat F} `{PyPack F}.
Variable p : params F.

Definition default_params : params F :=
  {| floors := 5;
     floor_height := dec 35 10;
     building_width := f_of_Z 20;
     grid_size := 5;
     column_size := dec 4 10;
     beam_height := dec 5 10;
     beam_width := dec 4 10;
     slab_thickness := dec 3 10;
     brace_thickness := dec 2 10;
     core_size := f_of_Z 4;
     wall_thickness := dec 3 10 |}.

Definition grid_coord (column_spacing : F) (g : Z) : F :=
  (- building_width p / two + f_of_Z g * column_spacing)%flt.

Definition add_box (b : list (vertex F) * list Z) (st : buffers_state (vertex F))
  : buffers_state (vertex F) :=
  let '(v, i) := b in add_mesh v i st.

(** The double loop under [# Columns]. *)
Definition columns_loop (column_spacing y : F) (st : buffers_state (vertex F))
  : buffers_state (vertex F) :=
  fold_left (fun st gx =>
    fold_left (fun st gz =>
      let x := grid_coord column_spacing gx in
      let z := grid_coord column_spacing gz in
      add_box (create_box (column_size p) (floor_height p) (column_size p)
                 x (y + floor_height p / two)%flt z) st)
    (py_range (grid_size p)) st)
  (py_range (grid_size p)) st.

(** The double loop under [# Beams X]. *)
Definition beams_x_loop (column_spacing y : F) (st : buffers_state (vertex F))
  : buffers_state (vertex F) :=
  fold_left (fun st gz =>
    let z := grid_coord column_spacing gz in
    fold_left (fun st gx =>
      let xs := grid_coord column_spacing gx in
      let xe := (xs + column_spacing)%flt in
      let mx := ((xs + xe) / two)%flt in
      add_box (create_box column_spacing (beam_height p) (beam_width p)
                 mx (y + floor_height p - beam_height p / two)%flt z) st)
    (py_range (grid_size p - 1)) st)
  (py_range (grid_size p)) st.

(** The double loop under [# Beams Z]. *)
Definition beams_z_loop (column_spacing y : F) (st : buffers_state (vertex F))
  : buffers_state (vertex F) :=
  fold_left (fun st gx =>
    let x := grid_coord column_spacing gx in
    fold_left (fun st gz =>
      let zs := grid_coord column_spacing gz in
      let ze := (zs + column_spacing)%flt in
      let mz := ((zs + ze) / two)%flt in
      add_box (create_box (beam_width p) (beam_height p) column_spacing
                 x (y + floor_height p - beam_height p / two)%flt mz) st)
    (py_range (grid_size p - 1)) st)
  (py_range (grid_size p)) st.

(** The statements under [# Diagonal Bracing]. *)
Definition brace (column_spacing y : F) (st : buffers_state (vertex F))
  : buffers_state (vertex F) :=
  let x := (- building_width p / two + column_spacing / two)%flt in
  let z := (- building_width p / two + column_spacing / two)%flt in
  add_box (create_box (brace_thickness p) (floor_height p) (brace_thickness p)
             x (y + floor_height p / two)%flt z) st.

(** The body of [for f in range(floors)]. *)
Definition floor_body (column_spacing : F) (st : buffers_state (vertex F)) (f : Z)
  : buffers_state (vertex F) :=
  let y := (f_of_Z f * floor_height p)%flt in
  let st := add_box (create_box (building_width p) (slab_thickness p)
                       (building_width p) zero y zero) st in
  if (f <? floors p - 1)%Z then
    let st := columns_loop column_spacing y st in
    let st := beams_x_loop column_spacing y st in
    let st := beams_z_loop column_spacing y st in
    brace column_spacing y st
  else st.

(** The loop under [# Shear Walls]. *)
Definition walls_loop (st : buffers_state (vertex F)) : buffers_state (vertex F) :=
  fold_left (fun st f =>
    let y := (f_of_Z f * floor_height p + floor_height p / two)%flt in
    add_box (create_box (wall_thickness p) (floor_height p) (building_width p)
               (- building_width p / two)%flt y zero) st)
  (py_range (floors p - 1)) st.

(** The loop under [# Core]. *)
Definition core_loop (st : buffers_state (vertex F)) : buffers_state (vertex F) :=
  fold_left (fun st f =>
    let y := (f_of_Z f * floor_height p + floor_height p / two)%flt in
    add_box (create_box (core_size p) (floor_height p) (core_size p)
               zero y zero) st)
  (py_range (floors p - 1)) st.

(** The section [Build Geometry]: the buffers when it ends. *)
Definition build_geometry : result (buffers_state (vertex F)) :=
  (column_spacing <- py_div_int (building_width p) (grid_size p - 1) ;;
   let st := fold_left (floor_body column_spacing) (py_range (floors p))
               empty_buffers in
   let st := walls_loop st in
   Ok (core_loop st))%py.

(** The sections [Normals], [Binary] and [glTF] on given buffers. *)
Definition emit (vs : list (vertex F)) (inds : list Z) : result (gltf F) :=
  (normals <- compute_normals vs inds ;;
   vertex_bytes <- pack_vec3_list vs ;;
   normal_bytes <- pack_vec3_list normals ;;
   index_bytes <- pack_index_list inds ;;
   let combined := (vertex_bytes ++ normal_bytes ++ index_bytes)%list in
   Ok {| asset_version := "2.0";
         buffers := [ {| uri := data_uri combined;
                         buf_byteLength := length combined |} ];
         bufferViews :=
           [ {| bv_buffer := 0; byteOffset := 0;
                byteLength := length vertex_bytes; bv_target := Some 34962%Z |};
             {| bv_buffer := 0; byteOffset := length vertex_bytes;
                byteLength := length normal_bytes; bv_target := Some 34962%Z |};
             {| bv_buffer := 0;
                byteOffset := length vertex_bytes + length normal_bytes;
                byteLength := length index_bytes; bv_target := Some 34963%Z |} ];
         accessors :=
           [ {| acc_bufferView := 0; componentType := 5126;
                acc_count := length vs; acc_type := "VEC3";
                acc_max := None; acc_min := None |};
             {| acc_bufferView := 1; componentType := 5126;
                acc_count := length normals; acc_type := "VEC3";
                acc_max := None; acc_min := None |};
             {| acc_bufferView := 2; componentType := 5125;
                acc_count := length inds; acc_type := "SCALAR";
                acc_max := None; acc_min := None |} ];
         materials :=
           [ {| baseColorFactor := [dec 75 100; dec 75 100; dec 8 10; f_of_Z 1];
                metallicFactor := dec 5 100;
                roughnessFactor := dec 9 10 |} ];
         meshes :=
           [ {| primitives :=
                  [ {| attributes := [("POSITION"%string, 0); ("NORMAL"%string, 1)];
                       prim_indices := 2;
                       prim_material := Some 0 |} ] |} ];
         nodes := [ {| node_mesh := 0; node_name := None; node_extras := None |} ];
         scenes := [ [0] ];
         scene := 0 |})%py.

(** The whole script, up to the dictionary that is written out. *)
Definition generate : result (gltf F) :=
  (st <- build_geometry ;;
   emit (all_vertices st) (all_indices st))%py.

(** A run of the script, statement by statement, started in the world
    [w].  [column_spacing] is computed among the parameters, before the
    buffers are bound to their empty values; the loops raise nothing;
    the normals, the packing and the document come after them. *)
Definition run (w : world F) : world F * result unit :=
  match py_div_int (building_width p) (grid_size p - 1) with
  | Raise e => (w, Raise e)
  | Ok column_spacing =>
      let st := fold_left (floor_body column_spacing) (py_range (floors p))
                  empty_buffers in
      let st := core_loop (walls_loop st) in
      match emit (all_vertices st) (all_indices st) with
      | Raise e =>
          ({| w_buffers := Some st; w_gltf := w_gltf w; w_file := w_file w |},
           Raise e)
      | Ok doc =>
          ({| w_buffers := Some st; w_gltf := Some doc; w_file := Some doc |},
           Ok tt)
      end
  end.

End Script.

End V2.

(* ================================================================== *)
(** * First script: slabs, columns and beams *)
(* ================================================================== *)

Module V1.

(** The module-level parameters of [building_generator.py]. *)
Record params (F : Type) : Type := {
  floors : Z;
  floor_height : F;
  building_width : F;
  grid_size : Z;
  column_size : F;
  beam_height : F;
  beam_width : F;
  slab_thickness : F
}.

(** What a run of the script finds and what it leaves: the buffers
    [all_vertices], [all_indices] and [vertex_offset], the name [gltf],
    and the content of the file [./model.gltf]. *)
Record world (F : Type) : Type := {
  w_buffers : option (buffers_state (vertex F));
  w_gltf : option (gltf F);
  w_file : option (gltf F)
}.

Section Script.
Context {F : Type} `{PyFloat F} `{PyPack F}.
Variable p : params F.

Definition default_params : params F :=
  {| floors := 5;
     floor_height := dec 35 10;
     building_width := f_of_Z 20;
     grid_size := 5;
     column_size := dec 4 10;
     beam_height := dec 5 10;
     beam_width := dec 4 10;
     slab_thickness := dec 3 10 |}.

Definition grid_coord (column_spacing : F) (g : Z) : F :=
  (- building_width p / two + f_of_Z g * column_spacing)%flt.

(** The three statements that follow each [create_box]:
    [all_vertices.extend(v)], [all_indices.extend(...)],
    [vertex_offset += len(v)]. *)
Definition extend (b : list (vertex F) * list Z) (st : buffers_state (vertex F))
  : buffers_state (vertex F) :=
  let '(v, i) := b in add_mesh v i st.

Definition columns_loop (column_spacing y_base : F)
  (st : buffers_state (vertex F)) : buffers_state (vertex F) :=
  fold_left (fun st gx =>
    fold_left (fun st gz =>
      let x := grid_coord column_spacing gx in
      let z := grid_coord column_spacing gz in
      extend (create_box (column_size p) (floor_height p) (column_size p)
                x (y_base + floor_height p / two)%flt z) st)
    (py_range (grid_size p)) st)
  (py_range (grid_size p)) st.

Definition beams_x_loop (column_spacing y_base : F)
  (st : buffers_state (vertex F)) : buffers_state (vertex F) :=
  fold_left (fun st gz =>
    let z := grid_coord column_spacing gz in
    fold_left (fun st gx =>
      let x_start := grid_coord column_spacing gx in
      let x_end := (x_start + column_spacing)%flt in
      let mid_x := ((x_start + x_end) / two)%flt in
      extend (create_box column_spacing (beam_height p) (beam_width p)
                mid_x (y_base + floor_height p - beam_height p / two)%flt z) st)
    (py_range (grid_size p - 1)) st)
  (py_range (grid_size p)) st.

Definition beams_z_loop (column_spacing y_base : F)
  (st : buffers_state (vertex F)) : buffers_state (vertex F) :=
  fold_left (fun st gx =>
    let x := grid_coord column_spacing gx in
    fold_left (fun st gz =>
      let z_start := grid_coord column_spacing gz in
      let z_end := (z_start + column_spacing)%flt in
      let mid_z := ((z_start + z_end) / two)%flt in
      extend (create_box (beam_width p) (beam_height p) column_spacing
                x (y_base + floor_height p - beam_height p / two)%flt mid_z) st)
    (py_range (grid_size p - 1)) st)
  (py_range (grid_size p)) st.

(** The body of [for f in range(floors)]. *)
Definition floor_body (column_spacing : F) (st : buffers_state (vertex F)) (f : Z)
  : buffers_state (vertex F) :=
  let y_base := (f_of_Z f * floor_height p)%flt in
  let st := extend (create_box (building_width p) (slab_thickness p)
                      (building_width p) zero y_base zero) st in
  if (f <? floors p - 1)%Z then
    let st := columns_loop column_spacing y_base st in
    let st := beams_x_loop column_spacing y_base st in
    beams_z_loop column_spacing y_base st
  else st.

(** The section [Generation]: the buffers when it ends. *)
Definition generation : result (buffers_state (vertex F)) :=
  (column_spacing <- py_div_int (building_width p) (grid_size p - 1) ;;
   Ok (fold_left (floor_body column_spacing) (py_range (floors p))
         empty_buffers))%py.

(** [v[i]] for [i] in [range(3)]. *)
Definition coord (i : nat) (v : vertex F) : F :=
  let '(x, y, z) := v in
  match i with O => x | S O => y | _ => z end.

(** [[max(v[i] for v in all_vertices) for i in range(3)]], and the same
    with [min]. *)
Definition bounds_max (vs : list (vertex F)) : result (list F) :=
  mapM (fun i => py_max (map (coord i) vs)) [0; 1; 2].

Definition bounds_min (vs : list (vertex F)) : result (list F) :=
  mapM (fun i => py_min (map (coord i) vs)) [0; 1; 2].

(** The sections [Convert to Binary] and [glTF Structure] on given
    buffers. *)
Definition emit (vs : list (vertex F)) (inds : list Z) : result (gltf F) :=
  (vertex_bytes <- pack_vec3_list vs ;;
   index_bytes <- pack_index_list inds ;;
   let combined := (vertex_bytes ++ index_bytes)%list in
   hi <- bounds_max vs ;;
   lo <- bounds_min vs ;;
   Ok {| asset_version := "2.0";
         buffers := [ {| uri := data_uri combined;
                         buf_byteLength := length combined |} ];
         bufferViews :=
           [ {| bv_buffer := 0; byteOffset := 0;
                byteLength := length vertex_bytes; bv_target := Some 34962%Z |};
             {| bv_buffer := 0; byteOffset := length vertex_bytes;
                byteLength := length index_bytes; bv_target := Some 34963%Z |} ];
         accessors :=
           [ {| acc_bufferView := 0; componentType := 5126;
                acc_count := length vs; acc_type := "VEC3";
                acc_max := Some hi; acc_min := Some lo |};
             {| acc_bufferView := 1; componentType := 5125;
                acc_count := length inds; acc_type := "SCALAR";
                acc_max := None; acc_min := None |} ];
         materials := [];
         meshes :=
           [ {| primitives :=
                  [ {| attributes := [("POSITION"%string, 0)];
                       prim_indices := 1;
                       prim_material := None |} ] |} ];
         nodes := [ {| node_mesh := 0; node_name := None; node_extras := None |} ];
         scenes := [ [0] ];
         scene := 0 |})%py.

Definition generate : result (gltf F) :=
  (st <- generation ;;
   emit (all_vertices st) (all_indices st))%py.

(** A run of the script, statement by statement, started in the world
    [w].  [column_spacing] is computed among the parameters, before the
    buffers are bound to their empty values; the loop raises nothing;
    the packing, the bounds and the document come after it. *)
Definition run (w : world F) : world F * result unit :=
  match py_div_int (building_width p) (grid_size p - 1) with
  | Raise e => (w, Raise e)
  | Ok column_spacing =>
      let st := fold_left (floor_body column_spacing) (py_range (floors p))
                  empty_buffers in
      match emit (all_vertices st) (all_indices st) with
      | Raise e =>
          ({| w_buffers := Some st; w_gltf := w_gltf w; w_file := w_file w |},
           Raise e)
      | Ok doc =>
          ({| w_buffers := Some st; w_gltf := Some doc; w_file := Some doc |},
           Ok tt)
      end
  end.

End Script.

End V1.

Unset Implicit Arguments.

(* ================================================================== *)
(** * Specification predicates *)
(* ================================================================== *)

Section BoxSpec.
Context {F : Type} `{PyFloat F}.

(** [+x] or [-x]. *)
Definition signed (negative : bool) (x : F) : F :=
  if negative then (- x)%flt else x.

(** The corner of the box with the given choice of signs, moved to the
    center. *)
Definition corner (w h d tx ty tz : F) (sx sy sz : bool) : vertex F :=
  ((signed sx (w / two) + tx)%flt,
   (signed sy (h / two) + ty)%flt,
   (signed sz (d / two) + tz)%flt).


End BoxSpec.

(** The index list read three entries at a time. *)
Fixpoint triangles (inds : list Z) : list (Z * Z * Z) :=
  match inds with
  | a :: b :: c :: rest => (a, b, c) :: triangles rest
  | _ => []
  end.

Definition proper_triangle (t : Z * Z * Z) : Prop :=
  let '(a, b, c) := t in a <> b /\ b <> c /\ a <> c.

(** Every index is below the number of vertices. *)
Definition indices_below {V : Type} (vs : list V) (inds : list Z) : Prop :=
  Forall (fun idx => (idx < Z.of_nat (length vs))%Z) inds.

(** An [add] call whose index list is valid for its own vertex list. *)
Definition locally_valid {V : Type} (c : list V * list Z) : Prop :=
  indices_below (fst c) (snd c).

(** The number of vertices handed to a sequence of [add] calls. *)
Definition added_vertices {V : Type} (calls : list (list V * list Z)) : nat :=
  list_sum (map (fun c => length (fst c)) calls).

(** What the buffers of the first two scripts keep true: the running
    offset is the number of vertices, and every index is below it. *)
Definition buffers_consistent {V : Type} (st : buffers_state V) : Prop :=
  offset st = Z.of_nat (length (all_vertices st)) /\
  indices_below (all_vertices st) (all_indices st).

(** A triangle index list that is valid for a vertex list: whole
    triangles, and every index a position of the vertex list. *)
Definition valid_triangles {V : Type} (vertices : list V) (indices : list Z)
  : Prop :=
  (exists n, length indices = 3 * n) /\
  Forall (fun idx => (0 <= idx < Z.of_nat (length vertices))%Z) indices.

(** Buffer views laid out one after the other from byte [start], each
    exactly as long as the section of bytes it stands for. *)
Inductive laid_out : list bufferView -> list (list byte) -> nat -> Prop :=
| laid_out_nil (start : nat) : laid_out [] [] start
| laid_out_cons (v : bufferView) (views : list bufferView)
    (sec : list byte) (secs : list (list byte)) (start : nat) :
    byteOffset v = start ->
    byteLength v = length sec ->
    laid_out views secs (start + length sec) ->
    laid_out (v :: views) (sec :: secs) start.

(** The bytes a view addresses in a buffer. *)
Definition view_bytes (buf : list byte) (v : bufferView) : list byte :=
  firstn (byteLength v) (skipn (byteOffset v) buf).

(** Two views share no byte. *)
Definition disjoint_views (v1 v2 : bufferView) : Prop :=
  byteOffset v1 + byteLength v1 <= byteOffset v2 \/
  byteOffset v2 + byteLength v2 <= byteOffset v1.

Section PackerSpec.
Context {F : Type} `{PyFloat F} `{PyPack F}.

(** One call of [append_mesh]: name, data, LOD level. *)
Definition call : Type := (string * V3.group F * Z)%type.

Definition call_data (c : call) : V3.group F := snd (fst c).

(** Any sequence of [append_mesh] calls. *)
Definition emit_calls (calls : list call) (em : V3.emitter F)
  : result (V3.emitter F) :=
  foldM (fun c em => V3.append_mesh (fst (fst c)) (snd (fst c)) (snd c) em)
    calls em.

(** The loops of the script are such sequences of calls. *)
Definition lod_calls (lod : list (string * V3.group F)) (level : Z) : list call :=
  map (fun entry => (fst entry, snd entry, level)) lod.

(** The three byte sections of a mesh group: positions, normals,
    indices. *)
Definition sections_of (g : V3.group F) : result (list (list byte)) :=
  let '(verts, inds, _) := g in
  (normals <- compute_normals verts inds ;;
   v_bytes <- pack_vec3_list verts ;;
   n_bytes <- pack_vec3_list normals ;;
   i_bytes <- pack_index_list inds ;;
   Ok [v_bytes; n_bytes; i_bytes])%py.

(** The accessor at position [k] reads the buffer view at position [k],
    and its element count times its element size is the length of that
    view. *)
Definition accessor_fits (views : list bufferView) (k : nat) (a : accessor F)
  : Prop :=
  acc_bufferView a = k /\
  exists v, nth_error views k = Some v /\
            acc_count a * element_size a = byteLength v.

(** What every state of the emitter satisfies, for the sections [secs]
    packed so far. *)
Record packed (secs : list (list byte)) (em : V3.emitter F) : Prop := {
  packed_buffer : V3.all_buffer em = concat secs;
  packed_views : laid_out (V3.em_bufferViews em) secs 0;
  packed_count : length (V3.em_accessors em) = length (V3.em_bufferViews em);
  packed_accessors :
    forall k a, nth_error (V3.em_accessors em) k = Some a ->
                accessor_fits (V3.em_bufferViews em) k a
}.

(** The three views and the three accessors one call appends. *)
Definition mesh_views (off : nat) (v n i : list byte) : list bufferView :=
  [ V3.plain_view off (length v);
    V3.plain_view (off + length v) (length n);
    V3.plain_view (off + length v + length n) (length i) ].

Definition mesh_accessors (bv nverts nnormals ninds : nat) : list (accessor F) :=
  [ V3.plain_accessor bv 5126 nverts "VEC3";
    V3.plain_accessor (bv + 1) 5126 nnormals "VEC3";
    V3.plain_accessor (bv + 2) 5125 ninds "SCALAR" ].

Definition no_bounds (a : accessor F) : Prop :=
  acc_max a = None /\ acc_min a = None.

End PackerSpec.

(** A triangle and an isolated vertex, packed as one mesh. *)
Definition sample_group : V3.group float :=
  ([ (zero, zero, zero); (Binary64.of_Z 1, zero, zero);
     (zero, Binary64.of_Z 1, zero); (Binary64.of_Z 5, Binary64.of_Z 5, Binary64.of_Z 5) ],
   [0; 1; 2]%Z, "structure"%string).

Section SlotSums.
Context {F : Type} `{PyFloat F}.

(** What the accumulation loop adds into slot [k], in the order in which
    it adds it: the face normal of a triangle once for each of its
    corners that is vertex [k]. *)
Fixpoint slot_sum (vertices : list (vertex F)) (indices : list Z) (k : nat)
  (a : vertex F) : vertex F :=
  match indices with
  | i0 :: i1 :: i2 :: rest =>
      match py_get vertices i0, py_get vertices i1, py_get vertices i2 with
      | Ok v0, Ok v1, Ok v2 =>
          let n := face_normal v0 v1 v2 in
          let touch (idx : Z) (a : vertex F) :=
            if Nat.eqb (Z.to_nat idx) k then add_to n a else a in
          slot_sum vertices rest k (touch i2 (touch i1 (touch i0 a)))
      | _, _, _ => a
      end
  | _ => a
  end.

End SlotSums.

(** The length that [compute_normals] divides by. *)
Definition guarded_length (a : vertex R) : R :=
  let '(a0, a1, a2) := a in
  (sqrt (a0 * a0 + a1 * a1 + a2 * a2) + 1 / 1000000)%R.

(** [n] is [a] divided by its guarded length. *)
Definition normalized (a n : vertex R) : Prop :=
  let '(a0, a1, a2) := a in
  let l := guarded_length a in
  n = (a0 / l, a1 / l, a2 / l)%R.

Section Measures.
Context {F : Type} `{PyFloat F}.

Definition vertex_count (st : store (vertex F)) : nat := length (fst st).

Definition buffered (st : buffers_state (vertex F)) : nat :=
  length (all_vertices st).

(** The mesh group invariant: whole triangles, every index a position
    of the vertex list. *)
Definition store_valid (st : store (vertex F)) : Prop :=
  valid_triangles (fst st) (snd st).

Definition buffers_valid (st : buffers_state (vertex F)) : Prop :=
  offset st = Z.of_nat (length (all_vertices st)) /\
  valid_triangles (all_vertices st) (all_indices st).

(** All six stores of [build_structure] at once. *)
Definition stores_valid (st : V3.stores F) : Prop :=
  store_valid (V3.slabs st) /\ store_valid (V3.cols st) /\
  store_valid (V3.beams st) /\ store_valid (V3.spatial st) /\
  store_valid (V3.core st) /\ store_valid (V3.walls st).

End Measures.

(** What [max] and [min] need of the comparison: [<] is transitive and
    irreflexive.  Both hold of binary64 (a comparison with a NaN is
    false) and of the real numbers. *)
Class PyOrder (F : Type) `{PyFloat F} : Prop := {
  fltb_trans : forall x y z : F,
    fltb x y = true -> fltb y z = true -> fltb x z = true;
  fltb_irrefl : forall x : F, fltb x x = false
}.

Section Extrema.
Context {F : Type} `{PyFloat F}.

(** [m] is a greatest (least) element of [xs] for Python's [<]. *)
Definition is_max (xs : list F) (m : F) : Prop :=
  In m xs /\ forall x, In x xs -> fltb m x = false.

Definition is_min (xs : list F) (m : F) : Prop :=
  In m xs /\ forall x, In x xs -> fltb x m = false.

End Extrema.

(** ** Binary64 values *)

(** A binary64 value that is not below zero: a zero of either sign, a
    positive number, plus infinity, or a NaN. *)
Definition not_negative (x : spec_float) : Prop :=
  match x with
  | S754_finite true _ _ => False
  | S754_infinity true => False
  | _ => True
  end.

(** The sign of a value; a NaN has no sign to compare. *)
Definition has_sign (sx : bool) (x : spec_float) : Prop :=
  match x with
  | S754_zero s => s = sx
  | S754_infinity s => s = sx
  | S754_finite s _ _ => s = sx
  | S754_nan => True
  end.

(** A number or an infinity of sign [sx]: neither a zero nor a NaN. *)
Definition finite_or_infinite (sx : bool) (x : spec_float) : Prop :=
  match x with
  | S754_finite s _ _ => s = sx
  | S754_infinity s => s = sx
  | _ => False
  end.

(** [x ** 2] raises: [x] is finite and its square is not. *)
Definition square_overflows (x : float) : bool :=
  Binary64.is_finite x && PrimFloat.is_infinity (x * x)%float.

(** [normalize] squares the three components in turn. *)
Definition squares_overflow (a : vertex float) : bool :=
  let '(a0, a1, a2) := a in
  square_overflows a0 || square_overflows a1 || square_overflows a2.

(** The divisor [math.sqrt(a0**2 + a1**2 + a2**2) + 1e-6] in binary64,
    when no square raises. *)
Definition guarded_length64 (a : vertex float) : float :=
  let '(a0, a1, a2) := a in
  (fsqrt (a0 * a0 + a1 * a1 + a2 * a2) + eps)%flt.

(** The tuple [(a0/l, a1/l, a2/l)] in binary64. *)
Definition unit_normal64 (a : vertex float) : vertex float :=
  let '(a0, a1, a2) := a in
  let l := guarded_length64 a in
  (a0 / l, a1 / l, a2 / l)%flt.

(** ** The normal estimator with a C library's [pow] *)

Section LibmSpec.
Variable c_pow2 : float -> float.

(** The base [float_pow] hands to the library: [fabs(x)]. *)
Definition pow2_base (x : float) : float :=
  if PrimFloat.ltb x PrimFloat.zero then PrimFloat.opp x else x.

(** [x ** 2] is computed by the library: [x] is a number other than
    zero, one and minus one. *)
Definition pow2_by_library (x : float) : bool :=
  negb (PrimFloat.is_nan x) && negb (PrimFloat.is_infinity x)
  && negb (PrimFloat.eqb x PrimFloat.zero)
  && negb (PrimFloat.eqb (pow2_base x) Libm.one).

(** [x ** 2] raises: the library's result is infinite. *)
Definition pow2_overflows (x : float) : bool :=
  pow2_by_library x && PrimFloat.is_infinity (c_pow2 (pow2_base x)).

(** The value of [x ** 2] when it does not raise. *)
Definition pow2_value (x : float) : float :=
  if PrimFloat.is_nan x then x
  else if PrimFloat.is_infinity x then PrimFloat.abs x
  else if PrimFloat.eqb x PrimFloat.zero then PrimFloat.zero
  else if PrimFloat.eqb (pow2_base x) Libm.one then Libm.one
  else c_pow2 (pow2_base x).

(** [normalize] squares the three components in turn. *)
Definition squares_raise (a : vertex float) : bool :=
  let '(a0, a1, a2) := a in
  pow2_overflows a0 || pow2_overflows a1 || pow2_overflows a2.

(** The divisor [math.sqrt(a0**2 + a1**2 + a2**2) + 1e-6] when no
    square raises. *)
Definition guarded_length_libm (a : vertex float) : float :=
  let '(a0, a1, a2) := a in
  (PrimFloat.sqrt (pow2_value a0 + pow2_value a1 + pow2_value a2)
   + eps (F:=float))%float.

(** The tuple [(a0/l, a1/l, a2/l)]. *)
Definition unit_normal_libm (a : vertex float) : vertex float :=
  let '(a0, a1, a2) := a in
  let l := guarded_length_libm a in
  (a0 / l, a1 / l, a2 / l)%float.

End LibmSpec.

(** ** Arguments of [create_box] within the float range *)

(** An argument that is a float, or an [int] below [2^1023] in
    magnitude. *)
Definition in_float_range (a : PyNumber.number) : Prop :=
  match a with
  | PyNumber.Flt _ => True
  | PyNumber.Int n => (Z.abs n < 2 ^ 1023)%Z
  end.

(** ** Corners of a mesh *)

(** The corners a mesh draws: each index replaced by the vertex it
    addresses, [vs[idx]]. *)
Definition corners {V : Type} (vs : list V) (inds : list Z) : list (result V) :=
  map (py_get vs) inds.

(** A call whose indices are positions of the vertex list it brings. *)
Definition call_valid {V : Type} (c : list V * list Z) : Prop :=
  Forall (fun idx => (0 <= idx < Z.of_nat (length (fst c)))%Z) (snd c).

(** ** Whole meshes *)

(** A call that brings whole triangles over its own vertex list. *)
Definition whole_valid {V : Type} (c : list V * list Z) : Prop :=
  valid_triangles (fst c) (snd c).

(** ** Python indices *)

(** An index Python accepts on a list of [len] elements: a position, or
    a negative index counted from the end. *)
Definition py_index_ok (len : nat) (idx : Z) : Prop :=
  (- Z.of_nat len <= idx < Z.of_nat len)%Z.

(** The position a negative index stands for. *)
Definition py_wrap (len : nat) (idx : Z) : Z :=
  if (idx <? 0)%Z then (Z.of_nat len + idx)%Z else idx.

(** ** Packed indices read back *)

(** The number that bytes stand for, least significant first. *)
Definition le_value (bs : list byte) : Z :=
  fold_right (fun b acc => (Z.of_N (Byte.to_N b) + 256 * acc)%Z) 0%Z bs.

(** A packed index list read back, four bytes at a time, as
    [struct.unpack('<I', ...)] reads them. *)
Fixpoint unpack_indices (bs : list byte) : list Z :=
  match bs with
  | a :: b :: c :: d :: rest => le_value [a; b; c; d] :: unpack_indices rest
  | _ => []
  end.

(** An index that fits the format [I]. *)
Definition fits_uint32 (i : Z) : Prop := (0 <= i < 4294967296)%Z.

(** ** The lists of the document *)

Section DocumentSpec.
Context {F : Type} `{PyFloat F} `{PyPack F}.

(** The primitive of mesh [k]: positions, normals and indices in the
    three accessors from [3 * k] on. *)
Definition mesh_of (k : nat) : mesh :=
  {| primitives :=
       [ {| attributes := [("POSITION"%string, 3 * k);
                           ("NORMAL"%string, 3 * k + 1)];
            prim_indices := 3 * k + 2;
            prim_material := None |} ] |}.

(** The node of a call in position [k]. *)
Definition node_of (k : nat) (c : call (F:=F)) : node :=
  let '(name, (_, _, semantic), lvl) := c in
  {| node_mesh := k;
     node_name := Some (name ++ "_LOD" ++ str_of_Z lvl)%string;
     node_extras := Some (semantic, lvl) |}.

(** The nodes of a sequence of calls, numbered from [k]. *)
Fixpoint nodes_of (k : nat) (calls : list (call (F:=F))) : list node :=
  match calls with
  | [] => []
  | c :: rest => node_of k c :: nodes_of (S k) rest
  end.

(** Every offset and every length is a whole number of 4-byte
    components. *)
Definition aligned (em : V3.emitter F) : Prop :=
  Nat.divide 4 (length (V3.all_buffer em)) /\
  Forall (fun v => Nat.divide 4 (byteOffset v) /\ Nat.divide 4 (byteLength v))
    (V3.em_bufferViews em).

End DocumentSpec.

(** ** Boxes in a store *)

(** A store that holds [k] boxes: eight vertices and thirty-six indices
    each. *)
Definition holds_boxes {V : Type} (st : store V) (k : nat) : Prop :=
  length (fst st) = 8 * k /\ length (snd st) = 36 * k.


(** Name, number of vertices, number of indices and semantic tag of the
    entries of a dictionary of groups. *)
Definition group_sizes {F : Type} (lod : list (string * V3.group F))
  : list (string * nat * nat * string) :=
  map (fun entry =>
         let '(name, (verts, inds, semantic)) := entry in
         (name, length verts, length inds, semantic)) lod.

(** ** Sizes of groups *)



(** One group is no larger than another of the same name. *)
Definition no_larger (a b : string * nat * nat * string) : Prop :=
  let '(name_a, nv_a, ni_a, tag_a) := a in
  let '(name_b, nv_b, ni_b, tag_b) := b in
  name_a = name_b /\ tag_a = tag_b /\ nv_a <= nv_b /\ ni_a <= ni_b.

(** ** Enclosure *)

Section EnclosureSpec.
Context {F : Type} `{PyFloat F}.

(** No coordinate of [v] is above [hi] or below [lo], axis by axis, for
    Python's [<]. *)
Definition enclosed (lo hi : list F) (v : vertex F) : Prop :=
  match lo, hi with
  | [lx; ly; lz], [hx; hy; hz] =>
      let '(x, y, z) := v in
      fltb hx x = false /\ fltb x lx = false /\
      fltb hy y = false /\ fltb y ly = false /\
      fltb hz z = false /\ fltb z lz = false
  | _, _ => False
  end.

End EnclosureSpec.

(** ** Base64 decoding *)

(** Position of a character in a string, counted from [k]. *)
Fixpoint index_from (c : ascii) (s : string) (k : N) : option N :=
  match s with
  | EmptyString => None
  | String d rest => if Ascii.eqb c d then Some k else index_from c rest (k + 1)
  end.

(** The six bits a character of the alphabet stands for. *)
Definition b64_index (c : ascii) : option N := index_from c b64_alphabet 0.

Definition byte_of_N (n : N) : byte :=
  match Byte.of_N n with
  | Some b => b
  | None => x00
  end.

Definition is_pad (c : ascii) : bool := Ascii.eqb c "=".

(** [base64.b64decode]: four characters give three bytes, and a last
    group padded with one or two [=] gives two bytes or one. *)
Fixpoint b64decode (s : string) : option (list byte) :=
  match s with
  | EmptyString => Some []
  | String c0 (String c1 (String c2 (String c3 rest))) =>
      match b64_index c0, b64_index c1 with
      | Some s0, Some s1 =>
          let b0 := byte_of_N (s0 * 4 + s1 / 16) in
          if is_pad c2 then
            if is_pad c3 then
              match rest with EmptyString => Some [b0] | _ => None end
            else None
          else
            match b64_index c2 with
            | Some s2 =>
                let b1 := byte_of_N ((s1 mod 16) * 16 + s2 / 4) in
                if is_pad c3 then
                  match rest with EmptyString => Some [b0; b1] | _ => None end
                else
                  match b64_index c3, b64decode rest with
                  | Some s3, Some bs =>
                      Some (b0 :: b1 :: byte_of_N ((s2 mod 4) * 64 + s3) :: bs)
                  | _, _ => None
                  end
            | None => None
            end
      | _, _ => None
      end
  | _ => None
  end%N.

(** ** Surfaces *)

(** The directed edges of a triangle list: each triangle [(a, b, c)]
    runs along [a -> b], [b -> c] and [c -> a]. *)
Definition directed_edges (inds : list Z) : list (Z * Z) :=
  flat_map (fun '(a, b, c) => [(a, b); (b, c); (c, a)]) (triangles inds).

(** How often an edge occurs in a list of edges. *)
Definition edge_count (e : Z * Z) (es : list (Z * Z)) : nat :=
  length (filter (fun e' => Z.eqb (fst e) (fst e') && Z.eqb (snd e) (snd e')) es).

(** A closed surface wound one way: every directed edge is run along
    once, and once in the opposite direction, by the neighbouring
    triangle. *)
Definition closed_surface (inds : list Z) : Prop :=
  Forall (fun e =>
            edge_count e (directed_edges inds) = 1 /\
            edge_count (snd e, fst e) (directed_edges inds) = 1)
    (directed_edges inds).

(* ================================================================== *)
(** * Box primitive builder *)
(* ================================================================== *)

Section BoxFacts.
Context {F : Type} `{PyFloat F}.

Lemma box_indices_length : length box_indices = 36.
Proof. reflexivity. Qed.

Lemma box_indices_range :
  Forall (fun idx => (0 <= idx < 8)%Z) box_indices.
Proof. unfold box_indices. repeat constructor; lia. Qed.

Lemma box_triangles_count : length (triangles box_indices) = 12.
Proof. reflexivity. Qed.

Lemma box_triangles_proper : Forall proper_triangle (triangles box_indices).
Proof.
  unfold box_indices; simpl.
  repeat constructor; discriminate.
Qed.

Lemma create_box_indices (w h d tx ty tz : F) :
  snd (create_box w h d tx ty tz) = box_indices.
Proof. reflexivity. Qed.

(** The vertex list, corner by corner, in the order of the source. *)
Lemma create_box_vertices (w h d tx ty tz : F) :
  fst (create_box w h d tx ty tz) =
  [ corner w h d tx ty tz true true false;
    corner w h d tx ty tz false true false;
    corner w h d tx ty tz false false false;
    corner w h d tx ty tz true false false;
    corner w h d tx ty tz true true true;
    corner w h d tx ty tz false true true;
    corner w h d tx ty tz false false true;
    corner w h d tx ty tz true false true ].
Proof. reflexivity. Qed.

Lemma create_box_vertex_count (w h d tx ty tz : F) :
  length (fst (create_box w h d tx ty tz)) = 8.
Proof. rewrite create_box_vertices. reflexivity. Qed.


Lemma create_box_locally_valid (w h d tx ty tz : F) :
  locally_valid (create_box w h d tx ty tz).
Proof.
  unfold locally_valid, indices_below.
  rewrite create_box_vertex_count, create_box_indices.
  eapply Forall_impl; [ | apply box_indices_range ].
  simpl; intros; lia.
Qed.


End BoxFacts.


(* ================================================================== *)
(** * Mesh aggregator invariant *)
(* ================================================================== *)

Section Aggregator.
Context {V : Type}.

Lemma add_vertices (v : list V) (i : list Z) (st : store V) :
  fst (add v i st) = fst st ++ v.
Proof. destruct st; reflexivity. Qed.

Lemma add_indices (v : list V) (i : list Z) (st : store V) :
  snd (add v i st) =
  snd st ++ map (fun idx => (idx + Z.of_nat (length (fst st)))%Z) i.
Proof. destruct st; reflexivity. Qed.

(** Indices valid for a list stay valid when the list grows. *)
Lemma indices_below_grow (vs extra : list V) (inds : list Z) :
  indices_below vs inds -> indices_below (vs ++ extra) inds.
Proof.
  unfold indices_below. intros Hb.
  eapply Forall_impl; [ | exact Hb ].
  intros idx Hidx; cbv beta in *. rewrite length_app. lia.
Qed.

(** Indices valid for the added list are valid for the whole list once
    shifted by the length of what was there before. *)
Lemma indices_below_shift (vs v : list V) (i : list Z) :
  indices_below v i ->
  indices_below (vs ++ v) (map (fun idx => (idx + Z.of_nat (length vs))%Z) i).
Proof.
  unfold indices_below. intros Hb.
  apply Forall_map.
  eapply Forall_impl; [ | exact Hb ].
  intros idx Hidx; cbv beta in *. rewrite length_app. lia.
Qed.

Lemma add_keeps_indices_below (v : list V) (i : list Z) (st : store V) :
  indices_below (fst st) (snd st) ->
  indices_below v i ->
  indices_below (fst (add v i st)) (snd (add v i st)).
Proof.
  intros Hst Hvi. rewrite add_vertices, add_indices.
  apply Forall_app; split.
  - apply indices_below_grow; assumption.
  - apply indices_below_shift; assumption.
Qed.

Lemma add_all_invariant (calls : list (list V * list Z)) :
  Forall locally_valid calls ->
  forall st : store V,
    indices_below (fst st) (snd st) ->
    indices_below (fst (add_all calls st)) (snd (add_all calls st)) /\
    length (fst (add_all calls st)) = length (fst st) + added_vertices calls.
Proof.
  induction 1 as [ | c calls Hc Hcalls IH ]; intros st Hst.
  - split; [ exact Hst | unfold added_vertices; simpl; lia ].
  - unfold add_all in *; simpl.
    destruct (IH (add (fst c) (snd c) st)) as [Hinv Hlen].
    { apply add_keeps_indices_below; assumption. }
    split; [ exact Hinv | ].
    rewrite Hlen, add_vertices, length_app.
    unfold added_vertices; simpl. lia.
Qed.

Lemma add_mesh_consistent (v : list V) (i : list Z) (st : buffers_state V) :
  buffers_consistent st ->
  indices_below v i ->
  buffers_consistent (add_mesh v i st).
Proof.
  intros [Hoff Hst] Hvi. split; simpl.
  - rewrite length_app, Hoff. lia.
  - rewrite Hoff. apply Forall_app; split.
    + apply indices_below_grow; assumption.
    + apply indices_below_shift; assumption.
Qed.

Lemma add_mesh_all_invariant (calls : list (list V * list Z)) :
  Forall locally_valid calls ->
  forall st : buffers_state V,
    buffers_consistent st ->
    buffers_consistent (add_mesh_all calls st) /\
    length (all_vertices (add_mesh_all calls st)) =
    length (all_vertices st) + added_vertices calls.
Proof.
  induction 1 as [ | c calls Hc Hcalls IH ]; intros st Hst.
  - split; [ exact Hst | unfold added_vertices; simpl; lia ].
  - unfold add_mesh_all in *; simpl.
    destruct (IH (add_mesh (fst c) (snd c) st)) as [Hinv Hlen].
    { apply add_mesh_consistent; assumption. }
    split; [ exact Hinv | ].
    rewrite Hlen; simpl. rewrite length_app.
    unfold added_vertices; simpl. lia.
Qed.

Lemma added_vertices_permutation (calls calls' : list (list V * list Z)) :
  Permutation calls calls' -> added_vertices calls = added_vertices calls'.
Proof.
  unfold added_vertices.
  induction 1; simpl; lia.
Qed.

(** C1.  Whatever the sequence of [add] calls and whatever its order, if
    each call brings an index list that is valid for the vertex list it
    brings, then every stored index is below the number of stored
    vertices, and that number is the sum of the numbers added.  The same
    holds of [add_mesh], whose running offset is the number of stored
    vertices. *)
Theorem aggregator_invariant (calls : list (list V * list Z)) :
  Forall locally_valid calls ->
  (forall order,
     Permutation calls order ->
     let st := add_all order ([], []) in
     indices_below (fst st) (snd st) /\
     length (fst st) = added_vertices calls) /\
  (forall order,
     Permutation calls order ->
     let st := add_mesh_all order empty_buffers in
     indices_below (all_vertices st) (all_indices st) /\
     length (all_vertices st) = added_vertices calls /\
     offset st = Z.of_nat (length (all_vertices st))).
Proof.
  intros Hvalid. split; intros order Hperm st.
  - assert (Horder : Forall locally_valid order)
      by (eapply Permutation_Forall; eassumption).
    destruct (add_all_invariant order Horder ([], [])) as [Hinv Hlen].
    { constructor. }
    split; [ exact Hinv | ].
    subst st. rewrite Hlen. simpl.
    symmetry. apply added_vertices_permutation. exact Hperm.
  - assert (Horder : Forall locally_valid order)
      by (eapply Permutation_Forall; eassumption).
    destruct (add_mesh_all_invariant order Horder empty_buffers)
      as [[Hoff Hinv] Hlen].
    { split; [ reflexivity | constructor ]. }
    repeat split; [ exact Hinv | | exact Hoff ].
    subst st. rewrite Hlen. simpl.
    symmetry. apply added_vertices_permutation. exact Hperm.
Qed.

End Aggregator.

Lemma aggregator_invariant_witness :
  let tri : list nat * list Z := ([7; 8; 9]%nat, [0; 1; 2]%Z) in
  let quad : list nat * list Z := ([3; 4; 5; 6]%nat, [0; 1; 2; 2; 3; 0]%Z) in
  Forall locally_valid [tri; quad] /\
  (let st := add_all [quad; tri] ([], []) in
   indices_below (fst st) (snd st) /\ length (fst st) = 7) /\
  (let st := add_mesh_all [quad; tri] empty_buffers in
   indices_below (all_vertices st) (all_indices st) /\
   length (all_vertices st) = 7 /\
   offset st = 7%Z).
Proof.
  intros tri quad.
  assert (Hvalid : Forall locally_valid [tri; quad]).
  { repeat constructor; simpl; lia. }
  split; [ exact Hvalid | ].
  destruct (aggregator_invariant [tri; quad] Hvalid) as [Hadd Hmesh].
  split.
  - exact (Hadd [quad; tri] (perm_swap quad tri [])).
  - exact (Hmesh [quad; tri] (perm_swap quad tri [])).
Defined.

(* ================================================================== *)
(** * The error monad and the packers: basic facts *)
(* ================================================================== *)

Lemma bind_ok {A B : Type} (m : result A) (k : A -> result B) (b : B) :
  bind m k = Ok b -> exists a, m = Ok a /\ k a = Ok b.
Proof.
  destruct m as [a | e]; simpl; intros Hb.
  - exists a; split; [ reflexivity | exact Hb ].
  - discriminate.
Qed.

(** Invert a chain of binds that is known to return. *)
Ltac bind_inv H :=
  let a := fresh "a" in
  let Ha := fresh "Ha" in
  apply bind_ok in H; destruct H as (a & Ha & H).

Lemma mapM_ok {A B : Type} (f : A -> result B) (xs : list A) (ys : list B) :
  mapM f xs = Ok ys -> Forall2 (fun x y => f x = Ok y) xs ys.
Proof.
  revert ys. induction xs as [ | x xs IH ]; simpl; intros ys Hm.
  - injection Hm as <-. constructor.
  - bind_inv Hm. bind_inv Hm. injection Hm as <-.
    constructor; [ assumption | apply IH; assumption ].
Qed.

Lemma mapM_length {A B : Type} (f : A -> result B) (xs : list A) (ys : list B) :
  mapM f xs = Ok ys -> length ys = length xs.
Proof.
  intros Hm. apply mapM_ok in Hm.
  symmetry. eapply Forall2_length; eassumption.
Qed.

Lemma mapM_total {A B : Type} (f : A -> result B) (xs : list A) :
  Forall (fun x => exists y, f x = Ok y) xs -> exists ys, mapM f xs = Ok ys.
Proof.
  induction 1 as [ | x xs [y Hy] _ [ys Hys] ]; simpl.
  - eexists; reflexivity.
  - rewrite Hy, Hys. simpl. eexists; reflexivity.
Qed.

Lemma foldM_app {A S : Type} (body : A -> S -> result S) (xs ys : list A) (s : S) :
  foldM body (xs ++ ys) s = bind (foldM body xs s) (foldM body ys).
Proof.
  revert s. induction xs as [ | x xs IH ]; simpl; intros s.
  - reflexivity.
  - destruct (body x s) as [s' | e]; simpl; [ apply IH | reflexivity ].
Qed.

Lemma concat_length_uniform {A : Type} (n : nat) (chunks : list (list A)) :
  Forall (fun c => length c = n) chunks ->
  length (concat chunks) = n * length chunks.
Proof.
  induction 1 as [ | c chunks Hc _ IH ]; simpl.
  - lia.
  - rewrite length_app, Hc, IH. lia.
Qed.

Lemma le_bytes4_length (z : Z) : length (le_bytes4 z) = 4.
Proof. reflexivity. Qed.

Lemma pack_I_length (i : Z) (bs : list byte) :
  pack_I i = Ok bs -> length bs = 4.
Proof.
  unfold pack_I. destruct (_ && _); intros Hp; [ | discriminate ].
  injection Hp as <-. apply le_bytes4_length.
Qed.

(** An index list packs to four bytes per index. *)
Lemma pack_index_list_length (inds : list Z) (bs : list byte) :
  pack_index_list inds = Ok bs -> length bs = 4 * length inds.
Proof.
  unfold pack_index_list. intros Hp. bind_inv Hp. injection Hp as <-.
  rewrite <- (mapM_length _ _ _ Ha).
  apply concat_length_uniform.
  apply mapM_ok in Ha.
  induction Ha as [ | i c inds chunks Hic _ IH ]; constructor.
  - eapply pack_I_length; eassumption.
  - exact IH.
Qed.

Lemma pack_I_in_range (i : Z) :
  (0 <= i < 4294967296)%Z -> pack_I i = Ok (le_bytes4 i).
Proof.
  intros Hi. unfold pack_I.
  replace (0 <=? i)%Z with true by (symmetry; apply Z.leb_le; lia).
  replace (i <? 4294967296)%Z with true by (symmetry; apply Z.ltb_lt; lia).
  reflexivity.
Qed.

Section PackFacts.
Context {F : Type} `{PyFloat F} `{PyPack F}.

Lemma pack_3f_length (v : vertex F) (bs : list byte) :
  pack_3f v = Ok bs -> length bs = 12.
Proof.
  destruct v as [[x y] z]. unfold pack_3f. intros Hp.
  bind_inv Hp. bind_inv Hp. bind_inv Hp. injection Hp as <-.
  reflexivity.
Qed.

(** A list of float triples packs to twelve bytes per triple. *)
Lemma pack_vec3_list_length (vs : list (vertex F)) (bs : list byte) :
  pack_vec3_list vs = Ok bs -> length bs = 12 * length vs.
Proof.
  unfold pack_vec3_list. intros Hp. bind_inv Hp. injection Hp as <-.
  rewrite <- (mapM_length _ _ _ Ha).
  apply concat_length_uniform.
  apply mapM_ok in Ha.
  induction Ha as [ | v c vs chunks Hvc _ IH ]; constructor.
  - eapply pack_3f_length; eassumption.
  - exact IH.
Qed.

End PackFacts.

(* ================================================================== *)
(** * Binary packer: byte-exact layout *)
(* ================================================================== *)

Lemma laid_out_app (views views' : list bufferView)
  (secs secs' : list (list byte)) (start : nat) :
  laid_out views secs start ->
  laid_out views' secs' (start + length (concat secs)) ->
  laid_out (views ++ views') (secs ++ secs') start.
Proof.
  induction 1 as [ start | v views sec secs start Hoff Hlen _ IH ];
    simpl; intros Hnext.
  - replace (start + 0) with start in Hnext by lia. exact Hnext.
  - constructor; [ assumption | assumption | ].
    apply IH. rewrite length_app in Hnext.
    replace (start + length sec + length (concat secs))
      with (start + (length sec + length (concat secs))) by lia.
    exact Hnext.
Qed.

Lemma laid_out_lengths (views : list bufferView) (secs : list (list byte))
  (start : nat) :
  laid_out views secs start -> map byteLength views = map (@length byte) secs.
Proof.
  induction 1; simpl; [ reflexivity | f_equal; assumption ].
Qed.

Lemma laid_out_total (views : list bufferView) (secs : list (list byte))
  (start : nat) :
  laid_out views secs start ->
  list_sum (map byteLength views) = length (concat secs).
Proof.
  induction 1 as [ | v views sec secs start _ Hlen _ IH ]; simpl.
  - reflexivity.
  - rewrite length_app, Hlen, IH. reflexivity.
Qed.

(** No view starts before the first byte of the layout or ends after
    its last. *)
Lemma laid_out_bounds (views : list bufferView) (secs : list (list byte))
  (start : nat) :
  laid_out views secs start ->
  forall v, In v views ->
    start <= byteOffset v /\
    byteOffset v + byteLength v <= start + length (concat secs).
Proof.
  induction 1 as [ | v0 views sec secs start Hoff Hlen _ IH ];
    simpl; intros v Hin.
  - contradiction.
  - rewrite length_app. destruct Hin as [<- | Hin].
    + lia.
    + specialize (IH v Hin). lia.
Qed.

Lemma laid_out_ordered (views : list bufferView) (secs : list (list byte))
  (start : nat) :
  laid_out views secs start ->
  forall i j vi vj,
    i < j ->
    nth_error views i = Some vi ->
    nth_error views j = Some vj ->
    byteOffset vi + byteLength vi <= byteOffset vj.
Proof.
  induction 1 as [ | v0 views sec secs start Hoff Hlen Hrest IH ];
    intros i j vi vj Hij Hi Hj.
  - destruct i; discriminate.
  - destruct j as [ | j ]; [ lia | ].
    simpl in Hj. destruct i as [ | i ]; simpl in Hi.
    + injection Hi as <-.
      apply nth_error_In in Hj.
      destruct (laid_out_bounds _ _ _ Hrest vj Hj) as [Hlow _]. lia.
    + eapply IH; [ | eassumption | eassumption ]. lia.
Qed.

Lemma slice_middle {A : Type} (pre mid post : list A) :
  firstn (length mid) (skipn (length pre) (pre ++ mid ++ post)) = mid.
Proof.
  rewrite skipn_app, skipn_all, Nat.sub_diag. simpl.
  rewrite firstn_app, firstn_all, Nat.sub_diag. simpl.
  apply app_nil_r.
Qed.

(** Every view addresses exactly the bytes of its section. *)
Lemma laid_out_view_bytes (views : list bufferView) (secs : list (list byte))
  (start : nat) :
  laid_out views secs start ->
  forall pre : list byte,
    length pre = start ->
    forall k v sec,
      nth_error views k = Some v ->
      nth_error secs k = Some sec ->
      view_bytes (pre ++ concat secs) v = sec.
Proof.
  induction 1 as [ | v0 views sec0 secs start Hoff Hlen _ IH ];
    intros pre Hpre k v sec Hv Hsec.
  - destruct k; discriminate.
  - destruct k as [ | k ]; simpl in Hv, Hsec.
    + injection Hv as <-. injection Hsec as <-.
      unfold view_bytes. rewrite Hoff, Hlen, <- Hpre. simpl.
      apply slice_middle.
    + simpl. rewrite app_assoc.
      eapply IH; [ | eassumption | eassumption ].
      rewrite length_app. lia.
Qed.

Section Packer.
Context {F : Type} `{PyFloat F} `{PyPack F}.

Lemma packed_empty : packed [] (V3.empty_emitter (F:=F)).
Proof.
  constructor; simpl.
  - reflexivity.
  - constructor.
  - reflexivity.
  - intros k a Hk. destruct k; discriminate.
Qed.

Lemma accessor_fits_grow (views extra : list bufferView) (k : nat)
  (a : accessor F) :
  accessor_fits views k a -> accessor_fits (views ++ extra) k a.
Proof.
  intros [Hk (v & Hv & Hsize)]. split; [ exact Hk | ].
  exists v. split; [ | exact Hsize ].
  rewrite nth_error_app1; [ exact Hv | ].
  apply nth_error_Some. rewrite Hv. discriminate.
Qed.

End Packer.

Section PackerSteps.
Context {F : Type} `{PyFloat F} `{PyPack F}.

(** What a call of [append_mesh] that returns has done to the state. *)
Lemma append_mesh_ok (name semantic : string) (verts : list (vertex F))
  (inds : list Z) (lvl : Z) (em em' : V3.emitter F) :
  V3.append_mesh name (verts, inds, semantic) lvl em = Ok em' ->
  exists normals v n i,
    compute_normals verts inds = Ok normals /\
    pack_vec3_list verts = Ok v /\
    pack_vec3_list normals = Ok n /\
    pack_index_list inds = Ok i /\
    V3.all_buffer em' = V3.all_buffer em ++ v ++ n ++ i /\
    V3.em_bufferViews em' =
      V3.em_bufferViews em ++ mesh_views (length (V3.all_buffer em)) v n i /\
    V3.em_accessors em' =
      V3.em_accessors em
        ++ mesh_accessors (length (V3.em_bufferViews em))
             (length verts) (length normals) (length inds) /\
    length (V3.em_meshes em') = length (V3.em_meshes em) + 1 /\
    V3.em_nodes em' =
      V3.em_nodes em
        ++ [ {| node_mesh := length (V3.em_meshes em);
                node_name := Some (name ++ "_LOD" ++ str_of_Z lvl)%string;
                node_extras := Some (semantic, lvl) |} ].
Proof.
  intros Hstep. unfold V3.append_mesh in Hstep.
  apply bind_ok in Hstep. destruct Hstep as (normals & Hnormals & Hstep).
  apply bind_ok in Hstep. destruct Hstep as (v & Hv & Hstep).
  apply bind_ok in Hstep. destruct Hstep as (n & Hn & Hstep).
  apply bind_ok in Hstep. destruct Hstep as (i & Hi & Hstep).
  injection Hstep as <-.
  exists normals, v, n, i. simpl.
  repeat (split; [ assumption | ]).
  split; [ rewrite <- !app_assoc; reflexivity | ].
  split.
  { unfold mesh_views. rewrite <- !app_assoc, !length_app. simpl.
    rewrite !Nat.add_assoc. reflexivity. }
  split.
  { unfold mesh_accessors. rewrite <- !app_assoc, !length_app. simpl.
    reflexivity. }
  split.
  { rewrite length_app. reflexivity. }
  rewrite length_app. simpl.
  replace (length (V3.em_meshes em) + 1 - 1) with (length (V3.em_meshes em)) by lia.
  reflexivity.
Qed.

Lemma mesh_views_laid_out (off : nat) (v n i : list byte) :
  laid_out (mesh_views off v n i) [v; n; i] off.
Proof.
  unfold mesh_views.
  constructor; [ reflexivity | reflexivity | ].
  constructor; [ reflexivity | reflexivity | ].
  constructor; [ reflexivity | reflexivity | ].
  constructor.
Qed.

Lemma append_mesh_packed (name : string) (data : V3.group F) (lvl : Z)
  (em em' : V3.emitter F) (secs : list (list byte)) :
  packed secs em ->
  V3.append_mesh name data lvl em = Ok em' ->
  exists new, sections_of data = Ok new /\ packed (secs ++ new) em'.
Proof.
  intros [Hbuf Hviews Hcount Haccs] Hstep.
  destruct data as [[verts inds] semantic].
  destruct (append_mesh_ok _ _ _ _ _ _ _ Hstep)
    as (normals & v & n & i & Hnormals & Hv & Hn & Hi
        & Hbuf' & Hviews' & Haccs' & _ & _).
  exists [v; n; i]. split.
  { unfold sections_of. rewrite Hnormals, Hv. simpl.
    rewrite Hn, Hi. reflexivity. }
  constructor.
  - rewrite Hbuf', Hbuf, concat_app. simpl.
    rewrite app_nil_r. reflexivity.
  - rewrite Hviews'. apply laid_out_app; [ exact Hviews | ].
    rewrite <- Hbuf. apply mesh_views_laid_out.
  - rewrite Hviews', Haccs', !length_app, Hcount. reflexivity.
  - intros k a Hk. rewrite Haccs' in Hk. rewrite Hviews'.
    destruct (Nat.lt_ge_cases k (length (V3.em_accessors em))) as [Hold | Hnew].
    + rewrite nth_error_app1 in Hk by assumption.
      apply accessor_fits_grow, Haccs, Hk.
    + rewrite nth_error_app2 in Hk by assumption.
      assert (Hpos : k = length (V3.em_bufferViews em)
                           + (k - length (V3.em_accessors em))) by lia.
      remember (k - length (V3.em_accessors em)) as r eqn:Hr.
      rewrite Hpos. unfold accessor_fits.
      rewrite nth_error_app2 by lia.
      replace (length (V3.em_bufferViews em) + r - length (V3.em_bufferViews em))
        with r by lia.
      destruct r as [ | [ | [ | r ] ] ]; simpl in Hk.
      * injection Hk as <-. simpl. split; [ lia | ].
        eexists; split; [ reflexivity | ]. simpl.
        symmetry. rewrite Nat.mul_comm. eapply pack_vec3_list_length; eassumption.
      * injection Hk as <-. simpl. split; [ lia | ].
        eexists; split; [ reflexivity | ]. simpl.
        symmetry. rewrite Nat.mul_comm. eapply pack_vec3_list_length; eassumption.
      * injection Hk as <-. simpl. split; [ lia | ].
        eexists; split; [ reflexivity | ]. simpl.
        symmetry. rewrite Nat.mul_comm. eapply pack_index_list_length; eassumption.
      * destruct r; discriminate.
Qed.

Lemma emit_calls_packed (calls : list call) :
  forall (secs : list (list byte)) (em em' : V3.emitter F),
    packed secs em ->
    emit_calls calls em = Ok em' ->
    exists per_mesh,
      mapM sections_of (map call_data calls) = Ok per_mesh /\
      packed (secs ++ concat per_mesh) em'.
Proof.
  induction calls as [ | c calls IH ]; intros secs em em' Hpacked Hrun.
  - injection Hrun as <-. exists []. simpl.
    rewrite app_nil_r. split; [ reflexivity | exact Hpacked ].
  - unfold emit_calls in Hrun; simpl in Hrun.
    apply bind_ok in Hrun. destruct Hrun as (em1 & Hstep & Hrun).
    destruct (append_mesh_packed _ _ _ _ _ _ Hpacked Hstep)
      as (new & Hnew & Hpacked1).
    destruct (IH _ _ _ Hpacked1 Hrun) as (per_mesh & Hrest & Hpacked').
    exists (new :: per_mesh). split.
    + simpl. unfold call_data at 1. rewrite Hnew. simpl.
      rewrite Hrest. reflexivity.
    + simpl. rewrite app_assoc. exact Hpacked'.
Qed.

End PackerSteps.

Section PackerTheorem.
Context {F : Type} `{PyFloat F} `{PyPack F}.

(** C2.  Whatever the list of mesh groups handed to [append_mesh], in
    order, the buffer is the concatenation, mesh after mesh, of the
    packed positions, normals and indices, with nothing between them;
    every buffer view addresses exactly its section; the byte lengths of
    the views add up to the length of the buffer; no two views share a
    byte; and the element count of every accessor times its element size
    (12 for VEC3 floats, 4 for unsigned scalars) is the byte length of its
    view. *)
Theorem binary_packer_byte_exact (calls : list call) (em : V3.emitter F) :
  emit_calls calls V3.empty_emitter = Ok em ->
  exists per_mesh : list (list (list byte)),
    mapM sections_of (map call_data calls) = Ok per_mesh /\
    let secs := concat per_mesh in
    let buf := V3.all_buffer em in
    let views := V3.em_bufferViews em in
    buf = concat secs /\
    length views = length secs /\
    (forall k v sec,
       nth_error views k = Some v ->
       nth_error secs k = Some sec ->
       view_bytes buf v = sec) /\
    list_sum (map byteLength views) = length buf /\
    (forall i j vi vj,
       i <> j ->
       nth_error views i = Some vi ->
       nth_error views j = Some vj ->
       disjoint_views vi vj) /\
    (forall k a,
       nth_error (V3.em_accessors em) k = Some a ->
       exists v,
         nth_error views (acc_bufferView a) = Some v /\
         acc_count a * element_size a = byteLength v).
Proof.
  intros Hrun.
  destruct (emit_calls_packed calls [] _ _ packed_empty Hrun)
    as (per_mesh & Hsecs & [Hbuf Hviews Hcount Haccs]).
  simpl in Hbuf, Hviews.
  exists per_mesh. split; [ exact Hsecs | ].
  cbv zeta. repeat split.
  - exact Hbuf.
  - rewrite <- (length_map byteLength), (laid_out_lengths _ _ _ Hviews).
    apply length_map.
  - intros k v sec Hv Hsec. rewrite Hbuf.
    exact (laid_out_view_bytes _ _ _ Hviews [] eq_refl k v sec Hv Hsec).
  - rewrite Hbuf. eapply laid_out_total; eassumption.
  - intros i j vi vj Hij Hi Hj. unfold disjoint_views.
    destruct (Nat.lt_total i j) as [Hlt | [Heq | Hgt]].
    + left. eapply laid_out_ordered; eassumption.
    + contradiction.
    + right. eapply laid_out_ordered; eassumption.
  - intros k a Hk. destruct (Haccs k a Hk) as [Hbv (v & Hv & Hsize)].
    exists v. rewrite Hbv. split; assumption.
Qed.

Lemma append_all_as_calls (lod : list (string * V3.group F)) (level : Z)
  (em : V3.emitter F) :
  V3.append_all lod level em = emit_calls (lod_calls lod level) em.
Proof.
  unfold V3.append_all, emit_calls, lod_calls.
  revert em. induction lod as [ | entry lod IH ]; intros em; simpl.
  - reflexivity.
  - destruct (V3.append_mesh _ _ _ _); simpl; [ apply IH | reflexivity ].
Qed.

Lemma generate_as_calls (p : V3.params F) (doc : gltf F) :
  V3.generate p = Ok doc ->
  exists lod0 lod1 em,
    V3.build_structure p (V3.grid_L0 p) = Ok lod0 /\
    V3.build_structure p (V3.grid_L1 p) = Ok lod1 /\
    emit_calls (lod_calls lod0 0 ++ lod_calls lod1 1) V3.empty_emitter = Ok em /\
    doc = V3.document em.
Proof.
  unfold V3.generate. intros Hgen.
  apply bind_ok in Hgen. destruct Hgen as (lod0 & Hlod0 & Hgen).
  apply bind_ok in Hgen. destruct Hgen as (lod1 & Hlod1 & Hgen).
  apply bind_ok in Hgen. destruct Hgen as (em0 & Hem0 & Hgen).
  apply bind_ok in Hgen. destruct Hgen as (em & Hem & Hgen).
  injection Hgen as <-.
  exists lod0, lod1, em. repeat split; try assumption.
  unfold emit_calls. rewrite foldM_app.
  rewrite append_all_as_calls in Hem0, Hem. unfold emit_calls in Hem0, Hem.
  rewrite Hem0. simpl. exact Hem.
Qed.

(** The document the third script writes declares the length of its
    buffer exactly, and its views add up to it. *)
Lemma generate_byte_exact (p : V3.params F) (doc : gltf F) :
  V3.generate p = Ok doc ->
  exists payload,
    buffers doc = [ {| uri := data_uri payload;
                       buf_byteLength := length payload |} ] /\
    list_sum (map byteLength (bufferViews doc)) = length payload /\
    length (accessors doc) = length (bufferViews doc).
Proof.
  intros Hgen.
  destruct (generate_as_calls p doc Hgen) as (lod0 & lod1 & em & _ & _ & Hrun & ->).
  destruct (emit_calls_packed _ [] _ _ packed_empty Hrun)
    as (per_mesh & _ & [Hbuf Hviews Hcount _]).
  exists (V3.all_buffer em). simpl. repeat split.
  - rewrite Hbuf. eapply laid_out_total; eassumption.
  - exact Hcount.
Qed.

(** The first script packs positions and indices, with no normals
    between them. *)
Lemma v1_emit_byte_exact (vs : list (vertex F)) (inds : list Z) (doc : gltf F) :
  V1.emit vs inds = Ok doc ->
  exists v i,
    pack_vec3_list vs = Ok v /\
    pack_index_list inds = Ok i /\
    buffers doc = [ {| uri := data_uri (v ++ i);
                       buf_byteLength := length (v ++ i) |} ] /\
    laid_out (bufferViews doc) [v; i] 0 /\
    Forall2 (fun a view => acc_count a * element_size a = byteLength view)
      (accessors doc) (bufferViews doc).
Proof.
  unfold V1.emit. intros Hemit.
  apply bind_ok in Hemit. destruct Hemit as (v & Hv & Hemit).
  apply bind_ok in Hemit. destruct Hemit as (i & Hi & Hemit).
  apply bind_ok in Hemit. destruct Hemit as (hi & _ & Hemit).
  apply bind_ok in Hemit. destruct Hemit as (lo & _ & Hemit).
  injection Hemit as <-.
  exists v, i. simpl.
  repeat (split; [ assumption | ]).
  split; [ reflexivity | ].
  split.
  - repeat (constructor; try reflexivity).
  - repeat constructor; simpl; symmetry; rewrite Nat.mul_comm.
    + eapply pack_vec3_list_length; eassumption.
    + eapply pack_index_list_length; eassumption.
Qed.

(** The second script packs one mesh the same way: positions, normals,
    indices, with views that add up to the buffer and accessors that fit
    their views. *)
Lemma v2_emit_byte_exact (vs : list (vertex F)) (inds : list Z) (doc : gltf F) :
  V2.emit vs inds = Ok doc ->
  exists normals v n i,
    compute_normals vs inds = Ok normals /\
    pack_vec3_list vs = Ok v /\
    pack_vec3_list normals = Ok n /\
    pack_index_list inds = Ok i /\
    buffers doc = [ {| uri := data_uri (v ++ n ++ i);
                       buf_byteLength := length (v ++ n ++ i) |} ] /\
    laid_out (bufferViews doc) [v; n; i] 0 /\
    Forall2 (fun a view => acc_count a * element_size a = byteLength view)
      (accessors doc) (bufferViews doc).
Proof.
  unfold V2.emit. intros Hemit.
  apply bind_ok in Hemit. destruct Hemit as (normals & Hnormals & Hemit).
  apply bind_ok in Hemit. destruct Hemit as (v & Hv & Hemit).
  apply bind_ok in Hemit. destruct Hemit as (n & Hn & Hemit).
  apply bind_ok in Hemit. destruct Hemit as (i & Hi & Hemit).
  injection Hemit as <-.
  exists normals, v, n, i. simpl.
  repeat (split; [ assumption | ]).
  split; [ reflexivity | ].
  split.
  - repeat (constructor; try reflexivity).
  - repeat constructor; simpl; symmetry; rewrite Nat.mul_comm.
    + eapply pack_vec3_list_length; eassumption.
    + eapply pack_vec3_list_length; eassumption.
    + eapply pack_index_list_length; eassumption.
Qed.

End PackerTheorem.

Lemma binary_packer_byte_exact_witness :
  exists em : V3.emitter float,
    emit_calls [("T"%string, sample_group, 0%Z); ("U"%string, sample_group, 1%Z)]
      V3.empty_emitter = Ok em /\
    length (V3.all_buffer em) = 216 /\
    list_sum (map byteLength (V3.em_bufferViews em)) = length (V3.all_buffer em).
Proof.
  destruct (emit_calls
              [("T"%string, sample_group, 0%Z); ("U"%string, sample_group, 1%Z)]
              V3.empty_emitter) as [em | e] eqn:Hrun;
    [ | vm_compute in Hrun; discriminate ].
  exists em. split; [ reflexivity | ].
  destruct (binary_packer_byte_exact _ em Hrun)
    as (per_mesh & Hsecs & Hbuf & Hlen & Hbytes & Hsum & Hdisj & Haccs).
  split; [ | exact Hsum ].
  vm_compute in Hrun. injection Hrun as <-. reflexivity.
Defined.

(* ================================================================== *)
(** * Normal estimator: the accumulation loop *)
(* ================================================================== *)

Lemma update_nth_length {A : Type} (k : nat) (f : A -> A) (xs : list A) :
  length (update_nth k f xs) = length xs.
Proof.
  revert k. induction xs as [ | x xs IH ]; intros k.
  - destruct k; reflexivity.
  - destruct k; simpl; [ reflexivity | rewrite IH; reflexivity ].
Qed.

Lemma update_nth_lookup {A : Type} (k j : nat) (f : A -> A) (xs : list A) :
  nth_error (update_nth k f xs) j =
  if Nat.eqb k j then option_map f (nth_error xs j) else nth_error xs j.
Proof.
  revert k j. induction xs as [ | x xs IH ]; intros k j.
  - destruct k, j; simpl; try reflexivity; destruct (Nat.eqb k j); reflexivity.
  - destruct k, j; simpl; try reflexivity. apply IH.
Qed.

Lemma py_norm_index_valid (len : nat) (i : Z) :
  (0 <= i < Z.of_nat len)%Z -> py_norm_index len i = Ok (Z.to_nat i).
Proof.
  intros Hi. unfold py_norm_index.
  replace (0 <=? i)%Z with true by (symmetry; apply Z.leb_le; lia).
  replace (i <? Z.of_nat len)%Z with true by (symmetry; apply Z.ltb_lt; lia).
  reflexivity.
Qed.

Lemma py_get_valid {A : Type} (xs : list A) (i : Z) :
  (0 <= i < Z.of_nat (length xs))%Z ->
  exists x, py_get xs i = Ok x /\ nth_error xs (Z.to_nat i) = Some x.
Proof.
  intros Hi. unfold py_get. rewrite py_norm_index_valid by assumption. simpl.
  destruct (nth_error xs (Z.to_nat i)) as [x | ] eqn:Hx.
  - exists x. split; reflexivity.
  - apply nth_error_None in Hx. lia.
Qed.

Section Accumulation.
Context {F : Type} `{PyFloat F}.

Lemma accumulate_at_valid (n : vertex F) (idx : Z) (normals : list (vertex F)) :
  (0 <= idx < Z.of_nat (length normals))%Z ->
  accumulate_at n idx normals = Ok (update_nth (Z.to_nat idx) (add_to n) normals).
Proof.
  intros Hidx. unfold accumulate_at.
  rewrite py_norm_index_valid by assumption. reflexivity.
Qed.

Lemma accumulate_at_length (n : vertex F) (idx : Z)
  (normals normals' : list (vertex F)) :
  accumulate_at n idx normals = Ok normals' -> length normals' = length normals.
Proof.
  unfold accumulate_at. intros Hacc. bind_inv Hacc. injection Hacc as <-.
  apply update_nth_length.
Qed.

(** The accumulation loop neither adds nor drops a slot. *)
Lemma accumulate_length (vertices : list (vertex F)) (n : nat) :
  forall (indices : list Z) (normals acc : list (vertex F)),
    length indices <= n ->
    accumulate vertices indices normals = Ok acc ->
    length acc = length normals.
Proof.
  induction n as [ | n IH ]; intros indices normals acc Hn Hacc.
  - destruct indices; [ | simpl in Hn; lia ].
    injection Hacc as <-. reflexivity.
  - destruct indices as [ | i0 [ | i1 [ | i2 rest ] ] ]; simpl in Hacc;
      try discriminate.
    + injection Hacc as <-. reflexivity.
    + apply bind_ok in Hacc. destruct Hacc as (v0 & _ & Hacc).
      apply bind_ok in Hacc. destruct Hacc as (v1 & _ & Hacc).
      apply bind_ok in Hacc. destruct Hacc as (v2 & _ & Hacc).
      apply bind_ok in Hacc. destruct Hacc as (n0 & Hn0 & Hacc).
      apply bind_ok in Hacc. destruct Hacc as (n1 & Hn1 & Hacc).
      apply bind_ok in Hacc. destruct Hacc as (n2 & Hn2 & Hacc).
      apply IH in Hacc; [ | simpl in Hn; lia ].
      rewrite Hacc.
      rewrite (accumulate_at_length _ _ _ _ Hn2).
      rewrite (accumulate_at_length _ _ _ _ Hn1).
      apply (accumulate_at_length _ _ _ _ Hn0).
Qed.

(** Whenever [compute_normals] returns, it returns one normal per
    vertex. *)
Lemma compute_normals_length (vertices : list (vertex F)) (indices : list Z)
  (out : list (vertex F)) :
  compute_normals vertices indices = Ok out -> length out = length vertices.
Proof.
  unfold compute_normals. intros Hc.
  apply bind_ok in Hc. destruct Hc as (acc & Hacc & Hout).
  rewrite (mapM_length _ _ _ Hout).
  rewrite (accumulate_length _ _ _ _ _ (Nat.le_refl _) Hacc).
  apply length_map.
Qed.

(** On a valid triangle list the accumulation loop raises nothing. *)
Lemma accumulate_total (vertices : list (vertex F)) (n : nat) :
  forall (indices : list Z) (normals : list (vertex F)),
    length indices = 3 * n ->
    Forall (fun idx => (0 <= idx < Z.of_nat (length vertices))%Z) indices ->
    length normals = length vertices ->
    exists acc, accumulate vertices indices normals = Ok acc.
Proof.
  induction n as [ | n IH ]; intros indices normals Hlen Hvalid Hnormals.
  - destruct indices; [ | discriminate ]. eexists; reflexivity.
  - destruct indices as [ | i0 [ | i1 [ | i2 rest ] ] ]; simpl in Hlen; try lia.
    inversion Hvalid as [ | ? ? H0 Hvalid1 ]; subst.
    inversion Hvalid1 as [ | ? ? H1 Hvalid2 ]; subst.
    inversion Hvalid2 as [ | ? ? H2 Hrest ]; subst.
    simpl.
    destruct (py_get_valid vertices i0 H0) as (v0 & -> & _).
    destruct (py_get_valid vertices i1 H1) as (v1 & -> & _).
    destruct (py_get_valid vertices i2 H2) as (v2 & -> & _).
    simpl.
    rewrite accumulate_at_valid by (rewrite Hnormals; assumption). simpl.
    rewrite accumulate_at_valid
      by (rewrite update_nth_length, Hnormals; assumption). simpl.
    rewrite accumulate_at_valid
      by (rewrite !update_nth_length, Hnormals; assumption). simpl.
    apply IH.
    + lia.
    + assumption.
    + rewrite !update_nth_length. assumption.
Qed.

End Accumulation.

Section SlotFacts.
Context {F : Type} `{PyFloat F}.

Lemma accumulate_slots (vertices : list (vertex F)) (n : nat) :
  forall (indices : list Z) (normals acc : list (vertex F)),
    length indices = 3 * n ->
    Forall (fun idx => (0 <= idx < Z.of_nat (length vertices))%Z) indices ->
    length normals = length vertices ->
    accumulate vertices indices normals = Ok acc ->
    forall k a,
      nth_error normals k = Some a ->
      nth_error acc k = Some (slot_sum vertices indices k a).
Proof.
  induction n as [ | n IH ];
    intros indices normals acc Hlen Hvalid Hnormals Hacc k a Hk.
  - destruct indices; [ | discriminate ].
    injection Hacc as <-. exact Hk.
  - destruct indices as [ | i0 [ | i1 [ | i2 rest ] ] ]; simpl in Hlen; try lia.
    inversion Hvalid as [ | ? ? H0 Hvalid1 ]; subst.
    inversion Hvalid1 as [ | ? ? H1 Hvalid2 ]; subst.
    inversion Hvalid2 as [ | ? ? H2 Hrest ]; subst.
    simpl in Hacc |- *.
    destruct (py_get_valid vertices i0 H0) as (v0 & Hv0 & _).
    destruct (py_get_valid vertices i1 H1) as (v1 & Hv1 & _).
    destruct (py_get_valid vertices i2 H2) as (v2 & Hv2 & _).
    rewrite Hv0, Hv1, Hv2 in Hacc |- *. simpl in Hacc.
    rewrite accumulate_at_valid in Hacc by (rewrite Hnormals; assumption).
    simpl in Hacc.
    rewrite accumulate_at_valid in Hacc
      by (rewrite update_nth_length, Hnormals; assumption).
    simpl in Hacc.
    rewrite accumulate_at_valid in Hacc
      by (rewrite !update_nth_length, Hnormals; assumption).
    simpl in Hacc.
    eapply IH; [ | eassumption | | eassumption | ].
    + lia.
    + rewrite !update_nth_length. assumption.
    + rewrite !update_nth_lookup, Hk.
      destruct (Nat.eqb (Z.to_nat i0) k), (Nat.eqb (Z.to_nat i1) k),
        (Nat.eqb (Z.to_nat i2) k); reflexivity.
Qed.

End SlotFacts.

(* ================================================================== *)
(** * Normal estimator in real arithmetic *)
(* ================================================================== *)

Lemma guarded_length_positive (a : vertex R) : (0 < guarded_length a)%R.
Proof.
  destruct a as [[a0 a1] a2]. unfold guarded_length.
  pose proof (sqrt_pos (a0 * a0 + a1 * a1 + a2 * a2)) as Hroot.
  lra.
Qed.

Lemma normal_length_real (a : vertex R) :
  normal_length a = Ok (guarded_length a).
Proof.
  destruct a as [[a0 a1] a2]. unfold normal_length, py_sqrt. simpl.
  destruct (Rlt_dec (a0 * a0 + a1 * a1 + a2 * a2) 0) as [Hneg | _].
  - exfalso. nra.
  - reflexivity.
Qed.

Lemma py_div_real (x l : R) : (0 < l)%R -> py_div x l = Ok (x / l)%R.
Proof.
  intros Hl. unfold py_div. simpl.
  destruct (Req_dec_T l 0) as [Hz | _]; [ lra | reflexivity ].
Qed.

Lemma normalize_real (a : vertex R) :
  exists n, normalize a = Ok n /\ normalized a n.
Proof.
  pose proof (guarded_length_positive a) as Hl.
  pose proof (normal_length_real a) as Hlen.
  destruct a as [[a0 a1] a2].
  unfold normalize. rewrite Hlen. cbn [bind].
  rewrite !py_div_real by assumption. cbn [bind].
  eexists. split; reflexivity.
Qed.

Lemma normalized_zero (n : vertex R) :
  normalized (0, 0, 0)%R n -> n = (0, 0, 0)%R.
Proof.
  unfold normalized. intros ->.
  pose proof (guarded_length_positive (0, 0, 0)%R) as Hl.
  f_equal; [ f_equal | ]; field; lra.
Qed.

(** The estimator with floats idealised as real numbers, where nothing
    rounds or overflows: for every vertex list and every triangle
    index list valid for it, [compute_normals] returns, and returns one
    normal per vertex in the order of the vertices.  The normal of vertex
    [k] is the vector accumulated in slot [k], the sum of the face
    normals of the triangles at that vertex, divided by its Euclidean
    length plus one millionth; that divisor is positive, so no division
    fails, and a slot that holds the zero vector gives the zero
    vector. *)
Theorem normal_estimator_real (vertices : list (vertex R)) (indices : list Z) :
  valid_triangles vertices indices ->
  exists acc out,
    accumulate vertices indices (map (fun _ => (0, 0, 0)%R) vertices) = Ok acc /\
    compute_normals vertices indices = Ok out /\
    length out = length vertices /\
    (forall k,
       k < length vertices ->
       nth_error acc k = Some (slot_sum vertices indices k (0, 0, 0)%R)) /\
    Forall2 (fun a n =>
               (0 < guarded_length a)%R /\
               normal_length a = Ok (guarded_length a) /\
               normalized a n /\
               (a = (0, 0, 0)%R -> n = (0, 0, 0)%R))
            acc out.
Proof.
  intros [[n Hlen] Hvalid].
  assert (Hzeros : length (map (fun _ : vertex R => (0, 0, 0)%R) vertices)
                   = length vertices) by apply length_map.
  destruct (accumulate_total vertices n indices _ Hlen Hvalid Hzeros)
    as [acc Hacc].
  assert (Hout : exists out, mapM normalize acc = Ok out).
  { apply mapM_total. apply Forall_forall. intros a _.
    destruct (normalize_real a) as (m & Hm & _). exists m; exact Hm. }
  destruct Hout as [out Hout].
  assert (Hcompute : compute_normals vertices indices = Ok out).
  { unfold compute_normals. change zero with 0%R. rewrite Hacc. exact Hout. }
  exists acc, out.
  split; [ exact Hacc | ].
  split; [ exact Hcompute | ].
  split; [ eapply compute_normals_length; exact Hcompute | ].
  split.
  - intros k Hk.
    eapply accumulate_slots; try eassumption.
    rewrite nth_error_map.
    destruct (nth_error vertices k) eqn:Hnth; [ reflexivity | ].
    apply nth_error_None in Hnth. lia.
  - apply mapM_ok in Hout.
    eapply Forall2_impl; [ | exact Hout ].
    intros a m Hm. cbv beta in Hm.
    destruct (normalize_real a) as (m' & Hm' & Hnorm).
    rewrite Hm in Hm'. injection Hm' as <-.
    split; [ apply guarded_length_positive | ].
    split; [ apply normal_length_real | ].
    split; [ exact Hnorm | ].
    intros ->. apply normalized_zero. exact Hnorm.
Qed.

Lemma Forall2_lookup {A B : Type} (P : A -> B -> Prop) (xs : list A)
  (ys : list B) (k : nat) (x : A) :
  Forall2 P xs ys ->
  nth_error xs k = Some x ->
  exists y, nth_error ys k = Some y /\ P x y.
Proof.
  intros Hall. revert k.
  induction Hall as [ | x0 y0 xs ys Hxy _ IH ]; intros k Hk.
  - destruct k; discriminate.
  - destruct k as [ | k ]; simpl in Hk.
    + injection Hk as <-. exists y0. split; [ reflexivity | exact Hxy ].
    + apply IH. exact Hk.
Qed.

Lemma normal_estimator_real_witness :
  let vs : list (vertex R) :=
    [ (0, 0, 0); (1, 0, 0); (0, 1, 0); (5, 5, 5) ]%R in
  let inds := [0; 1; 2]%Z in
  valid_triangles vs inds /\
  exists out,
    compute_normals vs inds = Ok out /\
    length out = 4 /\
    nth_error out 3 = Some (0, 0, 0)%R.
Proof.
  intros vs inds.
  assert (Hvalid : valid_triangles vs inds).
  { split; [ exists 1; reflexivity | repeat constructor; simpl; lia ]. }
  split; [ exact Hvalid | ].
  destruct (normal_estimator_real vs inds Hvalid)
    as (acc & out & Hacc & Hout & Hlen & Hslots & Hnorm).
  exists out. split; [ exact Hout | ]. split; [ exact Hlen | ].
  assert (Hslot : nth_error acc 3 = Some (0, 0, 0)%R).
  { rewrite (Hslots 3) by (simpl; lia). reflexivity. }
  destruct (Forall2_lookup _ _ _ _ _ Hnorm Hslot) as (n & Hn & _ & _ & _ & Hzero).
  rewrite Hn, (Hzero eq_refl). reflexivity.
Defined.

(** In binary64 too a slot that holds the zero vector is divided by
    [0 + 1e-6] and gives the zero vector. *)
Example isolated_vertex_binary64 :
  normalize (F:=float) (zero, zero, zero) = Ok (zero, zero, zero).
Proof. vm_compute. reflexivity. Qed.

Example triangle_normals_binary64 :
  exists out,
    compute_normals (fst (fst sample_group)) (snd (fst sample_group)) = Ok out /\
    length out = 4 /\
    nth_error out 3 = Some (zero, zero, zero).
Proof.
  destruct (compute_normals (fst (fst sample_group)) (snd (fst sample_group)))
    as [out | e] eqn:Hout; [ | vm_compute in Hout; discriminate ].
  exists out. split; [ reflexivity | ].
  split; [ exact (compute_normals_length _ _ _ Hout) | ].
  vm_compute in Hout. injection Hout as <-. reflexivity.
Qed.

(* ================================================================== *)
(** * Normal estimator in binary64 *)
(* ================================================================== *)

(** The same loop on the floats Python computes with.  Binary64
    arithmetic is the kernel's, specified by [SpecFloat]; the facts
    below are about signs and about rounding away from zero, and are
    exact. *)

Section Binary64Facts.
Local Open Scope Z_scope.

(** ** Signs *)

Lemma binary_round_aux_sign (sx : bool) (mx ex : Z) (lx : location) :
  has_sign sx (binary_round_aux prec emax sx mx ex lx).
Proof.
  unfold binary_round_aux.
  destruct (shr_fexp prec emax mx ex lx) as [mrs' e'].
  destruct (shr_fexp prec emax _ e' loc_Exact) as [mrs'' e''].
  destruct (shr_m mrs''); [ reflexivity | | exact I ].
  destruct (e'' <=? emax - prec); reflexivity.
Qed.

Lemma binary_round_sign (sx : bool) (mx : positive) (ex : Z) :
  has_sign sx (binary_round prec emax sx mx ex).
Proof.
  unfold binary_round.
  destruct (shl_align mx ex _) as [mz ez].
  apply binary_round_aux_sign.
Qed.

Lemma has_sign_not_negative (x : spec_float) : has_sign false x -> not_negative x.
Proof. destruct x as [s | s | | s m e]; simpl; intros; subst; exact I. Qed.

Lemma SFmul_square_not_negative (x : spec_float) : not_negative (SF64mul x x).
Proof.
  destruct x as [s | s | | s m e]; simpl; try exact I.
  - destruct s; exact I.
  - apply has_sign_not_negative.
    replace (xorb s s) with false by (destruct s; reflexivity).
    apply binary_round_aux_sign.
Qed.

Lemma SFadd_not_negative (x y : spec_float) :
  not_negative x -> not_negative y -> not_negative (SF64add x y).
Proof.
  destruct x as [sx | sx | | sx mx ex], y as [sy | sy | | sy my ey];
    try destruct sx; try destruct sy; simpl; intros Hx Hy;
    try exact I; try contradiction.
  apply has_sign_not_negative. apply binary_round_sign.
Qed.

Lemma SFsqrt_not_negative (x : spec_float) : not_negative (SF64sqrt x).
Proof.
  destruct x as [s | s | | s m e]; simpl; try exact I.
  - destruct s; exact I.
  - destruct s; [ exact I | ].
    destruct (SFsqrt_core_binary prec emax (Z.pos m) e) as [[mz ez] lz].
    apply has_sign_not_negative, binary_round_aux_sign.
Qed.

Lemma not_negative_ltb_zero (x : spec_float) :
  not_negative x -> SFltb x (S754_zero false) = false.
Proof.
  destruct x as [s | s | | s m e]; try destruct s; simpl; intros Hx;
    try reflexivity; contradiction.
Qed.

(** ** Shifts *)

Lemma shr_m_shr_1 (r : shr_record) : shr_m (shr_1 r) = Z.quot2 (shr_m r).
Proof.
  destruct r as [m rb s]. destruct m as [ | [p | p | ] | [p | p | ] ]; reflexivity.
Qed.

Lemma iter_pos_iter {A : Type} (f : A -> A) (k : positive) :
  forall x, SpecFloat.iter_pos f k x = Pos.iter f x k.
Proof.
  induction k as [k IH | k IH | ]; intros x; simpl.
  - rewrite !IH. rewrite <- !Pos.iter_swap. reflexivity.
  - rewrite !IH. reflexivity.
  - reflexivity.
Qed.

Lemma shr_m_iter (k : positive) (r : shr_record) :
  shr_m (SpecFloat.iter_pos shr_1 k r) = Pos.iter Z.quot2 (shr_m r) k.
Proof.
  rewrite iter_pos_iter.
  apply (Pos.iter_swap_gen _ _ shr_m shr_1 Z.quot2). exact shr_m_shr_1.
Qed.

Lemma iter_quot2 (k : positive) (a : Z) :
  0 <= a -> Pos.iter Z.quot2 a k = a / 2 ^ Z.pos k.
Proof.
  intros Ha. induction k as [ | k IH ] using Pos.peano_ind.
  - simpl. rewrite Zquot2_quot. apply Z.quot_div_nonneg; lia.
  - rewrite Pos.iter_succ, IH, Zquot2_quot.
    rewrite Z.quot_div_nonneg; [ | apply Z.div_pos; lia | lia ].
    rewrite Z.div_div by lia.
    rewrite Pos2Z.inj_succ, Z.pow_succ_r by lia.
    f_equal. lia.
Qed.

Lemma digits2_pos_size (p : positive) : digits2_pos p = Pos.size p.
Proof. induction p; simpl; congruence. Qed.

Lemma Zdigits2_log2 (p : positive) : Zdigits2 (Z.pos p) = Z.log2 (Z.pos p) + 1.
Proof.
  simpl. rewrite digits2_pos_size.
  destruct p; simpl; lia.
Qed.

Lemma Zdigits2_pos (a : Z) : 0 < a -> Zdigits2 a = Z.log2 a + 1.
Proof. destruct a; try lia. intros _. apply Zdigits2_log2. Qed.

(** Dropping fewer bits than a positive number has leaves a positive
    number with that many bits fewer. *)
Lemma shift_keeps_positive (a : Z) (k : positive) :
  0 < a -> Z.pos k < Zdigits2 a ->
  0 < a / 2 ^ Z.pos k /\ Zdigits2 (a / 2 ^ Z.pos k) = Zdigits2 a - Z.pos k.
Proof.
  intros Ha Hk. rewrite (Zdigits2_pos a Ha) in Hk |- *.
  assert (Hlog : Z.pos k <= Z.log2 a) by lia.
  assert (Hpow : 2 ^ Z.pos k <= a).
  { destruct (Z.log2_spec a Ha) as [Hlow _].
    eapply Z.le_trans; [ | exact Hlow ].
    apply Z.pow_le_mono_r; lia. }
  assert (Hq : 0 < a / 2 ^ Z.pos k).
  { apply Z.div_str_pos. split; [ apply Z.pow_pos_nonneg; lia | exact Hpow ]. }
  split; [ exact Hq | ].
  rewrite (Zdigits2_pos _ Hq).
  rewrite <- Z.shiftr_div_pow2 by lia.
  rewrite Z.log2_shiftr by exact Ha. lia.
Qed.

(** ** Rounding of a number above the underflow threshold *)

Lemma fexp_below (d : Z) : emin < d -> fexp prec emax d < d.
Proof. unfold fexp, emin, prec, emax. lia. Qed.

Lemma shr_record_of_loc_m (m : Z) (l : location) :
  shr_m (shr_record_of_loc m l) = m.
Proof. destruct l as [ | [ | | ] ]; reflexivity. Qed.

Lemma shr_fexp_positive (m e : Z) (l : location) :
  0 < m ->
  emin < Zdigits2 m + e ->
  let '(mrs, e') := shr_fexp prec emax m e l in
  0 < shr_m mrs /\ Zdigits2 (shr_m mrs) + e' = Zdigits2 m + e.
Proof.
  intros Hm Hd. unfold shr_fexp, shr.
  pose proof (fexp_below _ Hd) as Hfexp.
  destruct (fexp prec emax (Zdigits2 m + e) - e) as [ | k | k ] eqn:Hn.
  - rewrite shr_record_of_loc_m. split; [ exact Hm | reflexivity ].
  - rewrite shr_m_iter, shr_record_of_loc_m, iter_quot2 by lia.
    destruct (shift_keeps_positive m k Hm) as [Hq Hdigits]; [ lia | ].
    split; [ exact Hq | ]. rewrite Hdigits. lia.
  - rewrite shr_record_of_loc_m. split; [ exact Hm | reflexivity ].
Qed.

Lemma round_nearest_even_bounds (m : Z) (l : location) :
  m <= round_nearest_even m l <= m + 1.
Proof.
  unfold round_nearest_even.
  destruct l as [ | [ | | ] ]; try destruct (Z.even m); lia.
Qed.

Lemma Zdigits2_mono (a b : Z) : 0 < a -> a <= b -> Zdigits2 a <= Zdigits2 b.
Proof.
  intros Ha Hab. rewrite !Zdigits2_pos by lia.
  pose proof (Z.log2_le_mono a b Hab). lia.
Qed.

Lemma binary_round_aux_nonzero (sx : bool) (m e : Z) (l : location) :
  0 < m ->
  emin < Zdigits2 m + e ->
  finite_or_infinite sx (binary_round_aux prec emax sx m e l).
Proof.
  intros Hm Hd. unfold binary_round_aux.
  pose proof (shr_fexp_positive m e l Hm Hd) as H1.
  destruct (shr_fexp prec emax m e l) as [mrs' e'].
  destruct H1 as [Hm0 Hd0].
  pose proof (round_nearest_even_bounds (shr_m mrs') (loc_of_shr_record mrs'))
    as Hround.
  set (m1 := round_nearest_even (shr_m mrs') (loc_of_shr_record mrs')) in *.
  assert (Hm1 : 0 < m1) by lia.
  assert (Hd1 : emin < Zdigits2 m1 + e').
  { pose proof (Zdigits2_mono (shr_m mrs') m1 Hm0 (proj1 Hround)). lia. }
  pose proof (shr_fexp_positive m1 e' loc_Exact Hm1 Hd1) as H2.
  destruct (shr_fexp prec emax m1 e' loc_Exact) as [mrs'' e''].
  destruct H2 as [Hm2 _].
  destruct (shr_m mrs'') as [ | p | p ]; try lia.
  destruct (e'' <=? emax - prec); reflexivity.
Qed.

Lemma digits2_pos_iter_xO (m d : positive) :
  Z.pos (digits2_pos (Pos.iter xO m d)) = Z.pos (digits2_pos m) + Z.pos d.
Proof.
  induction d as [ | d IH ] using Pos.peano_ind.
  - simpl. lia.
  - rewrite Pos.iter_succ. simpl digits2_pos. lia.
Qed.

(** Aligning a mantissa to a smaller exponent keeps the position of its
    leading bit. *)
Lemma shl_align_digits (m : positive) (e e' : Z) :
  let '(mz, ez) := shl_align m e e' in
  Z.pos (digits2_pos mz) + ez = Z.pos (digits2_pos m) + e.
Proof.
  unfold shl_align. destruct (e' - e) as [ | d | d ] eqn:Hd.
  - reflexivity.
  - reflexivity.
  - rewrite digits2_pos_iter_xO. lia.
Qed.

Lemma shl_align_exponent (m : positive) (e e' : Z) :
  e' <= e -> snd (shl_align m e e') = e'.
Proof.
  intros He. unfold shl_align. destruct (e' - e) as [ | d | d ] eqn:Hd; simpl; lia.
Qed.

Lemma binary_round_nonzero (sx : bool) (m : positive) (e : Z) :
  emin < Z.pos (digits2_pos m) + e ->
  finite_or_infinite sx (binary_round prec emax sx m e).
Proof.
  intros Hd. unfold binary_round.
  pose proof (shl_align_digits m e (fexp prec emax (Z.pos (digits2_pos m) + e)))
    as Halign.
  destruct (shl_align m e _) as [mz ez].
  apply binary_round_aux_nonzero; [ lia | ].
  change (Zdigits2 (Z.pos mz)) with (Z.pos (digits2_pos mz)). lia.
Qed.

(** The sum of a number that is not negative and of a positive finite
    number is positive: finite or infinite, never a zero and never a
    NaN, unless the first one is a NaN. *)
Lemma SFadd_positive (x : spec_float) (my : positive) (ey : Z) :
  not_negative x ->
  emin <= ey ->
  x = S754_nan /\ SF64add x (S754_finite false my ey) = S754_nan \/
  finite_or_infinite false (SF64add x (S754_finite false my ey)).
Proof.
  intros Hx Hey.
  destruct x as [sx | sx | | sx mx ex].
  - right. reflexivity.
  - right. destruct sx; [ contradiction | reflexivity ].
  - left. split; reflexivity.
  - right. destruct sx; [ contradiction | ].
    unfold SF64add, SFadd, cond_Zopp.
    set (ez := Z.min ex ey).
    pose proof (shl_align_digits my ey ez) as Hb.
    pose proof (shl_align_exponent my ey ez (Z.le_min_r _ _)) as Hbe.
    destruct (shl_align my ey ez) as [b eb]. cbn [fst snd] in Hbe |- *. subst eb.
    destruct (shl_align mx ex ez) as [a ea]. cbn [fst].
    change (Z.pos a + Z.pos b) with (Z.pos (a + b)).
    unfold binary_normalize.
    apply binary_round_nonzero.
    assert (Hmono : Zdigits2 (Z.pos b) <= Zdigits2 (Z.pos (a + b)))
      by (apply Zdigits2_mono; lia).
    change (Zdigits2 (Z.pos b)) with (Z.pos (digits2_pos b)) in Hmono.
    change (Zdigits2 (Z.pos (a + b))) with (Z.pos (digits2_pos (a + b))) in Hmono.
    assert (0 < Z.pos (digits2_pos my)) by lia.
    lia.
Qed.

(** ** The guard of the normal estimator in binary64 *)

Lemma finite_or_infinite_not_zero (x : spec_float) :
  finite_or_infinite false x ->
  SFeqb x (S754_zero false) = false /\ SFltb (S754_zero false) x = true.
Proof.
  destruct x as [s | s | | s m e]; simpl; intros Hx; try contradiction;
    subst; split; reflexivity.
Qed.

Lemma eps_binary64 :
  Prim2SF (eps (F:=float)) = S754_finite false 4722366482869645 (-72).
Proof. vm_compute. reflexivity. Qed.

Lemma zero_binary64 : Prim2SF (zero (F:=float)) = S754_zero false.
Proof. vm_compute. reflexivity. Qed.

(** Whatever [s] is, [math.sqrt(s) + 1e-6] is not zero; it is positive
    unless it is a NaN. *)
Lemma guard_never_zero (s : float) :
  let l := (fsqrt s + eps)%flt in
  f_is_zero l = false /\ (PrimFloat.is_nan l = true \/ fltb zero l = true).
Proof.
  intros l. subst l.
  cbn [fadd fsqrt f_is_zero fltb float_PyFloat].
  unfold PrimFloat.is_zero, PrimFloat.is_nan.
  rewrite !FloatAxioms.eqb_spec, ltb_spec, add_spec, sqrt_spec.
  change (Prim2SF PrimFloat.zero) with (S754_zero false).
  rewrite zero_binary64, eps_binary64.
  destruct (SFadd_positive (SF64sqrt (Prim2SF s)) 4722366482869645 (-72)
              (SFsqrt_not_negative _)) as [[Hnan Hsum] | Hpos].
  - vm_compute. discriminate.
  - rewrite Hsum. split; [ reflexivity | left; reflexivity ].
  - destruct (finite_or_infinite_not_zero _ Hpos) as [Hz Hlt].
    split; [ exact Hz | right; exact Hlt ].
Qed.

(** A sum of three squares is never below zero, so [math.sqrt] never
    raises on it. *)
Lemma sum_of_squares_not_below_zero (x y z : float) :
  fltb (x * x + y * y + z * z)%flt zero = false.
Proof.
  cbn [fadd fmul fltb float_PyFloat].
  rewrite ltb_spec, !add_spec, !mul_spec, zero_binary64.
  apply not_negative_ltb_zero.
  apply SFadd_not_negative; [ apply SFadd_not_negative | ];
    apply SFmul_square_not_negative.
Qed.

(** ** [normalize] and [compute_normals] in binary64 *)

(** [x ** 2] raises [OverflowError] or is the rounded product. *)
Lemma pow2_binary64 (x : float) :
  fpow2 x = if square_overflows x then Raise OverflowError else Ok (x * x)%flt.
Proof. reflexivity. Qed.

(** The square root never raises: its argument is a sum of squares. *)
Lemma normal_length_binary64 (a : vertex float) :
  normal_length a =
  if squares_overflow a then Raise OverflowError else Ok (guarded_length64 a).
Proof.
  destruct a as [[a0 a1] a2].
  unfold normal_length, squares_overflow, guarded_length64.
  rewrite !pow2_binary64.
  destruct (square_overflows a0); [ reflexivity | ].
  destruct (square_overflows a1); [ reflexivity | ].
  destruct (square_overflows a2); [ reflexivity | ].
  cbn [bind orb]. unfold py_sqrt.
  rewrite sum_of_squares_not_below_zero. reflexivity.
Qed.

(** The divisor is never a zero: it is positive, or a NaN when the
    accumulated vector holds one. *)
Lemma guarded_length64_not_zero (a : vertex float) :
  f_is_zero (guarded_length64 a) = false.
Proof.
  destruct a as [[a0 a1] a2]. unfold guarded_length64.
  apply (guard_never_zero (a0 * a0 + a1 * a1 + a2 * a2)%flt).
Qed.

Lemma guarded_length64_positive (a : vertex float) :
  PrimFloat.is_nan (guarded_length64 a) = true \/
  fltb zero (guarded_length64 a) = true.
Proof.
  destruct a as [[a0 a1] a2]. unfold guarded_length64.
  apply (guard_never_zero (a0 * a0 + a1 * a1 + a2 * a2)%flt).
Qed.

(** The body of the second loop raises [OverflowError] or returns the
    quotients; no division raises. *)
Lemma normalize_binary64 (a : vertex float) :
  normalize a =
  if squares_overflow a then Raise OverflowError else Ok (unit_normal64 a).
Proof.
  unfold normalize.
  pose proof (normal_length_binary64 a) as Hl.
  pose proof (guarded_length64_not_zero a) as Hz.
  destruct a as [[a0 a1] a2].
  rewrite Hl.
  destruct (squares_overflow (a0, a1, a2)); [ reflexivity | ].
  cbn [bind]. unfold py_div. rewrite Hz. reflexivity.
Qed.

(** The second loop as a whole. *)
Lemma mapM_normalize_binary64 (acc : list (vertex float)) :
  mapM normalize acc =
  if existsb squares_overflow acc then Raise OverflowError
  else Ok (map unit_normal64 acc).
Proof.
  induction acc as [ | a acc IH ]; [ reflexivity | ].
  cbn [mapM existsb map]. rewrite normalize_binary64.
  destruct (squares_overflow a); [ reflexivity | ].
  cbn [bind orb]. rewrite IH.
  destruct (existsb squares_overflow acc); reflexivity.
Qed.

(** [0.0 / (0.0 + 1e-6)] is [0.0]. *)
Lemma unit_normal64_zero :
  unit_normal64 (zero, zero, zero) = (zero, zero, zero).
Proof. vm_compute. reflexivity. Qed.

End Binary64Facts.

(** ** Squaring through the C library *)

Section LibmFacts.
Variable c_pow2 : float -> float.

(** [x ** 2] raises [OverflowError] or is [pow2_value]. *)
Lemma float_pow2_cases (x : float) :
  Libm.float_pow2 c_pow2 x =
  if pow2_overflows c_pow2 x then Raise OverflowError
  else Ok (pow2_value c_pow2 x).
Proof.
  unfold Libm.float_pow2, pow2_overflows, pow2_by_library, pow2_value.
  fold (pow2_base x).
  destruct (PrimFloat.is_nan x); [ reflexivity | ].
  destruct (PrimFloat.is_infinity x); [ reflexivity | ].
  destruct (PrimFloat.eqb x PrimFloat.zero); [ reflexivity | ].
  destruct (PrimFloat.eqb (pow2_base x) Libm.one); [ reflexivity | ].
  cbn [negb andb].
  destruct (PrimFloat.is_infinity (c_pow2 (pow2_base x))); reflexivity.
Qed.

(** A float is not below zero exactly when it is a NaN, a zero, a
    positive number or plus infinity. *)
Lemma ltb_zero_not_negative (x : float) :
  PrimFloat.ltb x PrimFloat.zero = false <-> not_negative (Prim2SF x).
Proof.
  rewrite ltb_spec. change (Prim2SF PrimFloat.zero) with (S754_zero false).
  destruct (Prim2SF x) as [s | s | | s m e]; try destruct s; simpl;
    split; intros Hx; try reflexivity; try exact I;
    try discriminate; try contradiction.
Qed.

Lemma SFeqb_refl_finite (s : bool) (m : positive) (e : Z) :
  SFeqb (S754_finite s m e) (S754_finite s m e) = true.
Proof.
  unfold SFeqb, SFcompare.
  destruct s; rewrite Z.compare_refl; try rewrite Pos.compare_cont_refl;
    rewrite ?Pos.compare_refl; simpl; rewrite ?Pos.compare_refl; reflexivity.
Qed.

Lemma is_nan_spec (x : float) :
  PrimFloat.is_nan x = true <-> Prim2SF x = S754_nan.
Proof.
  unfold PrimFloat.is_nan. rewrite FloatAxioms.eqb_spec.
  destruct (Prim2SF x) as [s | s | | s m e].
  - destruct s; simpl; split; discriminate.
  - destruct s; simpl; split; discriminate.
  - simpl. split; reflexivity.
  - rewrite SFeqb_refl_finite. simpl. split; discriminate.
Qed.

(** The base handed to the library is greater than zero. *)
Lemma pow2_base_positive (x : float) :
  PrimFloat.is_nan x = false ->
  PrimFloat.eqb x PrimFloat.zero = false ->
  PrimFloat.ltb PrimFloat.zero (pow2_base x) = true.
Proof.
  intros Hnan Hzero. unfold pow2_base.
  assert (Hn : Prim2SF x <> S754_nan).
  { intros Hx. apply is_nan_spec in Hx. congruence. }
  rewrite FloatAxioms.eqb_spec in Hzero.
  change (Prim2SF PrimFloat.zero) with (S754_zero false) in Hzero.
  destruct (PrimFloat.ltb x PrimFloat.zero) eqn:Hlt;
    rewrite ltb_spec in Hlt |- *; rewrite ?opp_spec;
    change (Prim2SF PrimFloat.zero) with (S754_zero false) in *;
    destruct (Prim2SF x) as [s | s | | s m e]; try destruct s;
    simpl in *; try reflexivity; try discriminate; congruence.
Qed.

Section Sign.
Hypothesis pow_not_below_zero :
  forall v, PrimFloat.ltb PrimFloat.zero v = true ->
            PrimFloat.ltb (c_pow2 v) PrimFloat.zero = false.

Lemma pow2_value_not_negative (x : float) :
  not_negative (Prim2SF (pow2_value c_pow2 x)).
Proof.
  unfold pow2_value.
  destruct (PrimFloat.is_nan x) eqn:Hnan.
  { apply is_nan_spec in Hnan. rewrite Hnan. exact I. }
  destruct (PrimFloat.is_infinity x) eqn:Hinf.
  { rewrite abs_spec.
    destruct (Prim2SF x) as [s | s | | s m e]; exact I. }
  destruct (PrimFloat.eqb x PrimFloat.zero) eqn:Hzero; [ exact I | ].
  destruct (PrimFloat.eqb (pow2_base x) Libm.one); [ vm_compute; exact I | ].
  apply ltb_zero_not_negative, pow_not_below_zero.
  apply pow2_base_positive; assumption.
Qed.

(** A sum of three squares is never below zero, so [math.sqrt] never
    raises on it. *)
Lemma sum_of_pow2_not_below_zero (x y z : float) :
  PrimFloat.ltb
    (pow2_value c_pow2 x + pow2_value c_pow2 y + pow2_value c_pow2 z)%float
    (zero (F:=float)) = false.
Proof.
  rewrite ltb_spec, !add_spec, zero_binary64.
  apply not_negative_ltb_zero.
  apply SFadd_not_negative; [ apply SFadd_not_negative | ];
    apply pow2_value_not_negative.
Qed.

(** The square root never raises: its argument is a sum of squares. *)
Lemma normal_length_libm (a : vertex float) :
  normal_length (H:=libm_PyFloat c_pow2) a =
  if squares_raise c_pow2 a then Raise OverflowError
  else Ok (guarded_length_libm c_pow2 a).
Proof.
  destruct a as [[a0 a1] a2].
  unfold normal_length, squares_raise, guarded_length_libm.
  cbn [fpow2 libm_PyFloat]. rewrite !float_pow2_cases.
  destruct (pow2_overflows c_pow2 a0); [ reflexivity | ].
  destruct (pow2_overflows c_pow2 a1); [ reflexivity | ].
  destruct (pow2_overflows c_pow2 a2); [ reflexivity | ].
  cbn [bind orb]. unfold py_sqrt.
  cbn [fltb fadd libm_PyFloat].
  change (@zero float (libm_PyFloat c_pow2)) with (zero (F:=float)).
  rewrite sum_of_pow2_not_below_zero. reflexivity.
Qed.

(** The divisor is never a zero: it is positive, or a NaN when the
    accumulated vector holds one. *)
Lemma guarded_length_libm_not_zero (a : vertex float) :
  PrimFloat.is_zero (guarded_length_libm c_pow2 a) = false /\
  (PrimFloat.is_nan (guarded_length_libm c_pow2 a) = true \/
   PrimFloat.ltb (zero (F:=float)) (guarded_length_libm c_pow2 a) = true).
Proof.
  destruct a as [[a0 a1] a2]. unfold guarded_length_libm.
  apply (guard_never_zero
           (pow2_value c_pow2 a0 + pow2_value c_pow2 a1 + pow2_value c_pow2 a2)).
Qed.

(** The body of the second loop raises [OverflowError] or returns the
    quotients; no division raises. *)
Lemma normalize_libm (a : vertex float) :
  normalize (H:=libm_PyFloat c_pow2) a =
  if squares_raise c_pow2 a then Raise OverflowError
  else Ok (unit_normal_libm c_pow2 a).
Proof.
  unfold normalize.
  pose proof (normal_length_libm a) as Hl.
  destruct (guarded_length_libm_not_zero a) as [Hz _].
  destruct a as [[a0 a1] a2].
  rewrite Hl.
  destruct (squares_raise c_pow2 (a0, a1, a2)); [ reflexivity | ].
  cbn [bind]. unfold py_div. cbn [f_is_zero fdiv libm_PyFloat].
  rewrite Hz. reflexivity.
Qed.

(** The second loop as a whole. *)
Lemma mapM_normalize_libm (acc : list (vertex float)) :
  mapM (normalize (H:=libm_PyFloat c_pow2)) acc =
  if existsb (squares_raise c_pow2) acc then Raise OverflowError
  else Ok (map (unit_normal_libm c_pow2) acc).
Proof.
  induction acc as [ | a acc IH ]; [ reflexivity | ].
  cbn [mapM existsb map]. rewrite normalize_libm.
  destruct (squares_raise c_pow2 a); [ reflexivity | ].
  cbn [bind orb]. rewrite IH.
  destruct (existsb (squares_raise c_pow2) acc); reflexivity.
Qed.

End Sign.

(** [0 ** 2] is settled before the library is asked, and
    [0.0 / (0.0 + 1e-6)] is [0.0]. *)
Lemma unit_normal_libm_zero :
  unit_normal_libm c_pow2 (zero, zero, zero) = (zero, zero, zero).
Proof. vm_compute. reflexivity. Qed.

End LibmFacts.

(** C6, as the code has it.  In binary64, whatever the C library's
    [pow] returns for a square as long as it is not below zero: for
    every vertex list and every triangle index list valid for it, the
    accumulation loop returns, and slot [k] holds the sum of the face
    normals of the triangles at vertex [k].  The second loop then either
    raises [OverflowError], exactly when [** 2] overflows on a component
    of some accumulated vector, or returns one normal per vertex in the
    order of the vertices; nothing else is raised.  Each returned normal
    is the accumulated vector divided by its Euclidean length plus
    [1e-6]; that divisor is never zero (it is positive, or a NaN), so no
    division fails, and a slot that holds the zero vector gives the zero
    vector. *)
Theorem normal_estimator_binary64 (c_pow2 : float -> float)
  (vertices : list (vertex float)) (indices : list Z) :
  (forall v, PrimFloat.ltb PrimFloat.zero v = true ->
             PrimFloat.ltb (c_pow2 v) PrimFloat.zero = false) ->
  valid_triangles vertices indices ->
  exists acc,
    accumulate (H:=libm_PyFloat c_pow2) vertices indices
      (map (fun _ => (zero, zero, zero)) vertices) = Ok acc /\
    (forall k,
       (k < length vertices)%nat ->
       nth_error acc k
         = Some (slot_sum vertices indices k (zero, zero, zero))) /\
    (existsb (squares_raise c_pow2) acc = true /\
     compute_normals (H:=libm_PyFloat c_pow2) vertices indices
       = Raise OverflowError
     \/
     existsb (squares_raise c_pow2) acc = false /\
     exists out,
       compute_normals (H:=libm_PyFloat c_pow2) vertices indices = Ok out /\
       length out = length vertices /\
       Forall2 (fun a n =>
                  let l := guarded_length_libm c_pow2 a in
                  PrimFloat.is_zero l = false /\
                  (PrimFloat.is_nan l = true \/
                   PrimFloat.ltb PrimFloat.zero l = true) /\
                  normal_length (H:=libm_PyFloat c_pow2) a = Ok l /\
                  n = unit_normal_libm c_pow2 a /\
                  (a = (zero, zero, zero) -> n = (zero, zero, zero)))
               acc out).
Proof.
  intros Hpow [[n Hlen] Hvalid].
  set (zeros := map (fun _ : vertex float =>
                       (zero (F:=float), zero (F:=float), zero (F:=float)))
                  vertices).
  assert (Hzeros : length zeros = length vertices) by apply length_map.
  destruct (accumulate_total (H:=libm_PyFloat c_pow2) vertices n indices zeros
              Hlen Hvalid Hzeros) as [acc Hacc].
  exists acc. split; [ exact Hacc | ]. split.
  - intros k Hk.
    apply (accumulate_slots (H:=libm_PyFloat c_pow2) vertices n indices zeros acc
             Hlen Hvalid Hzeros Hacc).
    unfold zeros. rewrite nth_error_map.
    destruct (nth_error vertices k) eqn:Hv; [ reflexivity | ].
    apply nth_error_None in Hv. lia.
  - assert (Hc : compute_normals (H:=libm_PyFloat c_pow2) vertices indices
                 = mapM (normalize (H:=libm_PyFloat c_pow2)) acc).
    { unfold compute_normals. fold zeros. change (@zero float (libm_PyFloat c_pow2)) with (zero (F:=float)). fold zeros. rewrite Hacc. reflexivity. }
    rewrite Hc, (mapM_normalize_libm c_pow2 Hpow).
    destruct (existsb (squares_raise c_pow2) acc) eqn:Hover.
    + left. split; reflexivity.
    + right. split; [ reflexivity | ].
      exists (map (unit_normal_libm c_pow2) acc).
      split; [ reflexivity | ]. split.
      * rewrite length_map.
        rewrite (accumulate_length (H:=libm_PyFloat c_pow2) vertices _ indices
                   zeros acc (Nat.le_refl _) Hacc).
        exact Hzeros.
      * clear Hc Hacc. induction acc as [ | a acc IH ]; [ constructor | ].
        cbn [existsb] in Hover. apply orb_false_iff in Hover.
        destruct Hover as [Ha Hrest].
        cbn [map]. constructor; [ | apply IH; exact Hrest ].
        cbv zeta.
        destruct (guarded_length_libm_not_zero c_pow2 a) as [Hz Hp].
        split; [ exact Hz | ].
        split; [ exact Hp | ].
        split; [ rewrite (normal_length_libm c_pow2 Hpow), Ha; reflexivity | ].
        split; [ reflexivity | ].
        intros ->. apply unit_normal_libm_zero.
Qed.

(** ** A correctly rounded library *)

Lemma is_infinity_spec (x : float) :
  PrimFloat.is_infinity x =
  match Prim2SF x with S754_infinity _ => true | _ => false end.
Proof.
  unfold PrimFloat.is_infinity. rewrite FloatAxioms.eqb_spec, abs_spec.
  change (Prim2SF infinity) with (S754_infinity false).
  destruct (Prim2SF x) as [s | s | | s m e]; reflexivity.
Qed.

Lemma eqb_zero_spec (x : float) :
  PrimFloat.eqb x PrimFloat.zero =
  match Prim2SF x with S754_zero _ => true | _ => false end.
Proof.
  rewrite FloatAxioms.eqb_spec.
  change (Prim2SF PrimFloat.zero) with (S754_zero false).
  destruct (Prim2SF x) as [s | s | | s m e]; try destruct s; reflexivity.
Qed.

Lemma pow2_base_spec (x : float) :
  Prim2SF (pow2_base x) =
  match Prim2SF x with
  | S754_finite _ m e => S754_finite false m e
  | S754_infinity _ => S754_infinity false
  | y => y
  end.
Proof.
  unfold pow2_base.
  destruct (PrimFloat.ltb x PrimFloat.zero) eqn:Hlt;
    rewrite ltb_spec in Hlt; rewrite ?opp_spec;
    change (Prim2SF PrimFloat.zero) with (S754_zero false) in Hlt;
    destruct (Prim2SF x) as [s | s | | s m e]; try destruct s;
    simpl in *; try reflexivity; discriminate.
Qed.

Lemma SFeqb_finite (m1 m2 : positive) (e1 e2 : Z) :
  SFeqb (S754_finite false m1 e1) (S754_finite false m2 e2) = true ->
  m1 = m2 /\ e1 = e2.
Proof.
  unfold SFeqb, SFcompare.
  destruct (Z.compare e1 e2) eqn:He; try discriminate.
  apply Z.compare_eq in He.
  destruct (Pos.compare_cont Eq m1 m2) eqn:Hm; try discriminate.
  intros _. apply Pos.compare_eq in Hm. split; assumption.
Qed.

(** With a library whose [pow(v, 2.0)] is the correctly rounded product,
    [x ** 2] is the [pow2] of the instance [float_PyFloat]. *)
Lemma float_pow2_rounded_product (x : float) :
  Libm.float_pow2 (fun v => v * v)%float x = Binary64.pow2 x.
Proof.
  unfold Libm.float_pow2, Binary64.pow2, Binary64.is_finite.
  fold (pow2_base x).
  assert (Hsq : Prim2SF (pow2_base x * pow2_base x)%float = Prim2SF (x * x)%float).
  { rewrite !mul_spec, pow2_base_spec.
    destruct (Prim2SF x) as [s | s | | s m e]; try destruct s; reflexivity. }
  apply Prim2SF_inj in Hsq.
  destruct (PrimFloat.is_nan x) eqn:Hnan.
  { apply is_nan_spec in Hnan. cbn [negb andb]. f_equal.
    apply Prim2SF_inj. rewrite mul_spec, Hnan. reflexivity. }
  rewrite (is_infinity_spec x), eqb_zero_spec.
  destruct (Prim2SF x) as [s | s | | s m e] eqn:Hx.
  - cbn [negb andb]. rewrite is_infinity_spec, mul_spec, Hx.
    destruct s; cbn; f_equal; apply Prim2SF_inj; rewrite mul_spec, Hx;
      reflexivity.
  - cbn [negb andb]. f_equal. apply Prim2SF_inj.
    rewrite abs_spec, mul_spec, Hx. destruct s; reflexivity.
  - apply is_nan_spec in Hx. congruence.
  - cbn [negb andb]. rewrite Hsq.
    destruct (PrimFloat.eqb (pow2_base x) Libm.one) eqn:Hone; [ | reflexivity ].
    rewrite FloatAxioms.eqb_spec, pow2_base_spec, Hx in Hone.
    change (Prim2SF Libm.one)
      with (S754_finite false 4503599627370496 (-52)) in Hone.
    apply SFeqb_finite in Hone. destruct Hone as [-> ->].
    assert (Hprod : (x * x)%float = Libm.one).
    { apply Prim2SF_inj. rewrite mul_spec, Hx. destruct s; vm_compute; reflexivity. }
    rewrite Hprod. reflexivity.
Qed.

(** The rounded product of a number with itself is not below zero. *)
Lemma rounded_product_not_below_zero (v : float) :
  PrimFloat.ltb (v * v)%float PrimFloat.zero = false.
Proof.
  apply ltb_zero_not_negative. rewrite mul_spec.
  apply SFmul_square_not_negative.
Qed.

Lemma normal_estimator_binary64_witness :
  let c_pow2 := fun v : float => (v * v)%float in
  let vs : list (vertex float) :=
    [ (zero, zero, zero); (f_of_Z 1, zero, zero); (zero, f_of_Z 1, zero);
      (f_of_Z 5, f_of_Z 5, f_of_Z 5) ] in
  let inds := [0; 1; 2]%Z in
  (forall v, PrimFloat.ltb PrimFloat.zero v = true ->
             PrimFloat.ltb (c_pow2 v) PrimFloat.zero = false) /\
  valid_triangles vs inds /\
  exists out,
    compute_normals (H:=libm_PyFloat c_pow2) vs inds = Ok out /\
    length out = 4%nat /\
    nth_error out 3 = Some (zero, zero, zero).
Proof.
  intros c_pow2 vs inds.
  assert (Hpow : forall v, PrimFloat.ltb PrimFloat.zero v = true ->
                           PrimFloat.ltb (c_pow2 v) PrimFloat.zero = false).
  { intros v _. apply rounded_product_not_below_zero. }
  assert (Hvalid : valid_triangles vs inds).
  { split; [ exists 1%nat; reflexivity | repeat constructor; simpl; lia ]. }
  split; [ exact Hpow | ]. split; [ exact Hvalid | ].
  destruct (normal_estimator_binary64 c_pow2 vs inds Hpow Hvalid)
    as (acc & Hacc & Hslots & [[Hover Hraise] | [Hover Hout]]).
  - exfalso. vm_compute in Hacc. injection Hacc as <-.
    vm_compute in Hover. discriminate.
  - destruct Hout as (out & Hout & Hlen & Hnorm).
    exists out. split; [ exact Hout | ]. split; [ exact Hlen | ].
    assert (Hslot : nth_error acc 3 = Some (zero, zero, zero)).
    { rewrite (Hslots 3%nat) by (simpl; lia). vm_compute. reflexivity. }
    destruct (Forall2_lookup _ _ _ _ _ Hnorm Hslot)
      as (m & Hm & _ & _ & _ & _ & Hzero).
    rewrite Hm, (Hzero eq_refl). reflexivity.
Defined.

(** C6, counterexample.  On the triangle (0,0,0), (1e100,0,0),
    (0,1e100,0) every slot accumulates (0, 0, 1e200), and [n[2]**2]
    raises [OverflowError]: [compute_normals] returns no normals for
    this valid input. *)
Lemma squaring_overflow_raises :
  let big : float := f_of_Z (10 ^ 100) in
  let vs := [ (zero, zero, zero); (big, zero, zero); (zero, big, zero) ] in
  let inds := [0; 1; 2]%Z in
  valid_triangles vs inds /\
  compute_normals vs inds = Raise OverflowError /\
  ~ (exists out, compute_normals vs inds = Ok out /\ length out = length vs).
Proof.
  intros big vs inds.
  assert (Hraise : compute_normals vs inds = Raise OverflowError)
    by (vm_compute; reflexivity).
  split; [ | split ].
  - split; [ exists 1%nat; reflexivity | repeat constructor; simpl; lia ].
  - exact Hraise.
  - intros (out & Hout & _). rewrite Hraise in Hout. discriminate.
Qed.

(* ================================================================== *)
(** * Box primitive builder on [int] and [float] arguments *)
(* ================================================================== *)

Section Conversions.
Local Open Scope Z_scope.

Lemma shr_fexp_exponent (m e : Z) (l : location) :
  snd (shr_fexp prec emax m e l) = Z.max e (fexp prec emax (Zdigits2 m + e)).
Proof.
  unfold shr_fexp, shr.
  destruct (fexp prec emax (Zdigits2 m + e) - e) as [ | k | k ] eqn:Hn;
    simpl; lia.
Qed.

Lemma Zdigits2_succ (a : Z) : 0 < a -> Zdigits2 (a + 1) <= Zdigits2 a + 1.
Proof.
  intros Ha. rewrite !Zdigits2_pos by lia.
  pose proof (Z.log2_succ_le a). unfold Z.succ in *. lia.
Qed.

(** Rounding a mantissa that is aligned and stands for a number below
    [2^1023] does not overflow. *)
Lemma binary_round_aux_finite (sx : bool) (m e : Z) (l : location) :
  0 < m ->
  emin < Zdigits2 m + e ->
  Zdigits2 m + e <= 1023 ->
  e <= fexp prec emax (Zdigits2 m + e) ->
  exists m' e', binary_round_aux prec emax sx m e l = S754_finite sx m' e'.
Proof.
  intros Hm Hd Hmax Halign. unfold binary_round_aux.
  pose proof (shr_fexp_positive m e l Hm Hd) as H1.
  pose proof (shr_fexp_exponent m e l) as He1.
  destruct (shr_fexp prec emax m e l) as [mrs' e1].
  destruct H1 as [Hm0 Hd0]. cbn [snd] in He1.
  pose proof (round_nearest_even_bounds (shr_m mrs') (loc_of_shr_record mrs'))
    as Hround.

  set (m1 := round_nearest_even (shr_m mrs') (loc_of_shr_record mrs')) in *.
  assert (Hm1 : 0 < m1) by lia.
  assert (Hlow : Zdigits2 (shr_m mrs') <= Zdigits2 m1)
    by (apply Zdigits2_mono; lia).
  assert (Hhigh : Zdigits2 m1 <= Zdigits2 (shr_m mrs') + 1).
  { eapply Z.le_trans; [ | apply (Zdigits2_succ _ Hm0) ].
    apply Zdigits2_mono; lia. }
  assert (Hd1 : emin < Zdigits2 m1 + e1) by lia.
  pose proof (shr_fexp_positive m1 e1 loc_Exact Hm1 Hd1) as H2.
  pose proof (shr_fexp_exponent m1 e1 loc_Exact) as He2.
  destruct (shr_fexp prec emax m1 e1 loc_Exact) as [mrs'' e2].
  destruct H2 as [Hm2 _]. cbn [snd] in He2.
  destruct (shr_m mrs'') as [ | p | p ]; try lia.
  assert (Hfit : e2 <= emax - prec).
  { rewrite He2, He1. unfold fexp, emin, emax, prec in *. lia. }
  apply Z.leb_le in Hfit. rewrite Hfit. eexists. eexists. reflexivity.
Qed.

Lemma binary_round_finite (sx : bool) (m : positive) (e : Z) :
  emin < Z.pos (digits2_pos m) + e ->
  Z.pos (digits2_pos m) + e <= 1023 ->
  exists m' e', binary_round prec emax sx m e = S754_finite sx m' e'.
Proof.
  intros Hd Hmax. unfold binary_round.
  pose proof (shl_align_digits m e (fexp prec emax (Z.pos (digits2_pos m) + e)))
    as Halign.
  assert (Hexp : snd (shl_align m e (fexp prec emax (Z.pos (digits2_pos m) + e)))
                 <= fexp prec emax (Z.pos (digits2_pos m) + e)).
  { unfold shl_align.
    destruct (fexp prec emax (Z.pos (digits2_pos m) + e) - e) as [ | d | d ] eqn:Hn;
      cbn [snd]; lia. }
  destruct (shl_align m e _) as [mz ez]. cbn [snd] in Hexp.
  apply binary_round_aux_finite.
  - lia.
  - change (Zdigits2 (Z.pos mz)) with (Z.pos (digits2_pos mz)). lia.
  - change (Zdigits2 (Z.pos mz)) with (Z.pos (digits2_pos mz)). lia.
  - change (Zdigits2 (Z.pos mz)) with (Z.pos (digits2_pos mz)).
    rewrite Halign. exact Hexp.
Qed.

Lemma digits_below (m : positive) (k : Z) :
  0 <= k -> Z.pos m < 2 ^ k -> Z.pos (digits2_pos m) <= k.
Proof.
  intros Hk Hm.
  change (Z.pos (digits2_pos m)) with (Zdigits2 (Z.pos m)).
  rewrite Zdigits2_pos by lia.
  assert (Z.log2 (Z.pos m) < k) by (apply Z.log2_lt_pow2; lia). lia.
Qed.

(** An [int] below [2^1023] in magnitude, scaled by [2^e] for [e] of
    zero or minus one, rounds to a float. *)
Lemma binary_normalize_in_range (n e : Z) :
  Z.abs n < 2 ^ 1023 -> -1 <= e <= 0 ->
  match binary_normalize prec emax n e false with
  | S754_infinity _ => False
  | _ => True
  end.
Proof.
  intros Hn He. unfold binary_normalize.
  destruct n as [ | m | m ]; [ exact I | | ].
  - destruct (binary_round_finite false m e) as (m' & e' & ->); [ | | exact I ].
    + pose proof (Pos2Z.is_pos (digits2_pos m)). unfold emin, emax, prec. lia.
    + pose proof (digits_below m 1023). lia.
  - destruct (binary_round_finite true m e) as (m' & e' & ->); [ | | exact I ].
    + pose proof (Pos2Z.is_pos (digits2_pos m)). unfold emin, emax, prec. lia.
    + pose proof (digits_below m 1023). change (Z.abs (Z.neg m)) with (Z.pos m) in Hn. lia.
Qed.

End Conversions.

Lemma half_in_range (a : PyNumber.number) :
  in_float_range a -> exists x, PyNumber.half a = Ok x.
Proof.
  destruct a as [n | x]; intros Ha; [ | eexists; reflexivity ].
  pose proof (binary_normalize_in_range n (-1) Ha ltac:(lia)) as Hn.
  unfold PyNumber.half.
  destruct (binary_normalize prec emax n (-1) false); try contradiction;
    eexists; reflexivity.
Qed.

Lemma as_float_in_range (a : PyNumber.number) :
  in_float_range a -> exists x, PyNumber.as_float a = Ok x.
Proof.
  destruct a as [n | x]; intros Ha; [ | eexists; reflexivity ].
  pose proof (binary_normalize_in_range n 0 Ha ltac:(lia)) as Hn.
  unfold PyNumber.as_float, PyNumber.float_of_int.
  destruct (binary_normalize prec emax n 0 false); try contradiction;
    eexists; reflexivity.
Qed.

(** The conversions raise [OverflowError] and nothing else. *)
Lemma half_raises (a : PyNumber.number) (e : exn) :
  PyNumber.half a = Raise e -> e = OverflowError.
Proof.
  destruct a as [n | x]; simpl; [ | discriminate ].
  destruct (binary_normalize prec emax n (-1) false); try discriminate.
  intros Hr. injection Hr as <-. reflexivity.
Qed.

Lemma as_float_raises (a : PyNumber.number) (e : exn) :
  PyNumber.as_float a = Raise e -> e = OverflowError.
Proof.
  destruct a as [n | x]; simpl; [ | discriminate ].
  unfold PyNumber.float_of_int.
  destruct (binary_normalize prec emax n 0 false); try discriminate.
  intros Hr. injection Hr as <-. reflexivity.
Qed.

(** [create_box] converts its arguments and does nothing else that
    could raise: once the six conversions are through, it returns the
    box of the float arguments. *)
Lemma create_box_conversions (w h d tx ty tz : PyNumber.number) :
  PyNumber.create_box w h d tx ty tz =
  (hw <- PyNumber.half w ;;
   hh <- PyNumber.half h ;;
   hd <- PyNumber.half d ;;
   x <- PyNumber.as_float tx ;;
   y <- PyNumber.as_float ty ;;
   z <- PyNumber.as_float tz ;;
   Ok (map (fun '(vx, vy, vz) => (vx + x, vy + y, vz + z)%float)
         [ (- hw, - hh, hd); (hw, - hh, hd); (hw, hh, hd); (- hw, hh, hd);
           (- hw, - hh, - hd); (hw, - hh, - hd); (hw, hh, - hd);
           (- hw, hh, - hd) ]%float,
       box_indices))%py.
Proof.
  unfold PyNumber.create_box, PyNumber.add.
  destruct (PyNumber.half w) as [hw | e]; [ | reflexivity ].
  destruct (PyNumber.half h) as [hh | e]; [ | reflexivity ].
  destruct (PyNumber.half d) as [hd | e]; [ | reflexivity ].
  cbn [bind mapM].
  destruct (PyNumber.as_float tx) as [x | e]; [ | reflexivity ].
  cbn [bind].
  destruct (PyNumber.as_float ty) as [y | e]; [ | reflexivity ].
  cbn [bind].
  destruct (PyNumber.as_float tz) as [z | e]; reflexivity.
Qed.

(** C10, as the code has it.  [create_box] validates nothing and
    raises no error of its own.  On float arguments, whatever they are
    (zero, negative, infinite, NaN), it returns, and returns the box of
    the float model: eight vertices and the 36 indices.  On arguments
    that are floats or [int]s below [2^1023] in magnitude it returns
    eight vertices and the 36 indices as well.  On any arguments it
    either returns such a box or raises [OverflowError], which comes
    from converting an [int] too large for a float. *)
Theorem create_box_unvalidated :
  (forall w h d tx ty tz : float,
     PyNumber.create_box (PyNumber.Flt w) (PyNumber.Flt h) (PyNumber.Flt d)
       (PyNumber.Flt tx) (PyNumber.Flt ty) (PyNumber.Flt tz)
     = Ok (create_box w h d tx ty tz)) /\
  (forall w h d tx ty tz : PyNumber.number,
     in_float_range w -> in_float_range h -> in_float_range d ->
     in_float_range tx -> in_float_range ty -> in_float_range tz ->
     exists verts,
       PyNumber.create_box w h d tx ty tz = Ok (verts, box_indices) /\
       length verts = 8) /\
  (forall w h d tx ty tz : PyNumber.number,
     (exists verts,
        PyNumber.create_box w h d tx ty tz = Ok (verts, box_indices) /\
        length verts = 8)
     \/ PyNumber.create_box w h d tx ty tz = Raise OverflowError) /\
  length box_indices = 36.
Proof.
  split; [ | split; [ | split ] ].
  - intros w h d tx ty tz. rewrite create_box_conversions. reflexivity.
  - intros w h d tx ty tz Hw Hh Hd Hx Hy Hz.
    rewrite create_box_conversions.
    destruct (half_in_range w Hw) as [hw ->].
    destruct (half_in_range h Hh) as [hh ->].
    destruct (half_in_range d Hd) as [hd ->].
    destruct (as_float_in_range tx Hx) as [x ->].
    destruct (as_float_in_range ty Hy) as [y ->].
    destruct (as_float_in_range tz Hz) as [z ->].
    cbn [bind]. eexists. split; reflexivity.
  - intros w h d tx ty tz. rewrite create_box_conversions.
    destruct (PyNumber.half w) as [hw | e] eqn:Hw;
      [ | right; rewrite (half_raises w e Hw); reflexivity ].
    destruct (PyNumber.half h) as [hh | e] eqn:Hh;
      [ | right; rewrite (half_raises h e Hh); reflexivity ].
    destruct (PyNumber.half d) as [hd | e] eqn:Hd;
      [ | right; rewrite (half_raises d e Hd); reflexivity ].
    destruct (PyNumber.as_float tx) as [x | e] eqn:Hx;
      [ | right; rewrite (as_float_raises tx e Hx); reflexivity ].
    destruct (PyNumber.as_float ty) as [y | e] eqn:Hy;
      [ | right; rewrite (as_float_raises ty e Hy); reflexivity ].
    destruct (PyNumber.as_float tz) as [z | e] eqn:Hz;
      [ | right; rewrite (as_float_raises tz e Hz); reflexivity ].
    left. cbn [bind]. eexists. split; reflexivity.
  - reflexivity.
Qed.

(** The slab of the ground floor as the third script asks for it:
    [create_box(building_width, slab_thickness, building_width, 0, y, 0)]
    with the [int] width 20 and the [int] zeros. *)
Lemma create_box_unvalidated_witness :
  let w := PyNumber.Int 20 in
  let h := PyNumber.Flt (dec 3 10) in
  let o := PyNumber.Int 0 in
  let y := PyNumber.Flt (dec 35 10) in
  in_float_range w /\ in_float_range h /\ in_float_range o /\ in_float_range y /\
  exists verts,
    PyNumber.create_box w h w o y o = Ok (verts, box_indices) /\
    length verts = 8.
Proof.
  intros w h o y.
  assert (Hw : in_float_range w) by reflexivity.
  assert (Hh : in_float_range h) by exact I.
  assert (Ho : in_float_range o) by reflexivity.
  assert (Hy : in_float_range y) by exact I.
  repeat (split; [ assumption | ]).
  destruct create_box_unvalidated as (_ & Hrange & _).
  exact (Hrange w h w o y o Hw Hh Hw Ho Hy Ho).
Defined.

(** C10, counterexample.  A width of [2^1025], an [int] like the
    script's own [building_width = 20], has no float for its half:
    [w/2] raises [OverflowError] and no box is returned.  So does a
    centre coordinate of [2^1024] under a box of float dimensions. *)
Lemma huge_int_argument_raises :
  let one := PyNumber.Int 1 in
  let o := PyNumber.Int 0 in
  let unit := PyNumber.Flt (Binary64.of_Z 1) in
  PyNumber.create_box (PyNumber.Int (2 ^ 1025)) one one o o o
    = Raise OverflowError /\
  PyNumber.create_box unit unit unit (PyNumber.Int (2 ^ 1024)) o o
    = Raise OverflowError /\
  ~ (exists verts inds,
       PyNumber.create_box (PyNumber.Int (2 ^ 1025)) one one o o o
         = Ok (verts, inds) /\
       length verts = 8 /\ length inds = 36).
Proof.
  intros one o unit.
  assert (Hraise : PyNumber.create_box (PyNumber.Int (2 ^ 1025)) one one o o o
                   = Raise OverflowError) by (vm_compute; reflexivity).
  split; [ exact Hraise | ].
  split; [ vm_compute; reflexivity | ].
  intros (verts & inds & Hok & _). rewrite Hraise in Hok. discriminate.
Qed.

(* ================================================================== *)
(** * Grid resolution one *)
(* ================================================================== *)

Section GridOne.
Context {F : Type} `{PyFloat F} `{PyPack F}.

(** The first statement of [build_structure] divides by
    [grid_size - 1]. *)
Lemma build_structure_first_statement (p : V3.params F) (grid_size : Z) :
  V3.build_structure p grid_size =
  bind (py_div_int (V3.building_width p) (grid_size - 1))
       (fun spacing =>
          let st := V3.fill_stores p grid_size spacing in
          Ok [ ("Slabs"%string, V3.tagged (V3.slabs st) "structure");
               ("Columns"%string, V3.tagged (V3.cols st) "structure");
               ("Beams"%string, V3.tagged (V3.beams st) "structure");
               ("Core"%string, V3.tagged (V3.core st) "structure");
               ("Walls"%string, V3.tagged (V3.walls st) "structure");
               ("SpatialZones"%string, V3.tagged (V3.spatial st) "spatial") ]).
Proof. reflexivity. Qed.

Lemma spacing_division_by_zero (w : F) :
  py_div_int w (1 - 1) = Raise ZeroDivisionError.
Proof. reflexivity. Qed.

(** [build_structure] raises on no other grid size and nothing else:
    sizes of zero and below are accepted. *)
Lemma build_structure_raises_only_at_one (p : V3.params F) (grid_size : Z)
  (e : exn) :
  V3.build_structure p grid_size = Raise e ->
  grid_size = 1%Z /\ e = ZeroDivisionError.
Proof.
  rewrite build_structure_first_statement. unfold py_div_int.
  destruct (grid_size - 1 =? 0)%Z eqn:Hzero; simpl; intros Hraise.
  - injection Hraise as <-. apply Z.eqb_eq in Hzero. split; [ lia | reflexivity ].
  - discriminate.
Qed.


End GridOne.



(* ================================================================== *)
(** * Empty mesh groups *)
(* ================================================================== *)

Section EmptyGroups.
Context {F : Type} `{PyFloat F} `{PyPack F}.

(** C7, as the code has it.  [append_mesh] has no test for an empty
    group: handed a group without vertices it leaves the buffer as it
    is and still appends three buffer views of length zero, three
    accessors of count zero, one mesh and one node. *)
Theorem empty_group_is_emitted (name semantic : string) (lvl : Z)
  (em : V3.emitter F) :
  exists em',
    V3.append_mesh name ([], [], semantic) lvl em = Ok em' /\
    V3.all_buffer em' = V3.all_buffer em /\
    V3.em_bufferViews em' =
      V3.em_bufferViews em
        ++ [ V3.plain_view (length (V3.all_buffer em)) 0;
             V3.plain_view (length (V3.all_buffer em)) 0;
             V3.plain_view (length (V3.all_buffer em)) 0 ] /\
    V3.em_accessors em' =
      V3.em_accessors em
        ++ mesh_accessors (length (V3.em_bufferViews em)) 0 0 0 /\
    length (V3.em_meshes em') = length (V3.em_meshes em) + 1 /\
    V3.em_nodes em' =
      V3.em_nodes em
        ++ [ {| node_mesh := length (V3.em_meshes em);
                node_name := Some (name ++ "_LOD" ++ str_of_Z lvl)%string;
                node_extras := Some (semantic, lvl) |} ].
Proof.
  destruct (V3.append_mesh name ([], [], semantic) lvl em) as [em' | e] eqn:Hstep;
    [ | discriminate ].
  exists em'. split; [ reflexivity | ].
  destruct (append_mesh_ok _ _ _ _ _ _ _ Hstep)
    as (normals & v & n & i & Hnormals & Hv & Hn & Hi
        & Hbuf & Hviews & Haccs & Hmeshes & Hnodes).
  injection Hnormals as <-. injection Hv as <-.
  injection Hn as <-. injection Hi as <-.
  rewrite Hbuf, Hviews, Haccs, Hnodes. simpl.
  rewrite app_nil_r.
  split; [ reflexivity | ].
  split.
  { unfold mesh_views. simpl. rewrite !Nat.add_0_r. reflexivity. }
  split; [ reflexivity | ].
  split; [ exact Hmeshes | reflexivity ].
Qed.

End EmptyGroups.

(** A building of one floor has no columns; the group is handed to
    [append_mesh] all the same and comes out as a mesh of nothing. *)
Lemma empty_columns_group_not_skipped :
  let p : V3.params float :=
    {| V3.floors := 1; V3.floor_height := dec 35 10;
       V3.building_width := Binary64.of_Z 20;
       V3.grid_L0 := 5; V3.grid_L1 := 3;
       V3.column_size := dec 4 10; V3.beam_height := dec 5 10;
       V3.beam_width := dec 4 10; V3.slab_thickness := dec 3 10;
       V3.core_size := Binary64.of_Z 4; V3.wall_thickness := dec 3 10 |} in
  exists lod em,
    V3.build_structure p 5 = Ok lod /\
    nth_error lod 1 = Some ("Columns"%string, ([], [], "structure"%string)) /\
    V3.append_mesh "Columns" ([], [], "structure"%string) 0 V3.empty_emitter
      = Ok em /\
    map byteLength (V3.em_bufferViews em) = [0; 0; 0] /\
    map (@acc_count float) (V3.em_accessors em) = [0; 0; 0] /\
    length (V3.em_meshes em) = 1 /\
    map node_name (V3.em_nodes em) = [Some "Columns_LOD0"%string].
Proof.
  intros p. eexists. eexists.
  split; [ vm_compute; reflexivity | ].
  split; [ reflexivity | ].
  split; [ vm_compute; reflexivity | ].
  repeat split.
Qed.

(* ================================================================== *)
(** * Determinism *)
(* ================================================================== *)

Section Determinism.
Context {F : Type} `{PyFloat F} `{PyPack F}.

(** The loop call by call ends like the loop as a whole. *)
Lemma append_each_all (lod : list (string * V3.group F)) (level : Z) :
  forall em : V3.emitter F,
    match V3.append_all lod level em with
    | Ok em' => V3.append_each lod level em = (em', Ok tt)
    | Raise e => snd (V3.append_each lod level em) = Raise e
    end.
Proof.
  induction lod as [ | entry rest IH ]; intros em; [ reflexivity | ].
  unfold V3.append_all in *. cbn [foldM V3.append_each].
  destruct (V3.append_mesh (fst entry) (snd entry) level em) as [em1 | e];
    [ | reflexivity ].
  cbn [bind]. apply IH.
Qed.

(** A run ends like [generate]: with the same exception, or with the
    document [generate] returns bound to [gltf] and written out. *)
Lemma run_generate (p : V3.params F) (w : V3.world F) :
  match V3.generate p with
  | Ok doc =>
      snd (V3.run p w) = Ok tt /\
      V3.w_gltf (fst (V3.run p w)) = Some doc /\
      V3.w_file (fst (V3.run p w)) = Some doc
  | Raise e =>
      snd (V3.run p w) = Raise e /\
      V3.w_gltf (fst (V3.run p w)) = V3.w_gltf w /\
      V3.w_file (fst (V3.run p w)) = V3.w_file w
  end.
Proof.
  unfold V3.generate, V3.run.
  destruct (V3.build_structure p (V3.grid_L0 p)) as [lod0 | e];
    [ | repeat split ].
  destruct (V3.build_structure p (V3.grid_L1 p)) as [lod1 | e];
    [ | repeat split ].
  cbn [bind].
  pose proof (append_each_all lod0 0 V3.empty_emitter) as Hl0.
  destruct (V3.append_all lod0 0 V3.empty_emitter) as [em0 | e].
  - rewrite Hl0. cbn [bind].
    pose proof (append_each_all lod1 1 em0) as Hl1.
    destruct (V3.append_all lod1 1 em0) as [em1 | e].
    + rewrite Hl1. repeat split.
    + destruct (V3.append_each lod1 1 em0) as [em [u | e']];
        cbn [snd] in Hl1; [ discriminate | ].
      injection Hl1 as ->. repeat split.
  - destruct (V3.append_each lod0 0 V3.empty_emitter) as [em [u | e']];
      cbn [snd] in Hl0; [ discriminate | ].
    injection Hl0 as ->. repeat split.
Qed.

(** C9.  Two runs of the third script on the same parameters, in
    whatever worlds they start (nothing bound, or the names and the file
    an earlier run left behind): both end the same way, normally or by
    the same exception.  When they end normally they leave the same
    world: the same groups, the same byte buffer, views, accessors,
    meshes and nodes, and the same document bound to [gltf] and held by
    the file, the one [generate] returns.  When they end by an exception
    the file is as it was.  Running the script once more in the world a
    run has left changes nothing. *)
Theorem generation_deterministic (p : V3.params F) (w1 w2 : V3.world F) :
  snd (V3.run p w1) = snd (V3.run p w2) /\
  (snd (V3.run p w1) = Ok tt ->
   fst (V3.run p w1) = fst (V3.run p w2) /\
   exists doc,
     V3.generate p = Ok doc /\
     V3.w_file (fst (V3.run p w1)) = Some doc /\
     V3.w_file (fst (V3.run p w2)) = Some doc) /\
  (forall e,
     snd (V3.run p w1) = Raise e ->
     V3.generate p = Raise e /\
     V3.w_file (fst (V3.run p w1)) = V3.w_file w1) /\
  V3.run p (fst (V3.run p w1)) = V3.run p w1.
Proof.
  split; [ | split; [ | split ] ].
  - pose proof (run_generate p w1) as Hr1.
    pose proof (run_generate p w2) as Hr2.
    destruct (V3.generate p) as [doc | e];
      destruct Hr1 as [-> _]; destruct Hr2 as [-> _]; reflexivity.
  - intros Hok.
    pose proof (run_generate p w1) as Hr1.
    pose proof (run_generate p w2) as Hr2.
    destruct (V3.generate p) as [doc | e].
    + destruct Hr1 as (_ & _ & Hf1). destruct Hr2 as (_ & _ & Hf2).
      split; [ | exists doc; repeat split; assumption ].
      clear Hf1 Hf2. revert Hok. unfold V3.run.
      destruct (V3.build_structure p (V3.grid_L0 p)) as [lod0 | e];
        [ | discriminate ].
      destruct (V3.build_structure p (V3.grid_L1 p)) as [lod1 | e];
        [ | discriminate ].
      destruct (V3.append_each lod0 0 V3.empty_emitter) as [em0 [u0 | e]];
        [ | discriminate ].
      destruct (V3.append_each lod1 1 em0) as [em1 [u1 | e]];
        [ | discriminate ].
      reflexivity.
    + destruct Hr1 as [Hr _]. rewrite Hr in Hok. discriminate.
  - intros e He.
    pose proof (run_generate p w1) as Hr1.
    destruct (V3.generate p) as [doc | e'].
    + destruct Hr1 as [Hr _]. rewrite Hr in He. discriminate.
    + destruct Hr1 as (Hr & _ & Hf). rewrite Hr in He. injection He as ->.
      split; [ reflexivity | exact Hf ].
  - unfold V3.run.
    destruct (V3.build_structure p (V3.grid_L0 p)) as [lod0 | e];
      [ | reflexivity ].
    destruct (V3.build_structure p (V3.grid_L1 p)) as [lod1 | e];
      [ | reflexivity ].
    destruct (V3.append_each lod0 0 V3.empty_emitter) as [em0 [u0 | e]];
      [ | reflexivity ].
    destruct (V3.append_each lod1 1 em0) as [em1 [u1 | e]]; reflexivity.
Qed.

(** The second and the first script bind their buffers anew as well. *)
Lemma v2_generation_deterministic (p : V2.params F) (w1 w2 : V2.world F) :
  snd (V2.run p w1) = snd (V2.run p w2) /\
  (snd (V2.run p w1) = Ok tt -> fst (V2.run p w1) = fst (V2.run p w2)) /\
  V2.run p (fst (V2.run p w1)) = V2.run p w1.
Proof.
  unfold V2.run.
  destruct (py_div_int (V2.building_width p) (V2.grid_size p - 1))
    as [spacing | e]; [ | repeat split; discriminate ].
  cbv zeta.
  destruct (V2.emit _ _) as [doc | e]; repeat split; discriminate.
Qed.

Lemma v1_generation_deterministic (p : V1.params F) (w1 w2 : V1.world F) :
  snd (V1.run p w1) = snd (V1.run p w2) /\
  (snd (V1.run p w1) = Ok tt -> fst (V1.run p w1) = fst (V1.run p w2)) /\
  V1.run p (fst (V1.run p w1)) = V1.run p w1.
Proof.
  unfold V1.run.
  destruct (py_div_int (V1.building_width p) (V1.grid_size p - 1))
    as [spacing | e]; [ | repeat split; discriminate ].
  cbv zeta.
  destruct (V1.emit _ _) as [doc | e]; repeat split; discriminate.
Qed.

End Determinism.

(** A building of two floors on a grid of three by three and of two by
    two, run where nothing is bound and run again in the world that a
    run on other parameters has left: both runs end normally, in the same
    world, with the same file, which is not the file found there. *)
Lemma generation_deterministic_witness :
  let p : V3.params float :=
    {| V3.floors := 2; V3.floor_height := dec 35 10;
       V3.building_width := Binary64.of_Z 20;
       V3.grid_L0 := 3; V3.grid_L1 := 2;
       V3.column_size := dec 4 10; V3.beam_height := dec 5 10;
       V3.beam_width := dec 4 10; V3.slab_thickness := dec 3 10;
       V3.core_size := Binary64.of_Z 4; V3.wall_thickness := dec 3 10 |} in
  let q : V3.params float :=
    {| V3.floors := 1; V3.floor_height := dec 35 10;
       V3.building_width := Binary64.of_Z 10;
       V3.grid_L0 := 2; V3.grid_L1 := 2;
       V3.column_size := dec 4 10; V3.beam_height := dec 5 10;
       V3.beam_width := dec 4 10; V3.slab_thickness := dec 3 10;
       V3.core_size := Binary64.of_Z 4; V3.wall_thickness := dec 3 10 |} in
  let fresh : V3.world float :=
    {| V3.w_lod0 := None; V3.w_lod1 := None; V3.w_emitter := None;
       V3.w_gltf := None; V3.w_file := None |} in
  let left_over := fst (V3.run q fresh) in
  snd (V3.run p fresh) = Ok tt /\
  snd (V3.run p left_over) = Ok tt /\
  fst (V3.run p left_over) = fst (V3.run p fresh) /\
  option_map (fun doc => map buf_byteLength (buffers doc)) (V3.w_file left_over)
  = Some [4 * 336] /\
  option_map (fun doc => map buf_byteLength (buffers doc))
    (V3.w_file (fst (V3.run p left_over)))
  = Some [33 * 336].
Proof.
  intros p q fresh left_over.
  assert (Hok : snd (V3.run p fresh) = Ok tt) by (vm_compute; reflexivity).
  destruct (generation_deterministic p fresh left_over)
    as (Hsame & Hworld & _ & _).
  destruct (Hworld Hok) as [Heq _].
  split; [ exact Hok | ].
  split; [ rewrite <- Hsame; exact Hok | ].
  split; [ symmetry; exact Heq | ].
  split; [ vm_compute; reflexivity | ].
  rewrite <- Heq. vm_compute. reflexivity.
Defined.

(** The emission loop by itself does not have this property: started
    in the state a first pass has left, without the statements that
    bind the module-level names anew, it puts the same mesh behind the
    bytes that are there. *)
Example emission_without_reset_differs :
  let triangle : V3.group float :=
    ([ (zero, zero, zero); (f_of_Z 1, zero, zero); (zero, f_of_Z 1, zero) ],
     [0; 1; 2]%Z, "structure"%string) in
  let lod := [ ("Slabs"%string, triangle) ] in
  exists em1 em2,
    V3.append_each lod 0 V3.empty_emitter = (em1, Ok tt) /\
    V3.append_each lod 0 em1 = (em2, Ok tt) /\
    length (V3.all_buffer em1) = 84 /\
    length (V3.all_buffer em2) = 168 /\
    map byteOffset (V3.em_bufferViews em2) = [0; 36; 72; 84; 120; 156].
Proof.
  intros triangle lod. eexists. eexists.
  split; [ vm_compute; reflexivity | ].
  split; [ vm_compute; reflexivity | ].
  repeat split; vm_compute; reflexivity.
Qed.

(* ================================================================== *)
(** * Counting the boxes of a layout *)
(* ================================================================== *)

Lemma py_range_length (n : Z) : length (py_range n) = Z.to_nat n.
Proof. unfold py_range. rewrite length_map, length_seq. reflexivity. Qed.

(** A loop whose body adds [c] to a measure of the state adds [c] per
    iteration. *)
Lemma fold_left_count {A S : Type} (count : S -> nat) (body : S -> A -> S)
  (c : nat) (xs : list A) :
  (forall st a, count (body st a) = count st + c) ->
  forall st, count (fold_left body xs st) = count st + c * length xs.
Proof.
  intros Hbody. induction xs as [ | x xs IH ]; intros st; simpl.
  - lia.
  - rewrite IH, Hbody. lia.
Qed.

Section Counting.
Context {F : Type} `{PyFloat F}.

Lemma add_box_count (b : list (vertex F) * list Z) (st : store (vertex F)) :
  vertex_count (let '(v, i) := b in add v i st)
  = vertex_count st + length (fst b).
Proof.
  destruct b as [v i]. unfold vertex_count.
  rewrite add_vertices, length_app. reflexivity.
Qed.

Lemma add_mesh_count (b : list (vertex F) * list Z)
  (st : buffers_state (vertex F)) :
  buffered (let '(v, i) := b in add_mesh v i st) = buffered st + length (fst b).
Proof.
  destruct b as [v i]. unfold buffered. simpl.
  rewrite length_app. reflexivity.
Qed.

(** Third script: per structural floor, [N * N] columns and
    [N * (N - 1)] beams, all of them along one axis. *)
Lemma v3_columns_loop_count (p : V3.params F) (grid_size : Z) (spacing y : F)
  (st : store (vertex F)) :
  vertex_count (V3.columns_loop p grid_size spacing y st)
  = vertex_count st + 8 * (Z.to_nat grid_size * Z.to_nat grid_size).
Proof.
  unfold V3.columns_loop.
  rewrite (fold_left_count vertex_count _ (8 * Z.to_nat grid_size)).
  - rewrite py_range_length. lia.
  - intros st' gx.
    rewrite (fold_left_count vertex_count _ 8).
    + rewrite py_range_length. lia.
    + intros st'' gz. rewrite add_box_count, create_box_vertex_count.
      reflexivity.
Qed.

Lemma v3_beams_loop_count (p : V3.params F) (grid_size : Z) (spacing y : F)
  (st : store (vertex F)) :
  vertex_count (V3.beams_loop p grid_size spacing y st)
  = vertex_count st + 8 * (Z.to_nat grid_size * Z.to_nat (grid_size - 1)).
Proof.
  unfold V3.beams_loop.
  rewrite (fold_left_count vertex_count _ (8 * Z.to_nat (grid_size - 1))).
  - rewrite py_range_length. lia.
  - intros st' gz.
    rewrite (fold_left_count vertex_count _ 8).
    + rewrite py_range_length. lia.
    + intros st'' gx. rewrite add_box_count, create_box_vertex_count.
      reflexivity.
Qed.

(** Second script: per structural floor, [N * N] columns, [N * (N - 1)]
    beams along X and as many along Z. *)
Lemma v2_columns_loop_count (p : V2.params F) (spacing y : F)
  (st : buffers_state (vertex F)) :
  buffered (V2.columns_loop p spacing y st)
  = buffered st + 8 * (Z.to_nat (V2.grid_size p) * Z.to_nat (V2.grid_size p)).
Proof.
  unfold V2.columns_loop.
  rewrite (fold_left_count buffered _ (8 * Z.to_nat (V2.grid_size p))).
  - rewrite py_range_length. lia.
  - intros st' gx.
    rewrite (fold_left_count buffered _ 8).
    + rewrite py_range_length. lia.
    + intros st'' gz. unfold V2.add_box.
      rewrite add_mesh_count, create_box_vertex_count. reflexivity.
Qed.

Lemma v2_beams_x_loop_count (p : V2.params F) (spacing y : F)
  (st : buffers_state (vertex F)) :
  buffered (V2.beams_x_loop p spacing y st)
  = buffered st
    + 8 * (Z.to_nat (V2.grid_size p) * Z.to_nat (V2.grid_size p - 1)).
Proof.
  unfold V2.beams_x_loop.
  rewrite (fold_left_count buffered _ (8 * Z.to_nat (V2.grid_size p - 1))).
  - rewrite py_range_length. lia.
  - intros st' gz.
    rewrite (fold_left_count buffered _ 8).
    + rewrite py_range_length. lia.
    + intros st'' gx. unfold V2.add_box.
      rewrite add_mesh_count, create_box_vertex_count. reflexivity.
Qed.

Lemma v2_beams_z_loop_count (p : V2.params F) (spacing y : F)
  (st : buffers_state (vertex F)) :
  buffered (V2.beams_z_loop p spacing y st)
  = buffered st
    + 8 * (Z.to_nat (V2.grid_size p) * Z.to_nat (V2.grid_size p - 1)).
Proof.
  unfold V2.beams_z_loop.
  rewrite (fold_left_count buffered _ (8 * Z.to_nat (V2.grid_size p - 1))).
  - rewrite py_range_length. lia.
  - intros st' gx.
    rewrite (fold_left_count buffered _ 8).
    + rewrite py_range_length. lia.
    + intros st'' gz. unfold V2.add_box.
      rewrite add_mesh_count, create_box_vertex_count. reflexivity.
Qed.

Lemma v2_walls_loop_count (p : V2.params F) (st : buffers_state (vertex F)) :
  buffered (V2.walls_loop p st) = buffered st + 8 * Z.to_nat (V2.floors p - 1).
Proof.
  unfold V2.walls_loop.
  rewrite (fold_left_count buffered _ 8).
  - rewrite py_range_length. reflexivity.
  - intros st' f. unfold V2.add_box.
    rewrite add_mesh_count, create_box_vertex_count. reflexivity.
Qed.

Lemma v2_core_loop_count (p : V2.params F) (st : buffers_state (vertex F)) :
  buffered (V2.core_loop p st) = buffered st + 8 * Z.to_nat (V2.floors p - 1).
Proof.
  unfold V2.core_loop.
  rewrite (fold_left_count buffered _ 8).
  - rewrite py_range_length. reflexivity.
  - intros st' f. unfold V2.add_box.
    rewrite add_mesh_count, create_box_vertex_count. reflexivity.
Qed.

(** First script: the same two beam loops as the second. *)
Lemma v1_beams_x_loop_count (p : V1.params F) (spacing y : F)
  (st : buffers_state (vertex F)) :
  buffered (V1.beams_x_loop p spacing y st)
  = buffered st
    + 8 * (Z.to_nat (V1.grid_size p) * Z.to_nat (V1.grid_size p - 1)).
Proof.
  unfold V1.beams_x_loop.
  rewrite (fold_left_count buffered _ (8 * Z.to_nat (V1.grid_size p - 1))).
  - rewrite py_range_length. lia.
  - intros st' gz.
    rewrite (fold_left_count buffered _ 8).
    + rewrite py_range_length. lia.
    + intros st'' gx. unfold V1.extend.
      rewrite add_mesh_count, create_box_vertex_count. reflexivity.
Qed.

Lemma v1_beams_z_loop_count (p : V1.params F) (spacing y : F)
  (st : buffers_state (vertex F)) :
  buffered (V1.beams_z_loop p spacing y st)
  = buffered st
    + 8 * (Z.to_nat (V1.grid_size p) * Z.to_nat (V1.grid_size p - 1)).
Proof.
  unfold V1.beams_z_loop.
  rewrite (fold_left_count buffered _ (8 * Z.to_nat (V1.grid_size p - 1))).
  - rewrite py_range_length. lia.
  - intros st' gx.
    rewrite (fold_left_count buffered _ 8).
    + rewrite py_range_length. lia.
    + intros st'' gz. unfold V1.extend.
      rewrite add_mesh_count, create_box_vertex_count. reflexivity.
Qed.

End Counting.

(* ================================================================== *)
(** * The five-floor, five-by-five scenario *)
(* ================================================================== *)

Section Scenario.
Context {F : Type} `{PyFloat F}.

Lemma v2_floor_body_count (p : V2.params F) (spacing : F)
  (st : buffers_state (vertex F)) (f : Z) :
  let n := Z.to_nat (V2.grid_size p) in
  let m := Z.to_nat (V2.grid_size p - 1) in
  buffered (V2.floor_body p spacing st f)
  = buffered st + 8
    + (if (f <? V2.floors p - 1)%Z
       then 8 * (n * n) + 8 * (n * m) + 8 * (n * m) + 8
       else 0).
Proof.
  intros n m. unfold V2.floor_body.
  destruct (f <? V2.floors p - 1)%Z.
  - unfold V2.brace, V2.add_box at 1.
    rewrite add_mesh_count, create_box_vertex_count.
    rewrite v2_beams_z_loop_count, v2_beams_x_loop_count, v2_columns_loop_count.
    unfold V2.add_box.
    rewrite add_mesh_count, create_box_vertex_count.
    subst n m. lia.
  - unfold V2.add_box.
    rewrite add_mesh_count, create_box_vertex_count. lia.
Qed.

(** The second script on its own parameters (five floors, a grid of five
    by five, no LOD variants): 5 slabs, 100 columns, 80 + 80 beams, 4
    braces, 4 shear walls and 4 core boxes, eight vertices each. *)
Lemma v2_scenario_counts :
  let p : V2.params F := V2.default_params in
  (forall spacing y st,
     buffered (V2.columns_loop p spacing y st) = buffered st + 8 * 25) /\
  (forall spacing y st,
     buffered (V2.beams_x_loop p spacing y st) = buffered st + 8 * 20) /\
  (forall spacing y st,
     buffered (V2.beams_z_loop p spacing y st) = buffered st + 8 * 20) /\
  (forall st, buffered (V2.walls_loop p st) = buffered st + 8 * 4) /\
  (forall st, buffered (V2.core_loop p st) = buffered st + 8 * 4) /\
  exists st,
    V2.build_geometry p = Ok st /\
    buffered st = 8 * (5 + 4 * 25 + 4 * (20 + 20) + 4 + 4 + 4) /\
    length (all_indices st) = 36 * (5 + 4 * 25 + 4 * (20 + 20) + 4 + 4 + 4).
Proof.
  intros p.
  split; [ intros; rewrite v2_columns_loop_count; reflexivity | ].
  split; [ intros; rewrite v2_beams_x_loop_count; reflexivity | ].
  split; [ intros; rewrite v2_beams_z_loop_count; reflexivity | ].
  split; [ intros; rewrite v2_walls_loop_count; reflexivity | ].
  split; [ intros; rewrite v2_core_loop_count; reflexivity | ].
  eexists. split; [ reflexivity | ].
  split; vm_compute; reflexivity.
Qed.

(** The first script on the same parameters: 5 slabs, 100 columns and
    80 + 80 beams; it has no braces, walls or core. *)
Lemma v1_scenario_counts :
  exists st,
    V1.generation (F:=F) V1.default_params = Ok st /\
    buffered st = 8 * (5 + 4 * 25 + 4 * (20 + 20)).
Proof.
  eexists. split; [ reflexivity | ]. vm_compute. reflexivity.
Qed.

(** The groups of the third script on the same parameters, by name and
    number of vertices. *)
Lemma v3_scenario_counts :
  exists lod,
    V3.build_structure (F:=F) V3.default_params 5 = Ok lod /\
    map (fun entry => (fst entry, length (fst (fst (snd entry))))) lod
    = [ ("Slabs"%string, 8 * 5); ("Columns"%string, 8 * 100);
        ("Beams"%string, 8 * 80); ("Core"%string, 8 * 4);
        ("Walls"%string, 8 * 4); ("SpatialZones"%string, 8 * 5) ].
Proof.
  eexists. split; [ reflexivity | ]. vm_compute. reflexivity.
Qed.

(** The beams of the three scripts side by side.  The first and the
    second run two beam loops per structural floor, along X and along Z,
    each of [N] lines by [N - 1] intervals; on five floors and a grid of
    five by five the second script emits 5 slabs, 100 columns, 160
    beams, 4 braces, 4 shear walls and 4 core boxes, eight vertices
    each.  The third script runs one beam loop only, along X: its group
    of beams holds 80 boxes, 640 vertices, beside 5 slabs, 100 columns,
    4 core boxes and 4 walls. *)
Lemma beam_layout_by_variant :
  (forall (p : V1.params F) spacing y st,
     let n := Z.to_nat (V1.grid_size p) in
     let m := Z.to_nat (V1.grid_size p - 1) in
     buffered (V1.beams_x_loop p spacing y st) = buffered st + 8 * (n * m) /\
     buffered (V1.beams_z_loop p spacing y st) = buffered st + 8 * (n * m)) /\
  (forall (p : V2.params F) spacing y st,
     let n := Z.to_nat (V2.grid_size p) in
     let m := Z.to_nat (V2.grid_size p - 1) in
     buffered (V2.beams_x_loop p spacing y st) = buffered st + 8 * (n * m) /\
     buffered (V2.beams_z_loop p spacing y st) = buffered st + 8 * (n * m)) /\
  (forall (p : V2.params F) spacing st f,
     let n := Z.to_nat (V2.grid_size p) in
     let m := Z.to_nat (V2.grid_size p - 1) in
     buffered (V2.floor_body p spacing st f)
     = buffered st + 8
       + (if (f <? V2.floors p - 1)%Z
          then 8 * (n * n) + 8 * (n * m) + 8 * (n * m) + 8
          else 0)) /\
  (exists st,
     V2.build_geometry (F:=F) V2.default_params = Ok st /\
     buffered st = 8 * 5 + 8 * 100 + 8 * 160 + 8 * 4 + 8 * 4 + 8 * 4) /\
  (forall (p : V3.params F) grid_size spacing y st,
     vertex_count (V3.beams_loop p grid_size spacing y st)
     = vertex_count st + 8 * (Z.to_nat grid_size * Z.to_nat (grid_size - 1))) /\
  (exists lod,
     V3.build_structure (F:=F) V3.default_params 5 = Ok lod /\
     map (fun entry => (fst entry, length (fst (fst (snd entry))))) lod
     = [ ("Slabs"%string, 8 * 5); ("Columns"%string, 8 * 100);
         ("Beams"%string, 8 * 80); ("Core"%string, 8 * 4);
         ("Walls"%string, 8 * 4); ("SpatialZones"%string, 8 * 5) ]).
Proof.
  split.
  { intros p spacing y st n m. split.
    - apply v1_beams_x_loop_count.
    - apply v1_beams_z_loop_count. }
  split.
  { intros p spacing y st n m. split.
    - apply v2_beams_x_loop_count.
    - apply v2_beams_z_loop_count. }
  split; [ exact v2_floor_body_count | ].
  split.
  { destruct v2_scenario_counts as (_ & _ & _ & _ & _ & st & Hst & Hcount & _).
    exists st. split; [ exact Hst | exact Hcount ]. }
  split; [ exact v3_beams_loop_count | exact v3_scenario_counts ].
Qed.

End Scenario.

(** C4.  The specification has beams in two perpendicular directions,
    160 beams and 1280 vertices on five floors and a grid of five by
    five, which is what the first and the second script emit.  On these
    parameters [build_structure] of the third script returns a group of
    beams of 640 vertices: 80 beams, those along X. *)
Theorem v3_emits_eighty_beams :
  exists lod verts inds,
    V3.build_structure (F:=float) V3.default_params 5 = Ok lod /\
    nth_error lod 2 = Some ("Beams"%string, (verts, inds, "structure"%string)) /\
    length verts = 8 * 80 /\
    length verts <> 8 * 160.
Proof.
  destruct (V3.build_structure (F:=float) V3.default_params 5)
    as [lod | e] eqn:Hlod; [ | discriminate ].
  destruct (nth_error lod 2) as [[name [[verts inds] semantic]] | ] eqn:Hbeams;
    [ | vm_compute in Hlod; injection Hlod as <-; discriminate ].
  assert (Hshape : name = "Beams"%string /\ semantic = "structure"%string
                   /\ length verts = 8 * 80).
  { vm_compute in Hlod. injection Hlod as <-.
    simpl in Hbeams. injection Hbeams as <- <- <- <-.
    repeat split. }
  destruct Hshape as (-> & -> & Hcount).
  exists lod, verts, inds.
  split; [ reflexivity | ]. split; [ exact Hbeams | ].
  split; [ exact Hcount | rewrite Hcount; discriminate ].
Qed.

(* ================================================================== *)
(** * Position bounds *)
(* ================================================================== *)

Lemma SFltb_trans (x y z : spec_float) :
  SFltb x y = true -> SFltb y z = true -> SFltb x z = true.
Proof.
  unfold SFltb, SFcompare.
  destruct x as [sx | sx | | sx mx ex], y as [sy | sy | | sy my ey],
    z as [sz | sz | | sz mz ez];
    try destruct sx; try destruct sy; try destruct sz;
    try discriminate; try reflexivity;
    rewrite ?Pos.compare_cont_spec; simpl;
    destruct (Z.compare_spec ex ey), (Z.compare_spec ey ez),
      (Z.compare_spec ex ez);
    try discriminate; try reflexivity; try lia;
    subst;
    destruct (Pos.compare_spec mx my), (Pos.compare_spec my mz),
      (Pos.compare_spec mx mz);
    simpl; try discriminate; try reflexivity; lia.
Qed.

Lemma SFltb_irrefl (x : spec_float) : SFltb x x = false.
Proof.
  unfold SFltb, SFcompare.
  destruct x as [sx | sx | | sx mx ex]; try destruct sx; try reflexivity;
    rewrite Z.compare_refl, Pos.compare_cont_spec, Pos.compare_refl;
    reflexivity.
Qed.

#[export] Instance float_PyOrder : PyOrder float.
Proof.
  constructor; simpl.
  - intros x y z. rewrite !ltb_spec. apply SFltb_trans.
  - intros x. rewrite ltb_spec. apply SFltb_irrefl.
Qed.

#[export] Instance R_PyOrder : PyOrder R.
Proof.
  constructor; simpl.
  - intros x y z.
    destruct (Rlt_dec x y), (Rlt_dec y z), (Rlt_dec x z);
      intros; try discriminate; try reflexivity. lra.
  - intros x. destruct (Rlt_dec x x); [ lra | reflexivity ].
Qed.

Section Bounds.
Context {F : Type} `{PyOrder F}.

Lemma fold_max_spec (rest : list F) :
  forall (seen : list F) (m : F),
    is_max seen m ->
    is_max (seen ++ rest)
      (fold_left (fun m y => if fltb m y then y else m) rest m).
Proof.
  induction rest as [ | y rest IH ]; intros seen m [Hin Hmax]; simpl.
  - rewrite app_nil_r. split; assumption.
  - replace (seen ++ y :: rest) with ((seen ++ [y]) ++ rest)
      by (rewrite <- app_assoc; reflexivity).
    apply IH. destruct (fltb m y) eqn:Hmy.
    + split; [ apply in_or_app; right; left; reflexivity | ].
      intros x Hx. apply in_app_or in Hx. destruct Hx as [Hx | [<- | []]].
      * destruct (fltb y x) eqn:Hyx; [ | reflexivity ].
        rewrite <- (Hmax x Hx). symmetry.
        eapply fltb_trans; eassumption.
      * apply fltb_irrefl.
    + split; [ apply in_or_app; left; exact Hin | ].
      intros x Hx. apply in_app_or in Hx. destruct Hx as [Hx | [<- | []]].
      * apply Hmax, Hx.
      * exact Hmy.
Qed.

Lemma fold_min_spec (rest : list F) :
  forall (seen : list F) (m : F),
    is_min seen m ->
    is_min (seen ++ rest)
      (fold_left (fun m y => if fltb y m then y else m) rest m).
Proof.
  induction rest as [ | y rest IH ]; intros seen m [Hin Hmin]; simpl.
  - rewrite app_nil_r. split; assumption.
  - replace (seen ++ y :: rest) with ((seen ++ [y]) ++ rest)
      by (rewrite <- app_assoc; reflexivity).
    apply IH. destruct (fltb y m) eqn:Hym.
    + split; [ apply in_or_app; right; left; reflexivity | ].
      intros x Hx. apply in_app_or in Hx. destruct Hx as [Hx | [<- | []]].
      * destruct (fltb x y) eqn:Hxy; [ | reflexivity ].
        rewrite <- (Hmin x Hx). symmetry.
        eapply fltb_trans; eassumption.
      * apply fltb_irrefl.
    + split; [ apply in_or_app; left; exact Hin | ].
      intros x Hx. apply in_app_or in Hx. destruct Hx as [Hx | [<- | []]].
      * apply Hmin, Hx.
      * exact Hym.
Qed.

Lemma py_max_spec (xs : list F) (m : F) : py_max xs = Ok m -> is_max xs m.
Proof.
  destruct xs as [ | x rest ]; simpl; intros Hm; [ discriminate | ].
  injection Hm as <-.
  apply (fold_max_spec rest [x] x).
  split; [ left; reflexivity | ].
  intros x' [<- | []]. apply fltb_irrefl.
Qed.

Lemma py_min_spec (xs : list F) (m : F) : py_min xs = Ok m -> is_min xs m.
Proof.
  destruct xs as [ | x rest ]; simpl; intros Hm; [ discriminate | ].
  injection Hm as <-.
  apply (fold_min_spec rest [x] x).
  split; [ left; reflexivity | ].
  intros x' [<- | []]. apply fltb_irrefl.
Qed.

End Bounds.

Section BoundsOfScripts.
Context {F : Type} `{PyOrder F} `{PyPack F}.

Lemma bounds_max_spec (vs : list (vertex F)) (hi : list F) :
  V1.bounds_max vs = Ok hi ->
  exists hx hy hz,
    hi = [hx; hy; hz] /\
    is_max (map (V1.coord 0) vs) hx /\
    is_max (map (V1.coord 1) vs) hy /\
    is_max (map (V1.coord 2) vs) hz.
Proof.
  unfold V1.bounds_max. simpl. intros Hb.
  apply bind_ok in Hb. destruct Hb as (hx & Hx & Hb).
  apply bind_ok in Hb. destruct Hb as (rest & Hrest & Hb).
  apply bind_ok in Hrest. destruct Hrest as (hy & Hy & Hrest).
  apply bind_ok in Hrest. destruct Hrest as (rest' & Hrest' & Hrest).
  apply bind_ok in Hrest'. destruct Hrest' as (hz & Hz & Hrest').
  injection Hrest' as <-. injection Hrest as <-. injection Hb as <-.
  exists hx, hy, hz. split; [ reflexivity | ].
  repeat split; apply py_max_spec; assumption.
Qed.

Lemma bounds_min_spec (vs : list (vertex F)) (lo : list F) :
  V1.bounds_min vs = Ok lo ->
  exists lx ly lz,
    lo = [lx; ly; lz] /\
    is_min (map (V1.coord 0) vs) lx /\
    is_min (map (V1.coord 1) vs) ly /\
    is_min (map (V1.coord 2) vs) lz.
Proof.
  unfold V1.bounds_min. simpl. intros Hb.
  apply bind_ok in Hb. destruct Hb as (lx & Hx & Hb).
  apply bind_ok in Hb. destruct Hb as (rest & Hrest & Hb).
  apply bind_ok in Hrest. destruct Hrest as (ly & Hy & Hrest).
  apply bind_ok in Hrest. destruct Hrest as (rest' & Hrest' & Hrest).
  apply bind_ok in Hrest'. destruct Hrest' as (lz & Hz & Hrest').
  injection Hrest' as <-. injection Hrest as <-. injection Hb as <-.
  exists lx, ly, lz. split; [ reflexivity | ].
  repeat split; apply py_min_spec; assumption.
Qed.

(** First script: the position accessor declares, axis by axis, a
    greatest and a least coordinate of the vertices; the index accessor
    declares no bounds. *)
Lemma v1_position_bounds (vs : list (vertex F)) (inds : list Z) (doc : gltf F) :
  V1.emit vs inds = Ok doc ->
  exists pos idx hx hy hz lx ly lz,
    accessors doc = [pos; idx] /\
    acc_type pos = "VEC3"%string /\
    acc_max pos = Some [hx; hy; hz] /\
    acc_min pos = Some [lx; ly; lz] /\
    is_max (map (V1.coord 0) vs) hx /\
    is_max (map (V1.coord 1) vs) hy /\
    is_max (map (V1.coord 2) vs) hz /\
    is_min (map (V1.coord 0) vs) lx /\
    is_min (map (V1.coord 1) vs) ly /\
    is_min (map (V1.coord 2) vs) lz /\
    no_bounds idx.
Proof.
  unfold V1.emit. intros Hemit.
  apply bind_ok in Hemit. destruct Hemit as (vb & _ & Hemit).
  apply bind_ok in Hemit. destruct Hemit as (ib & _ & Hemit).
  apply bind_ok in Hemit. destruct Hemit as (hi & Hhi & Hemit).
  apply bind_ok in Hemit. destruct Hemit as (lo & Hlo & Hemit).
  injection Hemit as <-.
  destruct (bounds_max_spec _ _ Hhi) as (hx & hy & hz & -> & Hmx & Hmy & Hmz).
  destruct (bounds_min_spec _ _ Hlo) as (lx & ly & lz & -> & Hnx & Hny & Hnz).
  do 2 eexists. exists hx, hy, hz, lx, ly, lz. simpl.
  split; [ reflexivity | ].
  repeat (split; [ first [ reflexivity | assumption ] | ]).
  split; reflexivity.
Qed.

Lemma mesh_accessors_no_bounds (bv nverts nnormals ninds : nat) :
  Forall no_bounds (mesh_accessors (F:=F) bv nverts nnormals ninds).
Proof. repeat constructor. Qed.

Lemma emit_calls_no_bounds (calls : list call) :
  forall em em' : V3.emitter F,
    Forall no_bounds (V3.em_accessors em) ->
    emit_calls calls em = Ok em' ->
    Forall no_bounds (V3.em_accessors em').
Proof.
  induction calls as [ | [[name [[verts inds] semantic]] lvl] calls IH ];
    intros em em' Hold Hrun.
  - injection Hrun as <-. exact Hold.
  - unfold emit_calls in Hrun; simpl in Hrun.
    apply bind_ok in Hrun. destruct Hrun as (em1 & Hstep & Hrun).
    apply (IH em1 em'); [ | exact Hrun ].
    destruct (append_mesh_ok _ _ _ _ _ _ _ Hstep)
      as (normals & v & n & i & _ & _ & _ & _ & _ & _ & Haccs & _).
    rewrite Haccs. apply Forall_app. split; [ exact Hold | ].
    apply mesh_accessors_no_bounds.
Qed.

(** The third script declares bounds on no accessor, the position
    accessors included; neither does the second. *)
Lemma v3_accessors_carry_no_bounds (calls : list call) (em : V3.emitter F) :
  emit_calls calls V3.empty_emitter = Ok em ->
  Forall no_bounds (V3.em_accessors em).
Proof.
  apply emit_calls_no_bounds. constructor.
Qed.

Lemma v3_document_no_bounds (p : V3.params F) (doc : gltf F) :
  V3.generate p = Ok doc -> Forall no_bounds (accessors doc).
Proof.
  intros Hgen.
  destruct (generate_as_calls p doc Hgen) as (lod0 & lod1 & em & _ & _ & Hrun & ->).
  simpl. eapply v3_accessors_carry_no_bounds; eassumption.
Qed.

Lemma v2_document_no_bounds (vs : list (vertex F)) (inds : list Z) (doc : gltf F) :
  V2.emit vs inds = Ok doc -> Forall no_bounds (accessors doc).
Proof.
  unfold V2.emit. intros Hemit.
  apply bind_ok in Hemit. destruct Hemit as (normals & _ & Hemit).
  apply bind_ok in Hemit. destruct Hemit as (v & _ & Hemit).
  apply bind_ok in Hemit. destruct Hemit as (n & _ & Hemit).
  apply bind_ok in Hemit. destruct Hemit as (i & _ & Hemit).
  injection Hemit as <-. simpl. repeat constructor.
Qed.

(** The bounds of the three scripts side by side.  Only the first
    declares bounds: its position accessor carries, axis by axis, a
    greatest and a least coordinate of the vertices of the mesh, and its
    index accessor carries none.  The accessors of the second script and
    those that [append_mesh] of the third script appends, position
    accessors included, carry no bounds at all. *)
Lemma position_bounds_by_variant :
  (forall vs inds (doc : gltf F),
     V1.emit vs inds = Ok doc ->
     exists pos idx hx hy hz lx ly lz,
       accessors doc = [pos; idx] /\
       acc_type pos = "VEC3"%string /\
       acc_max pos = Some [hx; hy; hz] /\
       acc_min pos = Some [lx; ly; lz] /\
       is_max (map (V1.coord 0) vs) hx /\
       is_max (map (V1.coord 1) vs) hy /\
       is_max (map (V1.coord 2) vs) hz /\
       is_min (map (V1.coord 0) vs) lx /\
       is_min (map (V1.coord 1) vs) ly /\
       is_min (map (V1.coord 2) vs) lz /\
       no_bounds idx) /\
  (forall vs inds (doc : gltf F),
     V2.emit vs inds = Ok doc -> Forall no_bounds (accessors doc)) /\
  (forall calls (em : V3.emitter F),
     emit_calls calls V3.empty_emitter = Ok em ->
     Forall no_bounds (V3.em_accessors em)).
Proof.
  split; [ exact v1_position_bounds | ].
  split; [ exact v2_document_no_bounds | exact v3_accessors_carry_no_bounds ].
Qed.

End BoundsOfScripts.

(** Both behaviours on the same four vertices. *)
Lemma position_bounds_on_sample :
  (exists doc pos idx,
     V1.emit (F:=float) (fst (fst sample_group)) (snd (fst sample_group)) = Ok doc /\
     accessors doc = [pos; idx] /\
     (exists hx, In hx (map (V1.coord 0) (fst (fst sample_group))) /\
                 acc_max pos = Some [hx; hx; hx])) /\
  (exists em : V3.emitter float,
     emit_calls [("T"%string, sample_group, 0%Z)] V3.empty_emitter = Ok em /\
     Forall no_bounds (V3.em_accessors em)).
Proof.
  destruct (position_bounds_by_variant (F:=float)) as (Hv1 & _ & Hv3).
  split.
  - destruct (V1.emit (F:=float) (fst (fst sample_group)) (snd (fst sample_group)))
      as [doc | e] eqn:Hemit; [ | vm_compute in Hemit; discriminate ].
    destruct (Hv1 _ _ _ Hemit)
      as (pos & idx & hx & hy & hz & lx & ly & lz
          & Haccs & _ & Hmax & _ & [Hin _] & _).
    exists doc, pos, idx. split; [ reflexivity | ]. split; [ exact Haccs | ].
    exists hx. split; [ exact Hin | ].
    rewrite Hmax.
    vm_compute in Hemit. injection Hemit as <-.
    injection Haccs as <- _. simpl in Hmax.
    injection Hmax as <- <- <-. reflexivity.
  - destruct (emit_calls [("T"%string, sample_group, 0%Z)] V3.empty_emitter)
      as [em | e] eqn:Hrun; [ | vm_compute in Hrun; discriminate ].
    exists em. split; [ reflexivity | ].
    exact (Hv3 _ em Hrun).
Defined.

(** C8.  The specification has the position accessor of every emitted
    group declare the minimum and maximum of the group's vertices, as
    the first script does.  [append_mesh] of the third script, handed a
    group of four vertices, appends a position accessor without
    bounds. *)
Theorem v3_position_accessor_without_bounds :
  exists em pos,
    V3.append_mesh "Slabs" sample_group 0 V3.empty_emitter = Ok em /\
    nth_error (V3.em_accessors em) 0 = Some pos /\
    acc_type pos = "VEC3"%string /\
    acc_count pos = 4 /\
    acc_max pos = None /\
    acc_min pos = None.
Proof.
  do 2 eexists. split; [ vm_compute; reflexivity | ].
  split; [ reflexivity | ]. repeat split.
Qed.

(** The first script on the same four vertices declares the bounds. *)
Example v1_bounds_binary64 :
  exists doc pos idx,
    V1.emit (fst (fst sample_group)) (snd (fst sample_group)) = Ok doc /\
    accessors doc = [pos; idx] /\
    acc_max pos = Some [Binary64.of_Z 5; Binary64.of_Z 5; Binary64.of_Z 5] /\
    acc_min pos = Some [zero; zero; zero].
Proof.
  do 3 eexists. split; [ vm_compute; reflexivity | ].
  split; [ reflexivity | ]. split; reflexivity.
Qed.

(* ================================================================== *)
(** * The groups a layout produces *)
(* ================================================================== *)

(** A loop keeps what its body keeps. *)
Lemma fold_left_invariant {A S : Type} (P : S -> Prop) (body : S -> A -> S)
  (xs : list A) :
  (forall st a, P st -> P (body st a)) ->
  forall st, P st -> P (fold_left body xs st).
Proof.
  intros Hbody. induction xs as [ | x xs IH ]; intros st Hst; simpl.
  - exact Hst.
  - apply IH, Hbody, Hst.
Qed.

Section GroupsValid.
Context {F : Type} `{PyFloat F}.

Lemma valid_triangles_extend (vs v : list (vertex F)) (inds i : list Z) :
  valid_triangles vs inds ->
  valid_triangles v i ->
  valid_triangles (vs ++ v)
    (inds ++ map (fun idx => (idx + Z.of_nat (length vs))%Z) i).
Proof.
  intros [[n Hn] Hinds] [[m Hm] Hi]. split.
  - exists (n + m). rewrite length_app, length_map. lia.
  - apply Forall_app. split.
    + eapply Forall_impl; [ | exact Hinds ].
      intros idx Hidx; cbv beta in *. rewrite length_app. lia.
    + apply Forall_map.
      eapply Forall_impl; [ | exact Hi ].
      intros idx Hidx; cbv beta in *. rewrite length_app. lia.
Qed.

Lemma create_box_valid (w h d tx ty tz : F) :
  valid_triangles (fst (create_box w h d tx ty tz))
                  (snd (create_box w h d tx ty tz)).
Proof.
  split.
  - exists 12. reflexivity.
  - rewrite create_box_vertex_count, create_box_indices.
    apply box_indices_range.
Qed.

Lemma add_box_valid (w h d tx ty tz : F) (st : store (vertex F)) :
  store_valid st ->
  store_valid (let '(v, i) := create_box w h d tx ty tz in add v i st).
Proof.
  intros Hst. pose proof (create_box_valid w h d tx ty tz) as Hbox.
  destruct (create_box w h d tx ty tz) as [v i]. destruct st as [vs inds].
  apply valid_triangles_extend; assumption.
Qed.

Lemma add_mesh_box_valid (w h d tx ty tz : F) (st : buffers_state (vertex F)) :
  buffers_valid st ->
  buffers_valid (let '(v, i) := create_box w h d tx ty tz in add_mesh v i st).
Proof.
  intros [Hoff Hst]. pose proof (create_box_valid w h d tx ty tz) as Hbox.
  destruct (create_box w h d tx ty tz) as [v i]. split; simpl.
  - rewrite length_app, Hoff. lia.
  - rewrite Hoff. apply valid_triangles_extend; assumption.
Qed.

Lemma empty_store_valid : store_valid (F:=F) ([], []).
Proof. split; [ exists 0; reflexivity | constructor ]. Qed.

Lemma v3_columns_loop_valid (p : V3.params F) (grid_size : Z) (spacing y : F)
  (st : store (vertex F)) :
  store_valid st -> store_valid (V3.columns_loop p grid_size spacing y st).
Proof.
  unfold V3.columns_loop. apply fold_left_invariant. intros st' gx.
  apply fold_left_invariant. intros st'' gz. apply add_box_valid.
Qed.

Lemma v3_beams_loop_valid (p : V3.params F) (grid_size : Z) (spacing y : F)
  (st : store (vertex F)) :
  store_valid st -> store_valid (V3.beams_loop p grid_size spacing y st).
Proof.
  unfold V3.beams_loop. apply fold_left_invariant. intros st' gz.
  apply fold_left_invariant. intros st'' gx. apply add_box_valid.
Qed.

Lemma v3_floor_body_valid (p : V3.params F) (grid_size : Z) (spacing : F)
  (st : V3.stores F) (f : Z) :
  stores_valid st -> stores_valid (V3.floor_body p grid_size spacing st f).
Proof.
  intros (Hslabs & Hcols & Hbeams & Hspatial & Hcore & Hwalls).
  unfold V3.floor_body, stores_valid; simpl.
  split; [ apply add_box_valid; assumption | ].
  split.
  { destruct (f <? V3.floors p - 1)%Z;
      [ apply v3_columns_loop_valid | ]; assumption. }
  split.
  { destruct (f <? V3.floors p - 1)%Z;
      [ apply v3_beams_loop_valid | ]; assumption. }
  split; [ apply add_box_valid; assumption | ].
  split; assumption.
Qed.

Lemma v3_fill_stores_valid (p : V3.params F) (grid_size : Z) (spacing : F) :
  stores_valid (V3.fill_stores p grid_size spacing).
Proof.
  unfold V3.fill_stores.
  assert (Hloop : stores_valid
                    (fold_left (V3.floor_body p grid_size spacing)
                       (py_range (V3.floors p)) V3.empty_stores)).
  { apply fold_left_invariant.
    - intros st f. apply v3_floor_body_valid.
    - repeat split; try (exists 0; reflexivity); constructor. }
  destruct Hloop as (Hslabs & Hcols & Hbeams & Hspatial & Hcore & Hwalls).
  unfold stores_valid; simpl.
  repeat (split; [ assumption | ]).
  split.
  - unfold V3.core_loop. apply fold_left_invariant; [ | assumption ].
    intros st f. apply add_box_valid.
  - unfold V3.walls_loop. apply fold_left_invariant; [ | assumption ].
    intros st f. apply add_box_valid.
Qed.

(** Every group [build_structure] returns satisfies the mesh group
    invariant. *)
Lemma build_structure_groups_valid (p : V3.params F) (grid_size : Z)
  (lod : list (string * V3.group F)) :
  V3.build_structure p grid_size = Ok lod ->
  Forall (fun entry =>
            valid_triangles (fst (fst (snd entry))) (snd (fst (snd entry))))
         lod.
Proof.
  unfold V3.build_structure. intros Hb.
  apply bind_ok in Hb. destruct Hb as (spacing & _ & Hb).
  injection Hb as <-.
  destruct (v3_fill_stores_valid p grid_size spacing)
    as (Hslabs & Hcols & Hbeams & Hspatial & Hcore & Hwalls).
  repeat (apply Forall_cons; [ simpl; assumption | ]).
  apply Forall_nil.
Qed.

Lemma v2_floor_body_valid (p : V2.params F) (spacing : F)
  (st : buffers_state (vertex F)) (f : Z) :
  buffers_valid st -> buffers_valid (V2.floor_body p spacing st f).
Proof.
  intros Hst. unfold V2.floor_body.
  assert (Hslab : buffers_valid
            (V2.add_box (create_box (V2.building_width p) (V2.slab_thickness p)
                           (V2.building_width p) zero
                           (f_of_Z f * V2.floor_height p)%flt zero) st))
    by (apply add_mesh_box_valid; exact Hst).
  destruct (f <? V2.floors p - 1)%Z; [ | exact Hslab ].
  unfold V2.brace. apply add_mesh_box_valid.
  unfold V2.beams_z_loop. apply fold_left_invariant.
  { intros st' gx. apply fold_left_invariant. intros st'' gz.
    apply add_mesh_box_valid. }
  unfold V2.beams_x_loop. apply fold_left_invariant.
  { intros st' gz. apply fold_left_invariant. intros st'' gx.
    apply add_mesh_box_valid. }
  unfold V2.columns_loop. apply fold_left_invariant.
  { intros st' gx. apply fold_left_invariant. intros st'' gz.
    apply add_mesh_box_valid. }
  exact Hslab.
Qed.

(** The merged mesh of the second script satisfies the invariant, and
    its running offset is its number of vertices. *)
Lemma v2_build_geometry_valid (p : V2.params F) (st : buffers_state (vertex F)) :
  V2.build_geometry p = Ok st -> buffers_valid st.
Proof.
  unfold V2.build_geometry. intros Hb.
  apply bind_ok in Hb. destruct Hb as (spacing & _ & Hb).
  injection Hb as <-.
  unfold V2.core_loop. apply fold_left_invariant.
  { intros st' f. apply add_mesh_box_valid. }
  unfold V2.walls_loop. apply fold_left_invariant.
  { intros st' f. apply add_mesh_box_valid. }
  apply fold_left_invariant.
  { intros st' f. apply v2_floor_body_valid. }
  split; [ reflexivity | ].
  split; [ exists 0; reflexivity | constructor ].
Qed.

End GroupsValid.

(** In real arithmetic the normal estimator returns on every group of
    every layout, with one normal per vertex. *)
Lemma build_structure_normals_real (p : V3.params R) (grid_size : Z)
  (lod : list (string * V3.group R)) :
  V3.build_structure p grid_size = Ok lod ->
  Forall (fun entry =>
            exists normals,
              compute_normals (fst (fst (snd entry))) (snd (fst (snd entry)))
              = Ok normals /\
              length normals = length (fst (fst (snd entry))))
         lod.
Proof.
  intros Hb. apply build_structure_groups_valid in Hb.
  eapply Forall_impl; [ | exact Hb ].
  intros entry Hvalid.
  destruct (normal_estimator_real _ _ Hvalid)
    as (acc & out & _ & Hout & Hlen & _).
  exists out. split; assumption.
Qed.

(* ================================================================== *)
(** * A run of the third script in binary64 *)
(* ================================================================== *)

(** Two floors, a grid of three by three and one of two by two. *)
Definition small_building : V3.params float :=
  {| V3.floors := 2; V3.floor_height := dec 35 10;
     V3.building_width := Binary64.of_Z 20;
     V3.grid_L0 := 3; V3.grid_L1 := 2;
     V3.column_size := dec 4 10; V3.beam_height := dec 5 10;
     V3.beam_width := dec 4 10; V3.slab_thickness := dec 3 10;
     V3.core_size := Binary64.of_Z 4; V3.wall_thickness := dec 3 10 |}.

(** The script returns on it: twelve nodes, all of them scene roots, 36
    buffer views and as many accessors over a buffer of 33 boxes of 336
    bytes each. *)
Example generate_small_building :
  exists doc,
    V3.generate small_building = Ok doc /\
    map buf_byteLength (buffers doc) = [33 * 336] /\
    length (bufferViews doc) = 36 /\
    length (accessors doc) = 36 /\
    map node_name (nodes doc)
    = [ Some "Slabs_LOD0"; Some "Columns_LOD0"; Some "Beams_LOD0";
        Some "Core_LOD0"; Some "Walls_LOD0"; Some "SpatialZones_LOD0";
        Some "Slabs_LOD1"; Some "Columns_LOD1"; Some "Beams_LOD1";
        Some "Core_LOD1"; Some "Walls_LOD1"; Some "SpatialZones_LOD1" ]%string /\
    scenes doc = [ seq 0 12 ].
Proof.
  eexists. split; [ vm_compute; reflexivity | ].
  repeat split; vm_compute; reflexivity.
Qed.

(* ================================================================== *)
(** * The encoders on known values *)
(* ================================================================== *)

(** [struct.pack('<f', x)] on 1.0, 3.5, 0.1 and -10.0 gives the
    patterns 3f800000, 40600000, 3dcccccd and c1200000; a value beyond
    the range of binary32 raises. *)
Example pack_bits_known_values :
  map Binary64.pack_bits
      [ Binary64.of_Z 1; dec 35 10; dec 1 10; Binary64.of_Z (-10);
        Binary64.of_Z (10 ^ 39) ]
  = [ Ok 1065353216%Z; Ok 1080033280%Z; Ok 1036831949%Z; Ok 3240099840%Z;
      Raise OverflowError ].
Proof. vm_compute. reflexivity. Qed.

Example pack_3f_little_endian :
  pack_3f (F:=float) (Binary64.of_Z 1, zero, Binary64.of_Z (-10))
  = Ok [ x00; x00; x80; x3f; x00; x00; x00; x00; x00; x00; x20; xc1 ].
Proof. vm_compute. reflexivity. Qed.

Example pack_I_known_values :
  map pack_I [ 7%Z; 258%Z; 4294967296%Z; (-1)%Z ]
  = [ Ok [x07; x00; x00; x00]; Ok [x02; x01; x00; x00];
      Raise StructError; Raise StructError ].
Proof. vm_compute. reflexivity. Qed.

Example b64encode_known_values :
  map b64encode
      [ [ "M"; "a"; "n" ]; [ "M"; "a" ]; [ "M" ]; [ xff; xfe; x00; x10 ] ]%byte
  = [ "TWFu"; "TWE="; "TQ=="; "//4AEA==" ]%string.
Proof. vm_compute. reflexivity. Qed.

(** [x ** 2] raises when the square of a finite number overflows. *)
Example pow2_overflow :
  Binary64.pow2 (Binary64.of_Z (10 ^ 200)) = Raise OverflowError /\
  Binary64.pow2 PrimFloat.infinity = Ok PrimFloat.infinity.
Proof. split; vm_compute; reflexivity. Qed.

(* ================================================================== *)
(** * Mesh aggregator: what the merged mesh draws *)
(* ================================================================== *)

Section Corners.
Context {V : Type}.

Lemma py_get_app_l (vs extra : list V) (idx : Z) :
  (0 <= idx < Z.of_nat (length vs))%Z ->
  py_get (vs ++ extra) idx = py_get vs idx.
Proof.
  intros Hidx. unfold py_get.
  rewrite !py_norm_index_valid by (rewrite ?length_app; lia). simpl.
  rewrite nth_error_app1 by lia. reflexivity.
Qed.

Lemma py_get_app_r (vs v : list V) (idx : Z) :
  (0 <= idx < Z.of_nat (length v))%Z ->
  py_get (vs ++ v) (idx + Z.of_nat (length vs)) = py_get v idx.
Proof.
  intros Hidx. unfold py_get.
  rewrite !py_norm_index_valid by (rewrite ?length_app; lia). simpl.
  rewrite nth_error_app2 by lia.
  replace (Z.to_nat (idx + Z.of_nat (length vs)) - length vs)
    with (Z.to_nat idx) by lia.
  reflexivity.
Qed.

Lemma corners_app (vs : list V) (i1 i2 : list Z) :
  corners vs (i1 ++ i2) = corners vs i1 ++ corners vs i2.
Proof. apply map_app. Qed.

Lemma corners_grow (vs extra : list V) (inds : list Z) :
  Forall (fun idx => (0 <= idx < Z.of_nat (length vs))%Z) inds ->
  corners (vs ++ extra) inds = corners vs inds.
Proof.
  unfold corners. induction 1 as [ | idx inds Hidx _ IH ]; simpl.
  - reflexivity.
  - rewrite IH, py_get_app_l by assumption. reflexivity.
Qed.

Lemma corners_shift (vs v : list V) (i : list Z) :
  Forall (fun idx => (0 <= idx < Z.of_nat (length v))%Z) i ->
  corners (vs ++ v) (map (fun idx => (idx + Z.of_nat (length vs))%Z) i)
  = corners v i.
Proof.
  unfold corners. induction 1 as [ | idx i Hidx _ IH ]; simpl.
  - reflexivity.
  - rewrite IH, py_get_app_r by assumption. reflexivity.
Qed.

Lemma valid_grow (vs extra : list V) (inds : list Z) :
  Forall (fun idx => (0 <= idx < Z.of_nat (length vs))%Z) inds ->
  Forall (fun idx => (0 <= idx < Z.of_nat (length (vs ++ extra)))%Z) inds.
Proof.
  intros Hv. eapply Forall_impl; [ | exact Hv ].
  intros idx Hidx; cbv beta in *. rewrite length_app. lia.
Qed.

Lemma valid_shift (vs v : list V) (i : list Z) :
  Forall (fun idx => (0 <= idx < Z.of_nat (length v))%Z) i ->
  Forall (fun idx => (0 <= idx < Z.of_nat (length (vs ++ v)))%Z)
    (map (fun idx => (idx + Z.of_nat (length vs))%Z) i).
Proof.
  intros Hv. apply Forall_map. eapply Forall_impl; [ | exact Hv ].
  intros idx Hidx; cbv beta in *. rewrite length_app. lia.
Qed.

Lemma add_all_corners (calls : list (list V * list Z)) :
  Forall call_valid calls ->
  forall st : store V,
    call_valid st ->
    let st' := add_all calls st in
    call_valid st' /\
    corners (fst st') (snd st')
    = corners (fst st) (snd st)
      ++ concat (map (fun c => corners (fst c) (snd c)) calls).
Proof.
  induction 1 as [ | c calls Hc _ IH ]; intros st Hst; simpl.
  - split; [ exact Hst | rewrite app_nil_r; reflexivity ].
  - destruct (IH (add (fst c) (snd c) st)) as [Hvalid Hcorners].
    { unfold call_valid. rewrite add_vertices, add_indices.
      apply Forall_app; split;
        [ apply valid_grow; exact Hst | apply valid_shift; exact Hc ]. }
    unfold add_all in *. simpl. split; [ exact Hvalid | ].
    rewrite Hcorners, add_vertices, add_indices, corners_app.
    rewrite corners_grow by exact Hst.
    rewrite corners_shift by exact Hc.
    rewrite <- app_assoc. reflexivity.
Qed.

Lemma add_mesh_all_corners (calls : list (list V * list Z)) :
  Forall call_valid calls ->
  forall st : buffers_state V,
    offset st = Z.of_nat (length (all_vertices st)) ->
    call_valid (all_vertices st, all_indices st) ->
    let st' := add_mesh_all calls st in
    offset st' = Z.of_nat (length (all_vertices st')) /\
    call_valid (all_vertices st', all_indices st') /\
    corners (all_vertices st') (all_indices st')
    = corners (all_vertices st) (all_indices st)
      ++ concat (map (fun c => corners (fst c) (snd c)) calls).
Proof.
  induction 1 as [ | c calls Hc _ IH ]; intros st Hoff Hst; simpl.
  - split; [ exact Hoff | ].
    split; [ exact Hst | rewrite app_nil_r; reflexivity ].
  - destruct (IH (add_mesh (fst c) (snd c) st)) as (Hoff' & Hvalid & Hcorners).
    { simpl. rewrite length_app, Hoff. lia. }
    { unfold call_valid; simpl. rewrite Hoff.
      apply Forall_app; split;
        [ apply valid_grow; exact Hst | apply valid_shift; exact Hc ]. }
    unfold add_mesh_all in *. simpl.
    split; [ exact Hoff' | ]. split; [ exact Hvalid | ].
    rewrite Hcorners. simpl. rewrite Hoff, corners_app.
    rewrite corners_grow by exact Hst.
    rewrite corners_shift by exact Hc.
    rewrite <- app_assoc. reflexivity.
Qed.

(** X1.  Re-basing keeps the geometry: whatever sequence of meshes is
    added to an empty store, if each mesh brings indices that are
    positions of its own vertex list, then reading the merged index
    list against the merged vertex list gives, in order, exactly the
    corners each mesh drew on its own, none of them an error.  This
    holds of [add] (third script) and of [add_mesh] (second script; the
    first repeats its three statements). *)
Theorem aggregation_keeps_corners (calls : list (list V * list Z)) :
  Forall call_valid calls ->
  let drawn := concat (map (fun c => corners (fst c) (snd c)) calls) in
  (let st := add_all calls ([], []) in
   corners (fst st) (snd st) = drawn) /\
  (let st := add_mesh_all calls empty_buffers in
   corners (all_vertices st) (all_indices st) = drawn) /\
  Forall (fun r => exists v, r = Ok v) drawn.
Proof.
  intros Hcalls drawn. split; [ | split ].
  - destruct (add_all_corners calls Hcalls ([], [])) as [_ Hc].
    { constructor. }
    exact Hc.
  - destruct (add_mesh_all_corners calls Hcalls empty_buffers) as (_ & _ & Hc).
    { reflexivity. }
    { constructor. }
    exact Hc.
  - subst drawn. induction Hcalls as [ | c calls Hc _ IH ]; simpl.
    + constructor.
    + apply Forall_app; split; [ | exact IH ].
      unfold corners. apply Forall_map.
      eapply Forall_impl; [ | exact Hc ].
      intros idx Hidx. destruct (py_get_valid (fst c) idx Hidx) as [v [Hv _]].
      exists v. exact Hv.
Qed.

End Corners.

Lemma aggregation_keeps_corners_witness :
  let tri : list nat * list Z := ([7; 8; 9]%nat, [0; 1; 2]%Z) in
  let quad : list nat * list Z := ([3; 4; 5; 6]%nat, [0; 1; 2; 2; 3; 0]%Z) in
  Forall call_valid [quad; tri] /\
  (let st := add_all [quad; tri] ([], []) in
   snd st = [0; 1; 2; 2; 3; 0; 4; 5; 6]%Z /\
   corners (fst st) (snd st)
   = map Ok [3; 4; 5; 5; 6; 3; 7; 8; 9]%nat).
Proof.
  intros tri quad.
  assert (Hvalid : Forall call_valid [quad; tri]).
  { repeat constructor; simpl; lia. }
  split; [ exact Hvalid | ].
  destruct (aggregation_keeps_corners [quad; tri] Hvalid) as (Hadd & _ & _).
  split; [ reflexivity | ].
  rewrite Hadd. reflexivity.
Defined.

(* ================================================================== *)
(** * The normals of a merged mesh *)
(* ================================================================== *)

Lemma update_nth_app_l {A : Type} (k : nat) (f : A -> A) (xs post : list A) :
  k < length xs -> update_nth k f (xs ++ post) = update_nth k f xs ++ post.
Proof.
  revert k. induction xs as [ | x xs IH ]; intros k Hk; simpl in Hk; [ lia | ].
  destruct k as [ | k ]; simpl; [ reflexivity | ].
  rewrite IH by lia. reflexivity.
Qed.

Lemma update_nth_app_r {A : Type} (k : nat) (f : A -> A) (pre xs : list A) :
  update_nth (length pre + k) f (pre ++ xs) = pre ++ update_nth k f xs.
Proof.
  induction pre as [ | x pre IH ]; simpl; [ reflexivity | ].
  rewrite IH. reflexivity.
Qed.

Lemma mapM_app {A B : Type} (f : A -> result B) (xs ys : list A) :
  mapM f (xs ++ ys)
  = bind (mapM f xs) (fun a => bind (mapM f ys) (fun b => Ok (a ++ b))).
Proof.
  induction xs as [ | x xs IH ]; cbn [app mapM bind].
  - destruct (mapM f ys); reflexivity.
  - destruct (f x) as [y | e]; cbn [bind]; [ | reflexivity ].
    rewrite IH. destruct (mapM f xs) as [a | e]; cbn [bind]; [ | reflexivity ].
    destruct (mapM f ys); reflexivity.
Qed.

Section MergedNormals.
Context {F : Type} `{PyFloat F}.

Lemma accumulate_at_block (nv : vertex F) (idx : Z)
  (npre n npost : list (vertex F)) :
  (0 <= idx < Z.of_nat (length n))%Z ->
  accumulate_at nv (idx + Z.of_nat (length npre)) (npre ++ n ++ npost)
  = Ok (npre ++ update_nth (Z.to_nat idx) (add_to nv) n ++ npost).
Proof.
  intros Hidx. rewrite accumulate_at_valid by (rewrite !length_app; lia).
  replace (Z.to_nat (idx + Z.of_nat (length npre)))
    with (length npre + Z.to_nat idx) by lia.
  rewrite update_nth_app_r, update_nth_app_l by lia. reflexivity.
Qed.

Lemma py_get_block (pre v post : list (vertex F)) (idx : Z) :
  (0 <= idx < Z.of_nat (length v))%Z ->
  py_get (pre ++ v ++ post) (idx + Z.of_nat (length pre)) = py_get v idx.
Proof.
  intros Hidx. rewrite py_get_app_r by (rewrite length_app; lia).
  apply py_get_app_l. exact Hidx.
Qed.

(** The loop on triangles that all lie in one block of the vertex list
    touches the slots of that block only, and does there what it does
    on the block alone. *)
Lemma accumulate_block (pre v post npre npost : list (vertex F)) (k : nat) :
  length npre = length pre ->
  forall (inds : list Z) (n : list (vertex F)),
    length inds = 3 * k ->
    Forall (fun idx => (0 <= idx < Z.of_nat (length v))%Z) inds ->
    length n = length v ->
    exists n',
      accumulate v inds n = Ok n' /\
      length n' = length v /\
      accumulate (pre ++ v ++ post)
        (map (fun idx => (idx + Z.of_nat (length pre))%Z) inds)
        (npre ++ n ++ npost)
      = Ok (npre ++ n' ++ npost).
Proof.
  intros Hpre. induction k as [ | k IH ]; intros inds n Hlen Hvalid Hn.
  - destruct inds; [ | discriminate ]. exists n. repeat split; assumption.
  - destruct inds as [ | i0 [ | i1 [ | i2 rest ] ] ]; simpl in Hlen; try lia.
    inversion Hvalid as [ | ? ? H0 Hv1 ]; subst.
    inversion Hv1 as [ | ? ? H1 Hv2 ]; subst.
    inversion Hv2 as [ | ? ? H2 Hrest ]; subst.
    destruct (py_get_valid v i0 H0) as (v0 & Hg0 & _).
    destruct (py_get_valid v i1 H1) as (v1 & Hg1 & _).
    destruct (py_get_valid v i2 H2) as (v2 & Hg2 & _).
    set (nv := face_normal v0 v1 v2).
    set (n0 := update_nth (Z.to_nat i0) (add_to nv) n).
    set (n1 := update_nth (Z.to_nat i1) (add_to nv) n0).
    set (n2 := update_nth (Z.to_nat i2) (add_to nv) n1).
    assert (Hl0 : length n0 = length v)
      by (subst n0; rewrite update_nth_length; exact Hn).
    assert (Hl1 : length n1 = length v)
      by (subst n1; rewrite update_nth_length; exact Hl0).
    assert (Hl2 : length n2 = length v)
      by (subst n2; rewrite update_nth_length; exact Hl1).
    destruct (IH rest n2 ltac:(lia) Hrest Hl2) as (n' & Hn' & Hln' & Hblock).
    exists n'. split; [ | split; [ exact Hln' | ] ].
    + cbn [accumulate]. rewrite Hg0, Hg1, Hg2. cbn [bind]. fold nv.
      rewrite accumulate_at_valid by (rewrite Hn; exact H0). cbn [bind]. fold n0.
      rewrite accumulate_at_valid by (rewrite Hl0; exact H1). cbn [bind]. fold n1.
      rewrite accumulate_at_valid by (rewrite Hl1; exact H2). cbn [bind]. fold n2.
      exact Hn'.
    + cbn [map accumulate]. rewrite !py_get_block by assumption.
      rewrite Hg0, Hg1, Hg2. cbn [bind]. fold nv.
      rewrite <- Hpre.
      rewrite accumulate_at_block by (rewrite Hn; exact H0). cbn [bind]. fold n0.
      rewrite accumulate_at_block by (rewrite Hl0; exact H1). cbn [bind]. fold n1.
      rewrite accumulate_at_block by (rewrite Hl1; exact H2). cbn [bind]. fold n2.
      rewrite Hpre. exact Hblock.
Qed.

Lemma accumulate_app (vertices : list (vertex F)) (k : nat) :
  forall (a b : list Z) (n : list (vertex F)),
    length a = 3 * k ->
    accumulate vertices (a ++ b) n
    = bind (accumulate vertices a n) (accumulate vertices b).
Proof.
  induction k as [ | k IH ]; intros a b n Hlen.
  - destruct a; [ reflexivity | discriminate ].
  - destruct a as [ | i0 [ | i1 [ | i2 rest ] ] ]; simpl in Hlen; try lia.
    cbn [app accumulate].
    destruct (py_get vertices i0); cbn [bind]; [ | reflexivity ].
    destruct (py_get vertices i1); cbn [bind]; [ | reflexivity ].
    destruct (py_get vertices i2); cbn [bind]; [ | reflexivity ].
    destruct (accumulate_at _ i0 n); cbn [bind]; [ | reflexivity ].
    destruct (accumulate_at _ i1 _); cbn [bind]; [ | reflexivity ].
    destruct (accumulate_at _ i2 _); cbn [bind]; [ | reflexivity ].
    apply IH. lia.
Qed.

(** Adding one mesh to a store: the normals of what was there do not
    change, and those of the new mesh are the ones it has alone. *)
Lemma compute_normals_add (vs v : list (vertex F)) (inds i : list Z) :
  valid_triangles vs inds ->
  valid_triangles v i ->
  compute_normals (vs ++ v)
    (inds ++ map (fun idx => (idx + Z.of_nat (length vs))%Z) i)
  = bind (compute_normals vs inds)
      (fun ns => bind (compute_normals v i) (fun nv => Ok (ns ++ nv))).
Proof.
  intros [[k Hk] Hvalid] [[j Hj] Hvalid'].
  unfold compute_normals. rewrite map_app.
  set (zs := map (fun _ : vertex F => (zero, zero, zero)) vs).
  set (zv := map (fun _ : vertex F => (zero, zero, zero)) v).
  assert (Hzs : length zs = length vs) by apply length_map.
  assert (Hzv : length zv = length v) by apply length_map.
  rewrite (accumulate_app (vs ++ v) k) by exact Hk.
  destruct (accumulate_block [] vs v [] zv k eq_refl inds zs Hk Hvalid Hzs)
    as (acc_s & Hacc_s & Hls & Hfirst).
  cbn [app length] in Hfirst.
  replace (map (fun idx => (idx + Z.of_nat 0)%Z) inds) with inds in Hfirst
    by (symmetry; erewrite map_ext; [ apply map_id | intros; simpl; lia ]).
  destruct (accumulate_block vs v [] acc_s [] j Hls i zv Hj Hvalid' Hzv)
    as (acc_v & Hacc_v & Hlv & Hsecond).
  rewrite !app_nil_r in Hsecond.
  unfold vertex in *.
  rewrite Hfirst, Hacc_s. cbn [bind].
  rewrite Hsecond, Hacc_v. cbn [bind].
  apply mapM_app.
Qed.

Lemma valid_triangles_add (vs v : list (vertex F)) (inds i : list Z) :
  valid_triangles vs inds ->
  valid_triangles v i ->
  valid_triangles (vs ++ v)
    (inds ++ map (fun idx => (idx + Z.of_nat (length vs))%Z) i).
Proof.
  intros [[k Hk] Hvalid] [[j Hj] Hvalid']. split.
  - exists (k + j). rewrite length_app, length_map. lia.
  - apply Forall_app. split.
    + eapply Forall_impl; [ | exact Hvalid ].
      intros idx Hidx; cbv beta in *. rewrite length_app. lia.
    + apply Forall_map. eapply Forall_impl; [ | exact Hvalid' ].
      intros idx Hidx; cbv beta in *. rewrite length_app. lia.
Qed.

Lemma add_all_normals (calls : list (list (vertex F) * list Z)) :
  Forall whole_valid calls ->
  forall st : store (vertex F),
    whole_valid st ->
    let st' := add_all calls st in
    compute_normals (fst st') (snd st')
    = bind (compute_normals (fst st) (snd st))
        (fun ns =>
           bind (mapM (fun c => compute_normals (fst c) (snd c)) calls)
             (fun chunks => Ok (ns ++ concat chunks))).
Proof.
  induction 1 as [ | c calls Hc _ IH ]; intros st Hst; cbn [add_all fold_left].
  - cbn [mapM bind concat].
    destruct (compute_normals (fst st) (snd st)); cbn [bind];
      [ rewrite app_nil_r | ]; reflexivity.
  - change (fold_left (fun st c => add (fst c) (snd c) st) calls
              (add (fst c) (snd c) st))
      with (add_all calls (add (fst c) (snd c) st)).
    rewrite IH.
    + rewrite add_vertices, add_indices.
      rewrite (compute_normals_add _ _ _ _ Hst Hc).
      cbn [mapM].
      destruct (compute_normals (fst st) (snd st)) as [ns | e]; cbn [bind];
        [ | reflexivity ].
      destruct (compute_normals (fst c) (snd c)) as [nv | e]; cbn [bind];
        [ | reflexivity ].
      destruct (mapM _ calls) as [chunks | e]; cbn [bind concat];
        [ rewrite app_assoc | ]; reflexivity.
    + unfold whole_valid. rewrite add_vertices, add_indices.
      apply valid_triangles_add; assumption.
Qed.

Lemma add_mesh_all_as_add_all (calls : list (list (vertex F) * list Z)) :
  forall st : buffers_state (vertex F),
    offset st = Z.of_nat (length (all_vertices st)) ->
    (all_vertices (add_mesh_all calls st), all_indices (add_mesh_all calls st))
    = add_all calls (all_vertices st, all_indices st).
Proof.
  induction calls as [ | c calls IH ]; intros st Hoff; [ reflexivity | ].
  unfold add_mesh_all, add_all in *. cbn [fold_left].
  rewrite IH.
  - cbn [add_mesh all_vertices all_indices add]. rewrite Hoff. reflexivity.
  - cbn [add_mesh all_vertices offset]. rewrite length_app, Hoff. lia.
Qed.

(** X2.  Merging meshes does not change their normals.  Whatever
    sequence of meshes is added to an empty store, each of them whole
    triangles over its own vertices, [compute_normals] on the merged
    mesh gives the normals [compute_normals] gives on each mesh alone,
    one mesh after the other, or raises what the first failing mesh
    raises: boxes share no vertex, so no normal is averaged across two
    boxes.  The same holds of the buffers [add_mesh] fills. *)
Theorem merged_normals_are_per_mesh (calls : list (list (vertex F) * list Z)) :
  Forall whole_valid calls ->
  let per_mesh :=
    bind (mapM (fun c => compute_normals (fst c) (snd c)) calls)
      (fun chunks => Ok (concat chunks)) in
  (let st := add_all calls ([], []) in
   compute_normals (fst st) (snd st) = per_mesh) /\
  (let st := add_mesh_all calls empty_buffers in
   compute_normals (all_vertices st) (all_indices st) = per_mesh).
Proof.
  intros Hcalls per_mesh.
  assert (Hadd : let st := add_all calls ([], []) in
                 compute_normals (fst st) (snd st) = per_mesh).
  { cbv zeta. rewrite (add_all_normals calls Hcalls ([], [])).
    - subst per_mesh. unfold compute_normals at 1. cbn [map accumulate fst snd bind mapM].
      destruct (mapM _ calls); reflexivity.
    - split; [ exists 0; reflexivity | constructor ]. }
  split; [ exact Hadd | ].
  cbv zeta in *.
  pose proof (add_mesh_all_as_add_all calls empty_buffers eq_refl) as Hsame.
  cbn [empty_buffers all_vertices all_indices] in Hsame.
  rewrite <- Hsame in Hadd. exact Hadd.
Qed.

End MergedNormals.

Lemma merged_normals_are_per_mesh_witness :
  let tri : list (vertex float) * list Z :=
    ([ (zero, zero, zero); (f_of_Z 1, zero, zero); (zero, f_of_Z 1, zero) ],
     [0; 1; 2]%Z) in
  let box : list (vertex float) * list Z :=
    create_box (f_of_Z 2) (f_of_Z 4) (f_of_Z 6) zero zero zero in
  Forall whole_valid [tri; box] /\
  exists nt nb,
    compute_normals (fst tri) (snd tri) = Ok nt /\
    compute_normals (fst box) (snd box) = Ok nb /\
    (let st := add_all [tri; box] ([], []) in
     compute_normals (fst st) (snd st) = Ok (nt ++ nb)).
Proof.
  intros tri box.
  assert (Hvalid : Forall whole_valid [tri; box]).
  { repeat constructor; try (exists 1; reflexivity);
      try (exists 12; reflexivity); simpl; lia. }
  split; [ exact Hvalid | ].
  destruct (merged_normals_are_per_mesh [tri; box] Hvalid) as [Hadd _].
  destruct (compute_normals (fst tri) (snd tri)) as [nt | e] eqn:Ht;
    [ | vm_compute in Ht; discriminate ].
  destruct (compute_normals (fst box) (snd box)) as [nb | e] eqn:Hb;
    [ | vm_compute in Hb; discriminate ].
  exists nt, nb. split; [ reflexivity | ]. split; [ reflexivity | ].
  cbv zeta in Hadd |- *. rewrite Hadd. cbn [mapM bind].
  rewrite Ht. cbn [bind]. rewrite Hb. cbn [bind concat].
  rewrite app_nil_r. reflexivity.
Defined.

(* ================================================================== *)
(** * Normal estimator: what it does with a bad index list *)
(* ================================================================== *)

Lemma py_index_ok_dec (len : nat) (idx : Z) :
  {py_index_ok len idx} + {~ py_index_ok len idx}.
Proof.
  unfold py_index_ok.
  destruct (Z_le_dec (- Z.of_nat len) idx); [ | right; lia ].
  destruct (Z_lt_dec idx (Z.of_nat len)); [ left | right ]; lia.
Qed.

Lemma py_norm_index_ok (len : nat) (idx : Z) :
  py_index_ok len idx ->
  py_norm_index len idx = Ok (Z.to_nat (py_wrap len idx)) /\
  (0 <= py_wrap len idx < Z.of_nat len)%Z.
Proof.
  unfold py_index_ok, py_norm_index, py_wrap. intros Hok.
  destruct (Z.leb_spec 0 idx), (Z.ltb_spec idx 0); try lia.
  - destruct (Z.ltb_spec idx (Z.of_nat len)); [ | lia ].
    split; [ reflexivity | lia ].
  - destruct (Z.leb_spec (- Z.of_nat len) idx); [ | lia ].
    split; [ reflexivity | lia ].
Qed.

Lemma py_norm_index_bad (len : nat) (idx : Z) :
  ~ py_index_ok len idx -> py_norm_index len idx = Raise IndexError.
Proof.
  unfold py_index_ok, py_norm_index. intros Hbad.
  destruct (Z.leb_spec 0 idx).
  - destruct (Z.ltb_spec idx (Z.of_nat len)); [ lia | reflexivity ].
  - destruct (Z.leb_spec (- Z.of_nat len) idx); [ lia | reflexivity ].
Qed.

Lemma py_wrap_idempotent (len : nat) (idx : Z) :
  py_index_ok len idx -> py_wrap len (py_wrap len idx) = py_wrap len idx.
Proof.
  unfold py_index_ok, py_wrap. intros Hok.
  destruct (Z.ltb_spec idx 0).
  - destruct (Z.ltb_spec (Z.of_nat len + idx) 0); [ lia | reflexivity ].
  - destruct (Z.ltb_spec idx 0); [ lia | reflexivity ].
Qed.

Lemma py_wrap_ok (len : nat) (idx : Z) :
  py_index_ok len idx -> py_index_ok len (py_wrap len idx).
Proof.
  intros Hok. destruct (py_norm_index_ok len idx Hok) as [_ Hw].
  unfold py_index_ok. lia.
Qed.

Lemma py_norm_index_wrap (len : nat) (idx : Z) :
  py_index_ok len idx ->
  py_norm_index len (py_wrap len idx) = py_norm_index len idx.
Proof.
  intros Hok.
  destruct (py_norm_index_ok len idx Hok) as [-> _].
  destruct (py_norm_index_ok len _ (py_wrap_ok len idx Hok)) as [-> _].
  rewrite py_wrap_idempotent by exact Hok. reflexivity.
Qed.

Lemma py_get_ok {A : Type} (xs : list A) (idx : Z) :
  py_index_ok (length xs) idx -> exists x, py_get xs idx = Ok x.
Proof.
  intros Hok. unfold py_get.
  destruct (py_norm_index_ok _ _ Hok) as [-> Hw]. simpl.
  destruct (nth_error xs (Z.to_nat (py_wrap (length xs) idx))) as [x | ] eqn:Hx.
  - exists x. reflexivity.
  - apply nth_error_None in Hx. lia.
Qed.

Lemma py_get_bad {A : Type} (xs : list A) (idx : Z) :
  ~ py_index_ok (length xs) idx -> py_get xs idx = Raise IndexError.
Proof.
  intros Hbad. unfold py_get. rewrite py_norm_index_bad by exact Hbad.
  reflexivity.
Qed.

Lemma py_get_wrap {A : Type} (xs : list A) (idx : Z) :
  py_index_ok (length xs) idx ->
  py_get xs (py_wrap (length xs) idx) = py_get xs idx.
Proof.
  intros Hok. unfold py_get. rewrite py_norm_index_wrap by exact Hok.
  reflexivity.
Qed.

Section BadIndexLists.
Context {F : Type} `{PyFloat F}.

Lemma accumulate_at_ok (n : vertex F) (idx : Z) (normals : list (vertex F)) :
  py_index_ok (length normals) idx ->
  exists normals',
    accumulate_at n idx normals = Ok normals' /\
    length normals' = length normals.
Proof.
  intros Hok. unfold accumulate_at.
  destruct (py_norm_index_ok _ _ Hok) as [-> _]. simpl.
  eexists. split; [ reflexivity | apply update_nth_length ].
Qed.

Lemma accumulate_at_wrap (n : vertex F) (idx : Z) (normals : list (vertex F)) :
  py_index_ok (length normals) idx ->
  accumulate_at n (py_wrap (length normals) idx) normals
  = accumulate_at n idx normals.
Proof.
  intros Hok. unfold accumulate_at. rewrite py_norm_index_wrap by exact Hok.
  reflexivity.
Qed.

(** One pass of the loop body on a triangle whose three indices Python
    accepts: it returns, and a negative index does what the position
    it stands for does. *)
Lemma accumulate_step (vertices : list (vertex F)) (i0 i1 i2 : Z)
  (normals : list (vertex F)) :
  length normals = length vertices ->
  py_index_ok (length vertices) i0 ->
  py_index_ok (length vertices) i1 ->
  py_index_ok (length vertices) i2 ->
  exists normals',
    length normals' = length vertices /\
    (forall rest,
       accumulate vertices (i0 :: i1 :: i2 :: rest) normals
       = accumulate vertices rest normals') /\
    (forall rest,
       accumulate vertices
         (py_wrap (length vertices) i0 :: py_wrap (length vertices) i1
            :: py_wrap (length vertices) i2 :: rest) normals
       = accumulate vertices rest normals').
Proof.
  intros Hlen H0 H1 H2.
  destruct (py_get_ok vertices i0 H0) as [v0 Hv0].
  destruct (py_get_ok vertices i1 H1) as [v1 Hv1].
  destruct (py_get_ok vertices i2 H2) as [v2 Hv2].
  set (n := face_normal v0 v1 v2).
  destruct (accumulate_at_ok n i0 normals) as (n0 & Hn0 & Hl0);
    [ rewrite Hlen; exact H0 | ].
  destruct (accumulate_at_ok n i1 n0) as (n1 & Hn1 & Hl1);
    [ rewrite Hl0, Hlen; exact H1 | ].
  destruct (accumulate_at_ok n i2 n1) as (n2 & Hn2 & Hl2);
    [ rewrite Hl1, Hl0, Hlen; exact H2 | ].
  assert (Hw0 : accumulate_at n (py_wrap (length vertices) i0) normals = Ok n0).
  { rewrite <- Hlen, accumulate_at_wrap by (rewrite Hlen; exact H0). exact Hn0. }
  assert (Hw1 : accumulate_at n (py_wrap (length vertices) i1) n0 = Ok n1).
  { replace (length vertices) with (length n0) by congruence.
    rewrite accumulate_at_wrap by (rewrite Hl0, Hlen; exact H1). exact Hn1. }
  assert (Hw2 : accumulate_at n (py_wrap (length vertices) i2) n1 = Ok n2).
  { replace (length vertices) with (length n1) by congruence.
    rewrite accumulate_at_wrap by (rewrite Hl1, Hl0, Hlen; exact H2). exact Hn2. }
  exists n2. split; [ congruence | ]. split; intros rest.
  - cbn [accumulate]. rewrite Hv0, Hv1, Hv2. cbn [bind]. fold n.
    rewrite Hn0. cbn [bind]. rewrite Hn1. cbn [bind]. rewrite Hn2. reflexivity.
  - cbn [accumulate]. rewrite !py_get_wrap by assumption.
    rewrite Hv0, Hv1, Hv2. cbn [bind]. fold n.
    rewrite Hw0. cbn [bind]. rewrite Hw1. cbn [bind]. rewrite Hw2. reflexivity.
Qed.

Lemma accumulate_index_error (vertices : list (vertex F)) (n : nat) :
  forall (indices : list Z) (normals : list (vertex F)),
    length indices = 3 * n ->
    length normals = length vertices ->
    Exists (fun idx => ~ py_index_ok (length vertices) idx) indices ->
    accumulate vertices indices normals = Raise IndexError.
Proof.
  induction n as [ | n IH ]; intros indices normals Hlen Hnormals Hbad.
  - destruct indices; [ inversion Hbad | discriminate ].
  - destruct indices as [ | i0 [ | i1 [ | i2 rest ] ] ]; simpl in Hlen; try lia.
    destruct (py_index_ok_dec (length vertices) i0) as [H0 | H0];
      [ | cbn [accumulate]; rewrite (py_get_bad _ _ H0); reflexivity ].
    destruct (py_get_ok vertices i0 H0) as [v0 Hv0].
    destruct (py_index_ok_dec (length vertices) i1) as [H1 | H1];
      [ | cbn [accumulate]; rewrite Hv0, (py_get_bad _ _ H1); reflexivity ].
    destruct (py_get_ok vertices i1 H1) as [v1 Hv1].
    destruct (py_index_ok_dec (length vertices) i2) as [H2 | H2];
      [ | cbn [accumulate]; rewrite Hv0, Hv1, (py_get_bad _ _ H2); reflexivity ].
    destruct (accumulate_step vertices i0 i1 i2 normals Hnormals H0 H1 H2)
      as (normals' & Hl & Hstep & _).
    rewrite Hstep.
    apply IH; [ lia | exact Hl | ].
    inversion Hbad as [ ? ? Hb | ? ? Hb ]; subst; [ contradiction | ].
    inversion Hb as [ ? ? Hb1 | ? ? Hb1 ]; subst; [ contradiction | ].
    inversion Hb1 as [ ? ? Hb2 | ? ? Hb2 ]; subst; [ contradiction | ].
    exact Hb2.
Qed.

Lemma accumulate_partial_triangle (vertices : list (vertex F)) (n : nat) :
  forall (indices : list Z) (normals : list (vertex F)),
    length indices <= 3 * n + 2 ->
    length indices mod 3 <> 0 ->
    length normals = length vertices ->
    Forall (py_index_ok (length vertices)) indices ->
    accumulate vertices indices normals = Raise ValueError.
Proof.
  induction n as [ | n IH ]; intros indices normals Hn Hmod Hnormals Hok.
  - destruct indices as [ | i0 [ | i1 [ | i2 rest ] ] ];
      try reflexivity; [ simpl in Hmod; contradiction | simpl in Hn; lia ].
  - destruct indices as [ | i0 [ | i1 [ | i2 rest ] ] ];
      try reflexivity; [ simpl in Hmod; contradiction | ].
    inversion Hok as [ | ? ? H0 Hok1 ]; subst.
    inversion Hok1 as [ | ? ? H1 Hok2 ]; subst.
    inversion Hok2 as [ | ? ? H2 Hrest ]; subst.
    destruct (accumulate_step vertices i0 i1 i2 normals Hnormals H0 H1 H2)
      as (normals' & Hl & Hstep & _).
    rewrite Hstep.
    apply IH; [ simpl in Hn; lia | | exact Hl | exact Hrest ].
    change (length (i0 :: i1 :: i2 :: rest)) with (3 + length rest) in Hmod.
    rewrite Nat.add_comm in Hmod.
    replace (length rest + 3) with (length rest + 1 * 3) in Hmod by lia.
    rewrite Nat.Div0.mod_add in Hmod. exact Hmod.
Qed.

Lemma accumulate_wrap (vertices : list (vertex F)) (n : nat) :
  forall (indices : list Z) (normals : list (vertex F)),
    length indices <= 3 * n + 2 ->
    length normals = length vertices ->
    Forall (py_index_ok (length vertices)) indices ->
    accumulate vertices (map (py_wrap (length vertices)) indices) normals
    = accumulate vertices indices normals.
Proof.
  induction n as [ | n IH ]; intros indices normals Hn Hnormals Hok.
  - destruct indices as [ | i0 [ | i1 [ | i2 rest ] ] ];
      try reflexivity; simpl in Hn; lia.
  - destruct indices as [ | i0 [ | i1 [ | i2 rest ] ] ]; try reflexivity.
    inversion Hok as [ | ? ? H0 Hok1 ]; subst.
    inversion Hok1 as [ | ? ? H1 Hok2 ]; subst.
    inversion Hok2 as [ | ? ? H2 Hrest ]; subst.
    destruct (accumulate_step vertices i0 i1 i2 normals Hnormals H0 H1 H2)
      as (normals' & Hl & Hplain & Hwrap).
    cbn [map]. rewrite Hwrap, Hplain.
    apply IH; [ simpl in Hn; lia | exact Hl | exact Hrest ].
Qed.

(** X3.  [compute_normals] does not validate its index list; it fails
    where Python's indexing fails.  On whole triangles, an index that is
    neither a position of the vertex list nor a negative index from
    [-len(vertices)] up makes it raise [IndexError]. *)
Theorem compute_normals_index_error (vertices : list (vertex F))
  (indices : list Z) :
  (exists n, length indices = 3 * n) ->
  Exists (fun idx => ~ py_index_ok (length vertices) idx) indices ->
  compute_normals vertices indices = Raise IndexError.
Proof.
  intros [n Hlen] Hbad. unfold compute_normals.
  rewrite (accumulate_index_error vertices n indices _ Hlen
             (length_map _ vertices) Hbad).
  reflexivity.
Qed.

(** X4.  An index list whose length is not a multiple of three, all of
    its indices being ones Python accepts, makes [compute_normals] raise
    [ValueError]: the last slice [indices[i:i+3]] is too short to
    unpack into three names. *)
Theorem compute_normals_partial_triangle (vertices : list (vertex F))
  (indices : list Z) :
  Forall (py_index_ok (length vertices)) indices ->
  length indices mod 3 <> 0 ->
  compute_normals vertices indices = Raise ValueError.
Proof.
  intros Hok Hmod. unfold compute_normals.
  rewrite (accumulate_partial_triangle vertices (length indices) indices _);
    [ reflexivity | lia | exact Hmod | apply length_map | exact Hok ].
Qed.

(** X5.  Negative indices are not rejected: an index [-k] with
    [1 <= k <= len(vertices)] reads and updates position
    [len(vertices) - k], so the result is that of the index list with
    every negative index replaced by the position it stands for. *)
Theorem compute_normals_negative_indices (vertices : list (vertex F))
  (indices : list Z) :
  Forall (py_index_ok (length vertices)) indices ->
  compute_normals vertices (map (py_wrap (length vertices)) indices)
  = compute_normals vertices indices.
Proof.
  intros Hok. unfold compute_normals.
  rewrite (accumulate_wrap vertices (length indices) indices _);
    [ reflexivity | lia | apply length_map | exact Hok ].
Qed.

End BadIndexLists.

Lemma compute_normals_index_error_witness :
  let vs : list (vertex float) :=
    [ (zero, zero, zero); (f_of_Z 1, zero, zero); (zero, f_of_Z 1, zero) ] in
  (exists n, length [0; 1; 3]%Z = 3 * n) /\
  compute_normals vs [0; 1; 3]%Z = Raise IndexError /\
  compute_normals vs [0; -4; 2]%Z = Raise IndexError.
Proof.
  intros vs.
  assert (Hwhole : exists n, length [0; 1; 3]%Z = 3 * n)
    by (exists 1; reflexivity).
  split; [ exact Hwhole | ]. split.
  - apply compute_normals_index_error; [ exact Hwhole | ].
    apply Exists_cons_tl, Exists_cons_tl, Exists_cons_hd.
    unfold py_index_ok; simpl; lia.
  - apply compute_normals_index_error; [ exists 1; reflexivity | ].
    apply Exists_cons_tl, Exists_cons_hd.
    unfold py_index_ok; simpl; lia.
Defined.

Lemma compute_normals_partial_triangle_witness :
  let vs : list (vertex float) :=
    [ (zero, zero, zero); (f_of_Z 1, zero, zero); (zero, f_of_Z 1, zero) ] in
  Forall (py_index_ok (length vs)) [0; 1; 2; 0]%Z /\
  compute_normals vs [0; 1; 2; 0]%Z = Raise ValueError.
Proof.
  intros vs.
  assert (Hok : Forall (py_index_ok (length vs)) [0; 1; 2; 0]%Z).
  { repeat constructor; simpl; lia. }
  split; [ exact Hok | ].
  apply compute_normals_partial_triangle; [ exact Hok | ].
  simpl. discriminate.
Defined.

Lemma compute_normals_negative_indices_witness :
  let vs : list (vertex float) :=
    [ (zero, zero, zero); (f_of_Z 1, zero, zero); (zero, f_of_Z 1, zero) ] in
  Forall (py_index_ok (length vs)) [-3; 1; -1]%Z /\
  compute_normals vs [0; 1; 2]%Z = compute_normals vs [-3; 1; -1]%Z.
Proof.
  intros vs.
  assert (Hok : Forall (py_index_ok (length vs)) [-3; 1; -1]%Z).
  { repeat constructor; simpl; lia. }
  split; [ exact Hok | ].
  exact (compute_normals_negative_indices vs [-3; 1; -1]%Z Hok).
Defined.

(* ================================================================== *)
(** * Index packing: what is written can be read back *)
(* ================================================================== *)

Lemma byte_of_Z_value (z : Z) :
  Z.of_N (Byte.to_N (byte_of_Z z)) = (z mod 256)%Z.
Proof.
  unfold byte_of_Z.
  assert (Hlt : (Z.to_N (z mod 256) < 256)%N).
  { pose proof (Z.mod_pos_bound z 256 ltac:(lia)). lia. }
  destruct (Byte.of_N (Z.to_N (z mod 256))) as [b | ] eqn:Hb.
  - apply Byte.to_of_N in Hb. rewrite Hb.
    pose proof (Z.mod_pos_bound z 256 ltac:(lia)). lia.
  - apply Byte.of_N_None_iff in Hb. lia.
Qed.

Lemma le_value_le_bytes4 (i : Z) :
  fits_uint32 i -> le_value (le_bytes4 i) = i.
Proof.
  unfold fits_uint32, le_bytes4, le_value. intros Hi. cbn [fold_right].
  rewrite !byte_of_Z_value.
  rewrite !Z.shiftr_div_pow2 by lia.
  change (2 ^ 8)%Z with 256%Z.
  change (2 ^ 16)%Z with (256 * 256)%Z.
  change (2 ^ 24)%Z with (256 * 256 * 256)%Z.
  rewrite <- !Z.div_div by lia.
  set (q1 := (i / 256)%Z). set (q2 := (q1 / 256)%Z). set (q3 := (q2 / 256)%Z).
  pose proof (Z.div_mod i 256 ltac:(lia)) as H0.
  pose proof (Z.div_mod q1 256 ltac:(lia)) as H1.
  pose proof (Z.div_mod q2 256 ltac:(lia)) as H2.
  pose proof (Z.mod_pos_bound i 256 ltac:(lia)) as B0.
  pose proof (Z.mod_pos_bound q1 256 ltac:(lia)) as B1.
  pose proof (Z.mod_pos_bound q2 256 ltac:(lia)) as B2.
  fold q1 in H0. fold q2 in H1. fold q3 in H2.
  assert (Hq3 : (0 <= q3 < 256)%Z) by lia.
  rewrite (Z.mod_small q3 256 Hq3). lia.
Qed.

Lemma pack_I_rejects (i : Z) : ~ fits_uint32 i -> pack_I i = Raise StructError.
Proof.
  unfold fits_uint32, pack_I. intros Hi.
  destruct (Z.leb_spec 0 i); [ | reflexivity ].
  destruct (Z.ltb_spec i 4294967296); [ lia | reflexivity ].
Qed.

Lemma unpack_indices_app4 (i : Z) (bs : list byte) :
  unpack_indices (le_bytes4 i ++ bs) = le_value (le_bytes4 i) :: unpack_indices bs.
Proof. reflexivity. Qed.

(** X6.  Index packing loses nothing: an index list whose entries all
    lie in [0, 2^32) packs to four bytes per index, and reading the
    bytes back little-endian, four at a time, gives the index list. *)
Theorem pack_index_list_round_trip (inds : list Z) :
  Forall fits_uint32 inds ->
  exists bs,
    pack_index_list inds = Ok bs /\
    length bs = 4 * length inds /\
    unpack_indices bs = inds.
Proof.
  intros Hfits.
  assert (Hchunks : mapM pack_I inds = Ok (map le_bytes4 inds)).
  { induction Hfits as [ | i inds Hi _ IH ]; [ reflexivity | ].
    cbn [mapM map]. rewrite (pack_I_in_range i Hi). cbn [bind].
    rewrite IH. reflexivity. }
  exists (concat (map le_bytes4 inds)).
  unfold pack_index_list. rewrite Hchunks. cbn [bind].
  split; [ reflexivity | ]. split.
  - clear. induction inds as [ | i inds IH ]; [ reflexivity | ].
    cbn [map concat]. rewrite length_app, IH, le_bytes4_length.
    cbn [length]. lia.
  - clear Hchunks. induction Hfits as [ | i inds Hi _ IH ]; [ reflexivity | ].
    cbn [map concat]. rewrite unpack_indices_app4, IH.
    rewrite (le_value_le_bytes4 i Hi). reflexivity.
Qed.

(** X7.  An index below zero or from [2^32] up cannot be packed: the
    whole list is rejected with [struct.error]. *)
Theorem pack_index_list_rejects (inds : list Z) :
  Exists (fun i => ~ fits_uint32 i) inds ->
  pack_index_list inds = Raise StructError.
Proof.
  intros Hbad. unfold pack_index_list.
  assert (Hchunks : mapM pack_I inds = Raise StructError).
  { induction Hbad as [ i inds Hi | i inds _ IH ]; cbn [mapM].
    - rewrite (pack_I_rejects i Hi). reflexivity.
    - unfold pack_I at 1. destruct (_ && _); cbn [bind]; [ | reflexivity ].
      rewrite IH. reflexivity. }
  rewrite Hchunks. reflexivity.
Qed.

Lemma pack_index_list_round_trip_witness :
  Forall fits_uint32 [0; 258; 4294967295]%Z /\
  exists bs,
    pack_index_list [0; 258; 4294967295]%Z = Ok bs /\
    bs = [x00; x00; x00; x00; x02; x01; x00; x00; xff; xff; xff; xff] /\
    unpack_indices bs = [0; 258; 4294967295]%Z.
Proof.
  assert (Hfits : Forall fits_uint32 [0; 258; 4294967295]%Z).
  { repeat constructor; unfold fits_uint32; lia. }
  split; [ exact Hfits | ].
  destruct (pack_index_list_round_trip _ Hfits) as (bs & Hbs & _ & Hback).
  exists bs. split; [ exact Hbs | ]. split; [ | exact Hback ].
  vm_compute in Hbs. injection Hbs as <-. reflexivity.
Defined.

Lemma pack_index_list_rejects_witness :
  Exists (fun i => ~ fits_uint32 i) [0; -1; 2]%Z /\
  pack_index_list [0; -1; 2]%Z = Raise StructError.
Proof.
  assert (Hbad : Exists (fun i => ~ fits_uint32 i) [0; -1; 2]%Z).
  { apply Exists_cons_tl, Exists_cons_hd. unfold fits_uint32. lia. }
  split; [ exact Hbad | ].
  exact (pack_index_list_rejects _ Hbad).
Defined.

(* ================================================================== *)
(** * The document of the third script: references, names, alignment *)
(* ================================================================== *)

Section Document.
Context {F : Type} `{PyFloat F} `{PyPack F}.

(** What one returning call appends to the lists of the document. *)
Lemma append_mesh_lists (name : string) (data : V3.group F) (lvl : Z)
  (em em' : V3.emitter F) :
  V3.append_mesh name data lvl em = Ok em' ->
  length (V3.em_bufferViews em') = length (V3.em_bufferViews em) + 3 /\
  map (@acc_bufferView F) (V3.em_accessors em')
  = map (@acc_bufferView F) (V3.em_accessors em)
    ++ [ length (V3.em_bufferViews em); length (V3.em_bufferViews em) + 1;
         length (V3.em_bufferViews em) + 2 ] /\
  V3.em_meshes em'
  = V3.em_meshes em
    ++ [ {| primitives :=
              [ {| attributes :=
                     [("POSITION"%string, length (V3.em_accessors em));
                      ("NORMAL"%string, length (V3.em_accessors em) + 1)];
                   prim_indices := length (V3.em_accessors em) + 2;
                   prim_material := None |} ] |} ] /\
  V3.em_nodes em'
  = V3.em_nodes em ++ [ node_of (length (V3.em_meshes em)) (name, data, lvl) ].
Proof.
  destruct data as [[verts inds] semantic]. unfold V3.append_mesh.
  intros Hstep.
  apply bind_ok in Hstep. destruct Hstep as (normals & _ & Hstep).
  apply bind_ok in Hstep. destruct Hstep as (v & _ & Hstep).
  apply bind_ok in Hstep. destruct Hstep as (n & _ & Hstep).
  apply bind_ok in Hstep. destruct Hstep as (i & _ & Hstep).
  injection Hstep as <-. cbn [V3.em_bufferViews V3.em_accessors V3.em_meshes V3.em_nodes].
  split; [ rewrite !length_app; simpl; lia | ].
  split.
  { rewrite !map_app, <- !app_assoc, !length_app. simpl.
    rewrite <- ?Nat.add_assoc. reflexivity. }
  split.
  { rewrite !length_app. simpl. rewrite <- ?Nat.add_assoc. reflexivity. }
  rewrite length_app. simpl.
  replace (length (V3.em_meshes em) + 1 - 1) with (length (V3.em_meshes em)) by lia.
  reflexivity.
Qed.

Lemma emit_calls_lists (calls : list call) :
  forall em em' : V3.emitter F,
    emit_calls calls em = Ok em' ->
    length (V3.em_bufferViews em) = 3 * length (V3.em_meshes em) ->
    length (V3.em_accessors em) = 3 * length (V3.em_meshes em) ->
    length (V3.em_bufferViews em') = 3 * length (V3.em_meshes em') /\
    length (V3.em_accessors em') = 3 * length (V3.em_meshes em') /\
    map (@acc_bufferView F) (V3.em_accessors em')
    = map (@acc_bufferView F) (V3.em_accessors em)
      ++ seq (length (V3.em_accessors em)) (3 * length calls) /\
    V3.em_meshes em'
    = V3.em_meshes em
      ++ map mesh_of (seq (length (V3.em_meshes em)) (length calls)) /\
    V3.em_nodes em'
    = V3.em_nodes em ++ nodes_of (length (V3.em_meshes em)) calls.
Proof.
  induction calls as [ | c calls IH ]; intros em em' Hrun Hviews Haccs.
  - injection Hrun as <-. simpl. rewrite !app_nil_r. repeat split; assumption.
  - unfold emit_calls in Hrun. cbn [foldM] in Hrun.
    apply bind_ok in Hrun. destruct Hrun as (em1 & Hstep & Hrun).
    destruct c as [[name data] lvl]. cbn [fst snd] in Hstep.
    destruct (append_mesh_lists _ _ _ _ _ Hstep) as (Hv1 & Ha1 & Hm1 & Hn1).
    assert (Hmeshes1 : length (V3.em_meshes em1) = S (length (V3.em_meshes em))).
    { rewrite Hm1, length_app. simpl. lia. }
    assert (Haccs1 : length (V3.em_accessors em1) = 3 * length (V3.em_meshes em1)).
    { rewrite <- (length_map (@acc_bufferView F)), Ha1, length_app, length_map.
      simpl. lia. }
    destruct (IH em1 em' Hrun) as (Hv' & Ha' & Hbv' & Hm' & Hn').
    { lia. }
    { exact Haccs1. }
    split; [ exact Hv' | ]. split; [ exact Ha' | ].
    split; [ | split ].
    + rewrite Hbv', Ha1, <- app_assoc. f_equal.
      assert (Hnext : length (V3.em_accessors em1)
                      = length (V3.em_accessors em) + 3) by lia.
      assert (Hsame : length (V3.em_bufferViews em)
                      = length (V3.em_accessors em)) by lia.
      rewrite Hnext, Hsame. cbn [length].
      replace (3 * S (length calls)) with (3 + 3 * length calls) by lia.
      rewrite seq_app. cbn [seq app].
      repeat f_equal; lia.
    + rewrite Hm', Hmeshes1, Hm1, <- app_assoc. f_equal.
      cbn [length seq map app]. f_equal.
      unfold mesh_of. rewrite Haccs. reflexivity.
    + rewrite Hn', Hmeshes1, Hn1, <- app_assoc. reflexivity.
Qed.

Lemma nodes_of_mesh (calls : list (call (F:=F))) :
  forall k, map node_mesh (nodes_of k calls) = seq k (length calls).
Proof.
  induction calls as [ | [[name [[vs inds] sem]] lvl] calls IH ]; intros k.
  - reflexivity.
  - simpl. rewrite IH. reflexivity.
Qed.

(** X8.  Every reference of the document resolves.  After any sequence
    of [append_mesh] calls that returns there are as many nodes and
    meshes as calls and three buffer views and three accessors per
    mesh; accessor [j] reads buffer view [j]; mesh [k] has one primitive
    whose POSITION, NORMAL and index accessors are [3k], [3k+1] and
    [3k+2]; node [k] shows mesh [k], is named after its call and LOD
    level and carries the semantic tag and the level as extras. *)
Theorem emitted_references_resolve (calls : list call) (em : V3.emitter F) :
  emit_calls calls V3.empty_emitter = Ok em ->
  length (V3.em_meshes em) = length calls /\
  length (V3.em_bufferViews em) = 3 * length calls /\
  map (@acc_bufferView F) (V3.em_accessors em) = seq 0 (3 * length calls) /\
  V3.em_meshes em = map mesh_of (seq 0 (length calls)) /\
  V3.em_nodes em = nodes_of 0 calls /\
  map node_mesh (V3.em_nodes em) = seq 0 (length calls) /\
  scenes (V3.document em) = [ seq 0 (length calls) ].
Proof.
  intros Hrun.
  destruct (emit_calls_lists calls _ _ Hrun eq_refl eq_refl)
    as (Hviews & Haccs & Hbv & Hmeshes & Hnodes).
  simpl in Hbv, Hmeshes, Hnodes.
  assert (Hcount : length (V3.em_meshes em) = length calls).
  { rewrite Hmeshes, length_map, length_seq. reflexivity. }
  split; [ exact Hcount | ].
  split; [ rewrite Hviews, Hcount; reflexivity | ].
  split; [ exact Hbv | ].
  split; [ exact Hmeshes | ].
  split; [ exact Hnodes | ].
  split; [ rewrite Hnodes; apply nodes_of_mesh | ].
  simpl. rewrite Hnodes, <- (length_map node_mesh), nodes_of_mesh, length_seq.
  reflexivity.
Qed.

(** What one returning call does to offsets and lengths. *)
Lemma append_mesh_aligned (name : string) (data : V3.group F) (lvl : Z)
  (em em' : V3.emitter F) :
  aligned em ->
  V3.append_mesh name data lvl em = Ok em' ->
  aligned em'.
Proof.
  intros [Hbuf Hviews] Hstep. destruct data as [[verts inds] semantic].
  destruct (append_mesh_ok _ _ _ _ _ _ _ Hstep)
    as (normals & v & n & i & _ & Hv & Hn & Hi & Hbuf' & Hviews' & _).
  apply pack_vec3_list_length in Hv, Hn. apply pack_index_list_length in Hi.
  destruct Hbuf as [q Hq].
  unfold aligned. rewrite Hbuf', Hviews'. split.
  - rewrite !length_app, Hv, Hn, Hi, Hq.
    exists (q + 3 * length verts + 3 * length normals + length inds). lia.
  - apply Forall_app. split; [ exact Hviews | ].
    unfold mesh_views. rewrite Hv, Hn, Hi, Hq.
    repeat (apply Forall_cons; [ simpl; split | ]); try apply Forall_nil.
    + exists q. lia.
    + exists (3 * length verts). lia.
    + exists (q + 3 * length verts). lia.
    + exists (3 * length normals). lia.
    + exists (q + 3 * length verts + 3 * length normals). lia.
    + exists (length inds). lia.
Qed.

(** X9.  After any sequence of [append_mesh] calls that returns, the
    length of the buffer and the byte offset and byte length of every
    buffer view are multiples of four, the size of the float and
    unsigned components stored in them. *)
Theorem emitted_views_aligned (calls : list call) (em : V3.emitter F) :
  emit_calls calls V3.empty_emitter = Ok em ->
  Nat.divide 4 (length (V3.all_buffer em)) /\
  Forall (fun v => Nat.divide 4 (byteOffset v) /\ Nat.divide 4 (byteLength v))
    (V3.em_bufferViews em).
Proof.
  assert (Hgen : forall em0 : V3.emitter F,
             aligned em0 -> emit_calls calls em0 = Ok em -> aligned em).
  { induction calls as [ | c calls IH ]; intros em0 Hal Hrun.
    - injection Hrun as <-. exact Hal.
    - unfold emit_calls in Hrun. cbn [foldM] in Hrun.
      apply bind_ok in Hrun. destruct Hrun as (em1 & Hstep & Hrun).
      apply (IH em1); [ | exact Hrun ].
      eapply append_mesh_aligned; eassumption. }
  intros Hrun. apply (Hgen V3.empty_emitter); [ | exact Hrun ].
  split; [ exists 0; reflexivity | constructor ].
Qed.

(** X10.  The document the third script writes has twelve nodes, the six
    groups of LOD 0 followed by the six of LOD 1, named
    [<group>_LOD<level>]; [SpatialZones] is tagged [spatial] and the
    five other groups [structure]; node [k] shows mesh [k] and all
    twelve are roots of the one scene. *)
Theorem generated_nodes (p : V3.params F) (doc : gltf F) :
  V3.generate p = Ok doc ->
  map node_name (nodes doc)
  = map Some [ "Slabs_LOD0"; "Columns_LOD0"; "Beams_LOD0"; "Core_LOD0";
               "Walls_LOD0"; "SpatialZones_LOD0";
               "Slabs_LOD1"; "Columns_LOD1"; "Beams_LOD1"; "Core_LOD1";
               "Walls_LOD1"; "SpatialZones_LOD1" ]%string /\
  map node_extras (nodes doc)
  = map Some [ ("structure", 0); ("structure", 0); ("structure", 0);
               ("structure", 0); ("structure", 0); ("spatial", 0);
               ("structure", 1); ("structure", 1); ("structure", 1);
               ("structure", 1); ("structure", 1); ("spatial", 1) ]%string%Z /\
  map node_mesh (nodes doc) = seq 0 12 /\
  length (meshes doc) = 12 /\
  scenes doc = [ seq 0 12 ] /\
  scene doc = 0.
Proof.
  intros Hgen.
  destruct (generate_as_calls p doc Hgen)
    as (lod0 & lod1 & em & Hlod0 & Hlod1 & Hrun & ->).
  unfold V3.build_structure in Hlod0, Hlod1.
  apply bind_ok in Hlod0. destruct Hlod0 as (s0 & _ & Hlod0).
  apply bind_ok in Hlod1. destruct Hlod1 as (s1 & _ & Hlod1).
  injection Hlod0 as <-. injection Hlod1 as <-.
  destruct (emit_calls_lists _ _ _ Hrun eq_refl eq_refl)
    as (_ & _ & _ & Hmeshes & Hnodes).
  cbn [V3.empty_emitter V3.em_meshes V3.em_nodes app length] in Hmeshes, Hnodes.
  cbn [V3.document nodes meshes scenes scene].
  rewrite Hnodes, Hmeshes.
  repeat split.
Qed.

End Document.

Lemma emitted_references_resolve_witness :
  exists em : V3.emitter float,
    emit_calls [("T"%string, sample_group, 0%Z); ("U"%string, sample_group, 1%Z)]
      V3.empty_emitter = Ok em /\
    map (@acc_bufferView float) (V3.em_accessors em) = [0; 1; 2; 3; 4; 5] /\
    map node_name (V3.em_nodes em) = [Some "T_LOD0"; Some "U_LOD1"]%string /\
    map node_mesh (V3.em_nodes em) = [0; 1].
Proof.
  destruct (emit_calls
              [("T"%string, sample_group, 0%Z); ("U"%string, sample_group, 1%Z)]
              V3.empty_emitter) as [em | e] eqn:Hrun;
    [ | vm_compute in Hrun; discriminate ].
  exists em. split; [ reflexivity | ].
  destruct (emitted_references_resolve _ em Hrun)
    as (_ & _ & Hbv & _ & Hnodes & Hmesh & _).
  split; [ exact Hbv | ]. split; [ rewrite Hnodes; reflexivity | exact Hmesh ].
Defined.

Lemma emitted_views_aligned_witness :
  exists em : V3.emitter float,
    emit_calls [("T"%string, sample_group, 0%Z); ("U"%string, sample_group, 1%Z)]
      V3.empty_emitter = Ok em /\
    Nat.divide 4 (length (V3.all_buffer em)) /\
    map byteOffset (V3.em_bufferViews em) = [0; 48; 96; 108; 156; 204].
Proof.
  destruct (emit_calls
              [("T"%string, sample_group, 0%Z); ("U"%string, sample_group, 1%Z)]
              V3.empty_emitter) as [em | e] eqn:Hrun;
    [ | vm_compute in Hrun; discriminate ].
  exists em. split; [ reflexivity | ].
  destruct (emitted_views_aligned _ em Hrun) as [Hbuf _].
  split; [ exact Hbuf | ].
  vm_compute in Hrun. injection Hrun as <-. reflexivity.
Defined.

Lemma generated_nodes_witness :
  exists doc,
    V3.generate small_building = Ok doc /\
    length (nodes doc) = 12 /\
    nth_error (map node_name (nodes doc)) 11 = Some (Some "SpatialZones_LOD1"%string).
Proof.
  destruct (V3.generate small_building) as [doc | e] eqn:Hgen;
    [ | vm_compute in Hgen; discriminate ].
  exists doc. split; [ reflexivity | ].
  destruct (generated_nodes small_building doc Hgen) as (Hnames & _).
  split; [ | rewrite Hnames; reflexivity ].
  rewrite <- (length_map node_name), Hnames. reflexivity.
Defined.

(* ================================================================== *)
(** * How many boxes a layout has *)
(* ================================================================== *)

(** A loop whose body adds [c a] boxes at element [a] adds their sum. *)
Lemma fold_left_holds {A S : Type} (holds : S -> nat -> Prop)
  (body : S -> A -> S) (c : A -> nat) (xs : list A) :
  (forall st k a, holds st k -> holds (body st a) (k + c a)) ->
  forall st k, holds st k ->
               holds (fold_left body xs st) (k + list_sum (map c xs)).
Proof.
  intros Hbody. induction xs as [ | x xs IH ]; intros st k Hst; simpl.
  - rewrite Nat.add_0_r. exact Hst.
  - rewrite Nat.add_assoc. apply IH, Hbody, Hst.
Qed.

Lemma list_sum_constant {A : Type} (c : nat) (xs : list A) :
  list_sum (map (fun _ => c) xs) = c * length xs.
Proof. induction xs as [ | x xs IH ]; simpl; lia. Qed.


Lemma py_range_succ (n : Z) :
  (0 <= n)%Z -> py_range (n + 1) = py_range n ++ [n].
Proof.
  intros Hn. unfold py_range.
  replace (Z.to_nat (n + 1)) with (Z.to_nat n + 1) by lia.
  rewrite seq_app, map_app. simpl. rewrite Z2Nat.id by exact Hn. reflexivity.
Qed.

Lemma py_range_bounds (n x : Z) : In x (py_range n) -> (0 <= x < n)%Z.
Proof.
  unfold py_range. intros Hx. apply in_map_iff in Hx.
  destruct Hx as (k & <- & Hk). apply in_seq in Hk. lia.
Qed.

(** [for f in range(floors)] with [if f < floors - 1]: the body of the
    test runs on [floors - 1] floors, on none when there is no floor. *)
Lemma structural_floors (floors : Z) (q : nat) :
  list_sum (map (fun f => if (f <? floors - 1)%Z then q else 0) (py_range floors))
  = q * Z.to_nat (floors - 1).
Proof.
  destruct (Z_le_gt_dec floors 0) as [Hle | Hgt].
  - unfold py_range. replace (Z.to_nat floors) with 0 by lia.
    replace (Z.to_nat (floors - 1)) with 0 by lia. simpl. lia.
  - assert (Hr : py_range floors = py_range (floors - 1) ++ [(floors - 1)%Z]).
    { rewrite <- py_range_succ by lia. f_equal. lia. }
    rewrite Hr, map_app, list_sum_app. simpl.
    rewrite Z.ltb_irrefl.
    assert (Hall : forall xs : list Z,
               (forall x, In x xs -> (x < floors - 1)%Z) ->
               list_sum (map (fun f => if (f <? floors - 1)%Z then q else 0) xs)
               = q * length xs).
    { induction xs as [ | x xs IH ]; intros Hxs; simpl; [ lia | ].
      rewrite IH by (intros y Hy; apply Hxs; right; exact Hy).
      destruct (Z.ltb_spec x (floors - 1)); [ lia | ].
      specialize (Hxs x (or_introl eq_refl)). lia. }
    rewrite Hall by (intros x Hx; apply py_range_bounds in Hx; lia).
    rewrite py_range_length. lia.
Qed.

Section BoxCounts.
Context {F : Type} `{PyFloat F}.

Lemma add_box_holds (w h d tx ty tz : F) (st : store (vertex F)) (k : nat) :
  holds_boxes st k ->
  holds_boxes (let '(v, i) := create_box w h d tx ty tz in add v i st) (k + 1).
Proof.
  intros [Hv Hi]. destruct st as [vs inds]. unfold holds_boxes.
  cbn [fst snd] in *. unfold create_box, add. cbn [fst snd].
  rewrite !length_app, !length_map, Hv, Hi. cbn [length box_indices]. lia.
Qed.


(** ** Third script *)

Lemma v3_columns_loop_holds (p : V3.params F) (grid_size : Z) (spacing y : F)
  (st : store (vertex F)) (k : nat) :
  holds_boxes st k ->
  holds_boxes (V3.columns_loop p grid_size spacing y st)
    (k + Z.to_nat grid_size * Z.to_nat grid_size).
Proof.
  intros Hst. unfold V3.columns_loop.
  replace (Z.to_nat grid_size * Z.to_nat grid_size)
    with (list_sum (map (fun _ : Z => Z.to_nat grid_size) (py_range grid_size)))
    by (rewrite list_sum_constant, py_range_length; reflexivity).
  apply (fold_left_holds holds_boxes); [ | exact Hst ].
  intros st1 k1 gx Hst1.
  replace (Z.to_nat grid_size)
    with (list_sum (map (fun _ : Z => 1) (py_range grid_size)))
    by (rewrite list_sum_constant, py_range_length; lia).
  apply (fold_left_holds holds_boxes); [ | exact Hst1 ].
  intros st2 k2 gz Hst2. apply add_box_holds, Hst2.
Qed.

Lemma v3_beams_loop_holds (p : V3.params F) (grid_size : Z) (spacing y : F)
  (st : store (vertex F)) (k : nat) :
  holds_boxes st k ->
  holds_boxes (V3.beams_loop p grid_size spacing y st)
    (k + Z.to_nat grid_size * Z.to_nat (grid_size - 1)).
Proof.
  intros Hst. unfold V3.beams_loop.
  replace (Z.to_nat grid_size * Z.to_nat (grid_size - 1))
    with (list_sum (map (fun _ : Z => Z.to_nat (grid_size - 1))
                      (py_range grid_size)))
    by (rewrite list_sum_constant, py_range_length; lia).
  apply (fold_left_holds holds_boxes); [ | exact Hst ].
  intros st1 k1 gz Hst1.
  replace (Z.to_nat (grid_size - 1))
    with (list_sum (map (fun _ : Z => 1) (py_range (grid_size - 1))))
    by (rewrite list_sum_constant, py_range_length; lia).
  apply (fold_left_holds holds_boxes); [ | exact Hst1 ].
  intros st2 k2 gx Hst2. apply add_box_holds, Hst2.
Qed.

(** Each of the four stores of the floor loop is filled by its own
    statements. *)
Lemma floor_loop_slabs (p : V3.params F) (grid_size : Z) (spacing : F)
  (fs : list Z) :
  forall st,
    V3.slabs (fold_left (V3.floor_body p grid_size spacing) fs st)
    = fold_left (fun s f =>
        let '(v, i) := create_box (V3.building_width p) (V3.slab_thickness p)
                         (V3.building_width p) zero
                         (f_of_Z f * V3.floor_height p)%flt zero in
        add v i s) fs (V3.slabs st).
Proof.
  induction fs as [ | f fs IH ]; intros st; [ reflexivity | ].
  cbn [fold_left]. rewrite IH. reflexivity.
Qed.

Lemma floor_loop_spatial (p : V3.params F) (grid_size : Z) (spacing : F)
  (fs : list Z) :
  forall st,
    V3.spatial (fold_left (V3.floor_body p grid_size spacing) fs st)
    = fold_left (fun s f =>
        let '(v, i) := create_box (V3.building_width p * dec 9 10)%flt
                         (V3.floor_height p * dec 8 10)%flt
                         (V3.building_width p * dec 9 10)%flt zero
                         (f_of_Z f * V3.floor_height p
                          + V3.floor_height p / two)%flt zero in
        add v i s) fs (V3.spatial st).
Proof.
  induction fs as [ | f fs IH ]; intros st; [ reflexivity | ].
  cbn [fold_left]. rewrite IH. reflexivity.
Qed.

Lemma floor_loop_cols (p : V3.params F) (grid_size : Z) (spacing : F)
  (fs : list Z) :
  forall st,
    V3.cols (fold_left (V3.floor_body p grid_size spacing) fs st)
    = fold_left (fun s f =>
        if (f <? V3.floors p - 1)%Z
        then V3.columns_loop p grid_size spacing
               (f_of_Z f * V3.floor_height p)%flt s
        else s) fs (V3.cols st).
Proof.
  induction fs as [ | f fs IH ]; intros st; [ reflexivity | ].
  cbn [fold_left]. rewrite IH. reflexivity.
Qed.

Lemma floor_loop_beams (p : V3.params F) (grid_size : Z) (spacing : F)
  (fs : list Z) :
  forall st,
    V3.beams (fold_left (V3.floor_body p grid_size spacing) fs st)
    = fold_left (fun s f =>
        if (f <? V3.floors p - 1)%Z
        then V3.beams_loop p grid_size spacing
               (f_of_Z f * V3.floor_height p)%flt s
        else s) fs (V3.beams st).
Proof.
  induction fs as [ | f fs IH ]; intros st; [ reflexivity | ].
  cbn [fold_left]. rewrite IH. reflexivity.
Qed.

Lemma floor_loop_core (p : V3.params F) (grid_size : Z) (spacing : F)
  (fs : list Z) :
  forall st,
    V3.core (fold_left (V3.floor_body p grid_size spacing) fs st) = V3.core st /\
    V3.walls (fold_left (V3.floor_body p grid_size spacing) fs st) = V3.walls st.
Proof.
  induction fs as [ | f fs IH ]; intros st; [ split; reflexivity | ].
  cbn [fold_left]. destruct (IH (V3.floor_body p grid_size spacing st f)) as [-> ->].
  split; reflexivity.
Qed.

Lemma empty_store_holds : holds_boxes (V:=vertex F) ([], []) 0.
Proof. split; reflexivity. Qed.

(** The six stores at the [return] of [build_structure], for any
    parameters, grid size and spacing. *)
Lemma fill_stores_hold (p : V3.params F) (grid_size : Z) (spacing : F) :
  let floors := Z.to_nat (V3.floors p) in
  let below := Z.to_nat (V3.floors p - 1) in
  let n := Z.to_nat grid_size in
  let m := Z.to_nat (grid_size - 1) in
  let st := V3.fill_stores p grid_size spacing in
  holds_boxes (V3.slabs st) floors /\
  holds_boxes (V3.cols st) (below * (n * n)) /\
  holds_boxes (V3.beams st) (below * (n * m)) /\
  holds_boxes (V3.core st) below /\
  holds_boxes (V3.walls st) below /\
  holds_boxes (V3.spatial st) floors.
Proof.
  intros floors below n m. unfold V3.fill_stores.
  cbn [V3.slabs V3.cols V3.beams V3.core V3.walls V3.spatial].
  set (st := fold_left (V3.floor_body p grid_size spacing)
               (py_range (V3.floors p)) V3.empty_stores).
  assert (Hslabs : holds_boxes (V3.slabs st) floors).
  { subst st. rewrite floor_loop_slabs.
    replace floors
      with (0 + list_sum (map (fun _ : Z => 1) (py_range (V3.floors p))))
      by (rewrite list_sum_constant, py_range_length; subst floors; lia).
    apply (fold_left_holds holds_boxes); [ | apply empty_store_holds ].
    intros s k f Hs. apply add_box_holds, Hs. }
  assert (Hspatial : holds_boxes (V3.spatial st) floors).
  { subst st. rewrite floor_loop_spatial.
    replace floors
      with (0 + list_sum (map (fun _ : Z => 1) (py_range (V3.floors p))))
      by (rewrite list_sum_constant, py_range_length; subst floors; lia).
    apply (fold_left_holds holds_boxes); [ | apply empty_store_holds ].
    intros s k f Hs. apply add_box_holds, Hs. }
  assert (Hcols : holds_boxes (V3.cols st) (below * (n * n))).
  { subst st. rewrite floor_loop_cols.
    replace (below * (n * n))
      with (0 + list_sum (map (fun f => if (f <? V3.floors p - 1)%Z
                                        then n * n else 0)
                            (py_range (V3.floors p))))
      by (rewrite structural_floors; subst below; lia).
    apply (fold_left_holds holds_boxes); [ | apply empty_store_holds ].
    intros s k f Hs. destruct (f <? V3.floors p - 1)%Z.
    - apply v3_columns_loop_holds, Hs.
    - rewrite Nat.add_0_r. exact Hs. }
  assert (Hbeams : holds_boxes (V3.beams st) (below * (n * m))).
  { subst st. rewrite floor_loop_beams.
    replace (below * (n * m))
      with (0 + list_sum (map (fun f => if (f <? V3.floors p - 1)%Z
                                        then n * m else 0)
                            (py_range (V3.floors p))))
      by (rewrite structural_floors; subst below; lia).
    apply (fold_left_holds holds_boxes); [ | apply empty_store_holds ].
    intros s k f Hs. destruct (f <? V3.floors p - 1)%Z.
    - apply v3_beams_loop_holds, Hs.
    - rewrite Nat.add_0_r. exact Hs. }
  assert (Hcore : holds_boxes (V3.core_loop p (V3.core st)) below).
  { subst st. destruct (floor_loop_core p grid_size spacing
                          (py_range (V3.floors p)) V3.empty_stores) as [-> _].
    unfold V3.core_loop.
    replace below
      with (0 + list_sum (map (fun _ : Z => 1) (py_range (V3.floors p - 1))))
      by (rewrite list_sum_constant, py_range_length; subst below; lia).
    apply (fold_left_holds holds_boxes); [ | apply empty_store_holds ].
    intros s k f Hs. apply add_box_holds, Hs. }
  assert (Hwalls : holds_boxes (V3.walls_loop p (V3.walls st)) below).
  { subst st. destruct (floor_loop_core p grid_size spacing
                          (py_range (V3.floors p)) V3.empty_stores) as [_ ->].
    unfold V3.walls_loop.
    replace below
      with (0 + list_sum (map (fun _ : Z => 1) (py_range (V3.floors p - 1))))
      by (rewrite list_sum_constant, py_range_length; subst below; lia).
    apply (fold_left_holds holds_boxes); [ | apply empty_store_holds ].
    intros s k f Hs. apply add_box_holds, Hs. }
  repeat split; first [ apply Hslabs | apply Hcols | apply Hbeams
                      | apply Hcore | apply Hwalls | apply Hspatial ].
Qed.

(** The dictionary of six stores that hold [a] to [f] boxes. *)
Lemma tagged_sizes (st : V3.stores F) (a b c d e f : nat) :
  holds_boxes (V3.slabs st) a -> holds_boxes (V3.cols st) b ->
  holds_boxes (V3.beams st) c -> holds_boxes (V3.core st) d ->
  holds_boxes (V3.walls st) e -> holds_boxes (V3.spatial st) f ->
  group_sizes
    [ ("Slabs"%string, V3.tagged (V3.slabs st) "structure");
      ("Columns"%string, V3.tagged (V3.cols st) "structure");
      ("Beams"%string, V3.tagged (V3.beams st) "structure");
      ("Core"%string, V3.tagged (V3.core st) "structure");
      ("Walls"%string, V3.tagged (V3.walls st) "structure");
      ("SpatialZones"%string, V3.tagged (V3.spatial st) "spatial") ]
  = [ ("Slabs", 8 * a, 36 * a, "structure");
      ("Columns", 8 * b, 36 * b, "structure");
      ("Beams", 8 * c, 36 * c, "structure");
      ("Core", 8 * d, 36 * d, "structure");
      ("Walls", 8 * e, 36 * e, "structure");
      ("SpatialZones", 8 * f, 36 * f, "spatial") ]%string.
Proof.
  intros [Ha1 Ha2] [Hb1 Hb2] [Hc1 Hc2] [Hd1 Hd2] [He1 He2] [Hf1 Hf2].
  unfold group_sizes, V3.tagged. cbn [map].
  rewrite Ha1, Ha2, Hb1, Hb2, Hc1, Hc2, Hd1, Hd2, He1, He2, Hf1, Hf2.
  reflexivity.
Qed.

(** The sizes of the groups of a dictionary [build_structure] has
    returned. *)
Lemma build_structure_ok_sizes (p : V3.params F) (grid_size : Z)
  (lod : list (string * V3.group F)) :
  V3.build_structure p grid_size = Ok lod ->
  let floors := Z.to_nat (V3.floors p) in
  let below := Z.to_nat (V3.floors p - 1) in
  let n := Z.to_nat grid_size in
  let m := Z.to_nat (grid_size - 1) in
  group_sizes lod
  = [ ("Slabs", 8 * floors, 36 * floors, "structure");
      ("Columns", 8 * (below * (n * n)), 36 * (below * (n * n)), "structure");
      ("Beams", 8 * (below * (n * m)), 36 * (below * (n * m)), "structure");
      ("Core", 8 * below, 36 * below, "structure");
      ("Walls", 8 * below, 36 * below, "structure");
      ("SpatialZones", 8 * floors, 36 * floors, "spatial") ]%string.
Proof.
  intros Hlod floors below n m. unfold V3.build_structure in Hlod.
  apply bind_ok in Hlod. destruct Hlod as (spacing & _ & Hlod).
  injection Hlod as <-.
  destruct (fill_stores_hold p grid_size spacing)
    as (Hs & Hk & Hb & Hc & Hw & Hz).
  apply (tagged_sizes (V3.fill_stores p grid_size spacing)); assumption.
Qed.

(** X11.  What [build_structure] returns for a grid size other than
    one, whatever the parameters: the six groups in the order Slabs,
    Columns, Beams, Core, Walls, SpatialZones, the last tagged
    [spatial] and the others [structure]; with [floors] floors there is
    a slab and a zone per floor and, on each of the [floors - 1]
    floors below the top one, [N * N] columns, [N * (N - 1)] beams, one
    core box and one wall, each of eight vertices and thirty-six
    indices.  A grid size of zero or below gives no columns and no
    beams, and no floors give six empty groups. *)
Theorem build_structure_sizes (p : V3.params F) (grid_size : Z) :
  grid_size <> 1%Z ->
  let floors := Z.to_nat (V3.floors p) in
  let below := Z.to_nat (V3.floors p - 1) in
  let n := Z.to_nat grid_size in
  let m := Z.to_nat (grid_size - 1) in
  exists lod,
    V3.build_structure p grid_size = Ok lod /\
    group_sizes lod
    = [ ("Slabs", 8 * floors, 36 * floors, "structure");
        ("Columns", 8 * (below * (n * n)), 36 * (below * (n * n)), "structure");
        ("Beams", 8 * (below * (n * m)), 36 * (below * (n * m)), "structure");
        ("Core", 8 * below, 36 * below, "structure");
        ("Walls", 8 * below, 36 * below, "structure");
        ("SpatialZones", 8 * floors, 36 * floors, "spatial") ]%string.
Proof.
  intros Hgrid floors below n m.
  unfold V3.build_structure, py_div_int.
  destruct (Z.eqb_spec (grid_size - 1) 0) as [Hzero | _]; [ lia | ].
  cbn [bind]. eexists. split; [ reflexivity | ].
  set (spacing := (V3.building_width p / f_of_Z (grid_size - 1))%flt).
  destruct (fill_stores_hold p grid_size spacing)
    as (Hs & Hk & Hb & Hc & Hw & Hz).
  apply (tagged_sizes (V3.fill_stores p grid_size spacing)); assumption.
Qed.

(** ** Second script *)




(** ** First script *)



End BoxCounts.

Section DocumentSizes.
Context {F : Type} `{PyFloat F} `{PyPack F}.



End DocumentSizes.

Lemma build_structure_sizes_witness :
  (5 <> 1)%Z /\
  exists lod,
    V3.build_structure (F:=float) V3.default_params 5 = Ok lod /\
    group_sizes lod
    = [ ("Slabs", 40, 180, "structure"); ("Columns", 800, 3600, "structure");
        ("Beams", 640, 2880, "structure"); ("Core", 32, 144, "structure");
        ("Walls", 32, 144, "structure");
        ("SpatialZones", 40, 180, "spatial") ]%string.
Proof.
  assert (Hgrid : (5 <> 1)%Z) by discriminate.
  split; [ exact Hgrid | ].
  destruct (build_structure_sizes (F:=float) V3.default_params 5 Hgrid)
    as (lod & Hlod & Hsizes).
  exists lod. split; [ exact Hlod | ].
  rewrite Hsizes. reflexivity.
Defined.



(* ================================================================== *)
(** * The sizes of the third script's document *)
(* ================================================================== *)

Section V3Sizes.
Context {F : Type} `{PyFloat F} `{PyPack F}.




(** X15.  A coarser grid gives no more geometry: for grid sizes
    [N1 <= N0], neither of them one, each group [build_structure]
    returns for [N1] has the name and tag of the corresponding group for
    [N0] and no more vertices and no more indices; so LOD 1 of the
    script (grid 3) is no larger than LOD 0 (grid 5), group by
    group. *)
Theorem coarser_grid_is_no_larger (p : V3.params F) (n0 n1 : Z) :
  n0 <> 1%Z -> n1 <> 1%Z -> (n1 <= n0)%Z ->
  exists lod0 lod1,
    V3.build_structure p n0 = Ok lod0 /\
    V3.build_structure p n1 = Ok lod1 /\
    Forall2 no_larger (group_sizes lod1) (group_sizes lod0).
Proof.
  intros H0' H1' Hle.
  destruct (V3.build_structure p n0) as [lod0 | e0] eqn:Hlod0.
  2:{ apply build_structure_raises_only_at_one in Hlod0. tauto. }
  destruct (V3.build_structure p n1) as [lod1 | e1] eqn:Hlod1.
  2:{ apply build_structure_raises_only_at_one in Hlod1. tauto. }
  exists lod0, lod1. split; [ reflexivity | ]. split; [ reflexivity | ].
  rewrite (build_structure_ok_sizes p n0 lod0 Hlod0).
  rewrite (build_structure_ok_sizes p n1 lod1 Hlod1).
  assert (Hn : Z.to_nat n1 <= Z.to_nat n0) by lia.
  assert (Hm : Z.to_nat (n1 - 1) <= Z.to_nat (n0 - 1)) by lia.
  assert (Hnn : Z.to_nat n1 * Z.to_nat n1 <= Z.to_nat n0 * Z.to_nat n0)
    by (apply Nat.mul_le_mono; exact Hn).
  assert (Hnm : Z.to_nat n1 * Z.to_nat (n1 - 1)
                <= Z.to_nat n0 * Z.to_nat (n0 - 1))
    by (apply Nat.mul_le_mono; assumption).
  pose proof (Nat.mul_le_mono_l _ _ (Z.to_nat (V3.floors p - 1)) Hnn) as Hcols.
  pose proof (Nat.mul_le_mono_l _ _ (Z.to_nat (V3.floors p - 1)) Hnm) as Hbeams.
  repeat (apply Forall2_cons;
          [ unfold no_larger; repeat split; lia | ]).
  apply Forall2_nil.
Qed.

End V3Sizes.


Lemma coarser_grid_is_no_larger_witness :
  (5 <> 1)%Z /\ (3 <> 1)%Z /\ (3 <= 5)%Z /\
  exists lod0 lod1,
    V3.build_structure (F:=float) V3.default_params 5 = Ok lod0 /\
    V3.build_structure (F:=float) V3.default_params 3 = Ok lod1 /\
    Forall2 no_larger (group_sizes lod1) (group_sizes lod0).
Proof.
  assert (H5 : (5 <> 1)%Z) by discriminate.
  assert (H3 : (3 <> 1)%Z) by discriminate.
  assert (Hle : (3 <= 5)%Z) by discriminate.
  repeat (split; [ assumption | ]).
  exact (coarser_grid_is_no_larger V3.default_params 5 3 H5 H3 Hle).
Defined.

(* ================================================================== *)
(** * The first script: bounds, and a building without floors *)
(* ================================================================== *)

Section FirstScript.
Context {F : Type} `{PyOrder F} `{PyPack F}.

Lemma coord_in (i : nat) (v : vertex F) (vs : list (vertex F)) :
  In v vs -> In (V1.coord i v) (map (V1.coord i) vs).
Proof. apply in_map. Qed.

(** X16.  Whenever the first script returns a document, its position
    accessor declares [max] and [min] lists of three numbers that
    enclose the geometry: no coordinate of a generated vertex is greater
    than the declared maximum or less than the declared minimum of its
    axis, and each declared number is a coordinate of some generated
    vertex. *)
Theorem v1_bounds_enclose (p : V1.params F) (doc : gltf F) :
  V1.generate p = Ok doc ->
  exists st pos idx lo hi,
    V1.generation p = Ok st /\
    accessors doc = [pos; idx] /\
    acc_max pos = Some hi /\
    acc_min pos = Some lo /\
    Forall (enclosed lo hi) (all_vertices st) /\
    (forall i, i < 3 ->
       exists m n,
         nth_error hi i = Some m /\ In m (map (V1.coord i) (all_vertices st)) /\
         nth_error lo i = Some n /\ In n (map (V1.coord i) (all_vertices st))).
Proof.
  unfold V1.generate. intros Hgen.
  apply bind_ok in Hgen. destruct Hgen as (st & Hst & Hemit).
  destruct (v1_position_bounds _ _ _ Hemit)
    as (pos & idx & hx & hy & hz & lx & ly & lz & Haccs & _ & Hmax & Hmin
        & [Hxin Hx] & [Hyin Hy] & [Hzin Hz]
        & [Lxin Lx] & [Lyin Ly] & [Lzin Lz] & _).
  exists st, pos, idx, [lx; ly; lz], [hx; hy; hz].
  repeat (split; [ assumption | ]). split.
  - apply Forall_forall. intros [[x y] z] Hv. cbn [enclosed].
    pose proof (coord_in 0 _ _ Hv) as Hc0.
    pose proof (coord_in 1 _ _ Hv) as Hc1.
    pose proof (coord_in 2 _ _ Hv) as Hc2.
    cbn [V1.coord] in Hc0, Hc1, Hc2.
    repeat split; auto.
  - intros i Hi.
    destruct i as [ | [ | [ | i ] ] ]; [ | | | lia ]; cbn [nth_error];
      eexists; eexists; repeat split; assumption.
Qed.

End FirstScript.

Section NoFloors.
Context {F : Type} `{PyFloat F} `{PyPack F}.

Lemma py_range_empty (n : Z) : (n <= 0)%Z -> py_range n = [].
Proof.
  intros Hn. unfold py_range. replace (Z.to_nat n) with 0 by lia. reflexivity.
Qed.

(** X17.  With no floors ([floors <= 0]) nothing is generated.  The
    first script then fails with [ValueError], raised by [max] on the
    empty sequence of coordinates; the second returns a document whose
    three accessors count nothing over an empty buffer. *)
Theorem no_floors_v1_fails_v2_is_empty (p1 : V1.params F) (p2 : V2.params F) :
  (V1.floors p1 <= 0)%Z -> V1.grid_size p1 <> 1%Z ->
  (V2.floors p2 <= 0)%Z -> V2.grid_size p2 <> 1%Z ->
  V1.generate p1 = Raise ValueError /\
  exists doc,
    V2.generate p2 = Ok doc /\
    map (@acc_count F) (accessors doc) = [0; 0; 0] /\
    map byteLength (bufferViews doc) = [0; 0; 0] /\
    map buf_byteLength (buffers doc) = [0].
Proof.
  intros Hf1 Hg1 Hf2 Hg2. split.
  - unfold V1.generate, V1.generation, py_div_int.
    destruct (Z.eqb_spec (V1.grid_size p1 - 1) 0) as [Hzero | _]; [ lia | ].
    rewrite (py_range_empty _ Hf1). reflexivity.
  - unfold V2.generate, V2.build_geometry, py_div_int.
    destruct (Z.eqb_spec (V2.grid_size p2 - 1) 0) as [Hzero | _]; [ lia | ].
    unfold V2.walls_loop, V2.core_loop.
    rewrite (py_range_empty _ Hf2).
    rewrite (py_range_empty (V2.floors p2 - 1)) by lia.
    eexists. split; [ reflexivity | ]. repeat split.
Qed.

End NoFloors.

Lemma v1_bounds_enclose_witness :
  let p : V1.params float :=
    {| V1.floors := 2; V1.floor_height := dec 35 10;
       V1.building_width := f_of_Z 20; V1.grid_size := 2;
       V1.column_size := dec 4 10; V1.beam_height := dec 5 10;
       V1.beam_width := dec 4 10; V1.slab_thickness := dec 3 10 |} in
  exists doc pos idx,
    V1.generate p = Ok doc /\
    accessors doc = [pos; idx] /\
    acc_max pos = Some [dec 102 10; dec 365 100; dec 102 10] /\
    acc_min pos = Some [(- dec 102 10)%flt; (- dec 15 100)%flt; (- dec 102 10)%flt].
Proof.
  intros p.
  destruct (V1.generate p) as [doc | e] eqn:Hgen;
    [ | vm_compute in Hgen; discriminate ].
  destruct (v1_bounds_enclose p doc Hgen)
    as (st & pos & idx & lo & hi & _ & Haccs & Hmax & Hmin & _).
  exists doc, pos, idx. split; [ reflexivity | ]. split; [ exact Haccs | ].
  vm_compute in Hgen. injection Hgen as <-.
  injection Haccs as <- _. split; reflexivity.
Defined.

Lemma no_floors_v1_fails_v2_is_empty_witness :
  let p1 : V1.params float :=
    {| V1.floors := 0; V1.floor_height := dec 35 10;
       V1.building_width := f_of_Z 20; V1.grid_size := 5;
       V1.column_size := dec 4 10; V1.beam_height := dec 5 10;
       V1.beam_width := dec 4 10; V1.slab_thickness := dec 3 10 |} in
  let p2 : V2.params float :=
    {| V2.floors := 0; V2.floor_height := dec 35 10;
       V2.building_width := f_of_Z 20; V2.grid_size := 5;
       V2.column_size := dec 4 10; V2.beam_height := dec 5 10;
       V2.beam_width := dec 4 10; V2.slab_thickness := dec 3 10;
       V2.brace_thickness := dec 2 10; V2.core_size := f_of_Z 4;
       V2.wall_thickness := dec 3 10 |} in
  V1.generate p1 = Raise ValueError /\
  exists doc, V2.generate p2 = Ok doc /\ map buf_byteLength (buffers doc) = [0].
Proof.
  intros p1 p2.
  destruct (no_floors_v1_fails_v2_is_empty p1 p2)
    as (Hv1 & doc & Hdoc & _ & _ & Hbuf);
    try (simpl; lia); try discriminate.
  split; [ exact Hv1 | ].
  exists doc. split; [ exact Hdoc | exact Hbuf ].
Defined.

(* ================================================================== *)
(** * How a run in binary64 can fail *)
(* ================================================================== *)

Lemma mapM_raises {A B : Type} (f : A -> result B) (P : exn -> Prop)
  (xs : list A) (e : exn) :
  (forall x e', f x = Raise e' -> P e') ->
  mapM f xs = Raise e -> P e.
Proof.
  intros Hf. induction xs as [ | x xs IH ]; cbn [mapM]; [ discriminate | ].
  destruct (f x) as [y | e'] eqn:Hx; cbn [bind].
  - destruct (mapM f xs) as [ys | e''] eqn:Hxs; cbn [bind]; [ discriminate | ].
    intros Hr. injection Hr as <-. apply IH. reflexivity.
  - intros Hr. injection Hr as <-. eapply Hf. exact Hx.
Qed.

Lemma foldM_raises {A S : Type} (body : A -> S -> result S) (P : exn -> Prop)
  (Q : A -> Prop) (xs : list A) :
  (forall x s e', Q x -> body x s = Raise e' -> P e') ->
  Forall Q xs ->
  forall s e, foldM body xs s = Raise e -> P e.
Proof.
  intros Hbody Hxs. induction Hxs as [ | x xs Hx _ IH ]; intros s e;
    cbn [foldM]; [ discriminate | ].
  destruct (body x s) as [s' | e'] eqn:Hstep; cbn [bind].
  - apply IH.
  - intros Hr. injection Hr as <-. eapply Hbody; eassumption.
Qed.

Lemma pack_bits_raises (x : float) (e : exn) :
  Binary64.pack_bits x = Raise e -> e = OverflowError.
Proof.
  unfold Binary64.pack_bits.
  destruct (Binary64.to_binary32 x); try discriminate.
  destruct (PrimFloat.is_infinity x); [ discriminate | ].
  intros Hr. injection Hr as <-. reflexivity.
Qed.

Lemma pack_vec3_list_raises (vs : list (vertex float)) (e : exn) :
  pack_vec3_list vs = Raise e -> e = OverflowError.
Proof.
  unfold pack_vec3_list.
  destruct (mapM pack_3f vs) as [chunks | e'] eqn:Hm; cbn [bind];
    [ discriminate | ].
  intros Hr. injection Hr as <-.
  apply (mapM_raises pack_3f (fun e => e = OverflowError) vs e'); [ | exact Hm ].
  intros [[x y] z] e0. unfold pack_3f. cbn [f32_bits float_PyPack].
  destruct (Binary64.pack_bits x) as [bx | ex] eqn:Hx; cbn [bind];
    [ | intros Hr; injection Hr as <-; eapply pack_bits_raises; exact Hx ].
  destruct (Binary64.pack_bits y) as [by_ | ey] eqn:Hy; cbn [bind];
    [ | intros Hr; injection Hr as <-; eapply pack_bits_raises; exact Hy ].
  destruct (Binary64.pack_bits z) as [bz | ez] eqn:Hz; cbn [bind];
    [ discriminate
    | intros Hr; injection Hr as <-; eapply pack_bits_raises; exact Hz ].
Qed.

Lemma pack_index_list_raises (inds : list Z) (e : exn) :
  pack_index_list inds = Raise e -> e = StructError.
Proof.
  unfold pack_index_list.
  destruct (mapM pack_I inds) as [chunks | e'] eqn:Hm; cbn [bind];
    [ discriminate | ].
  intros Hr. injection Hr as <-.
  apply (mapM_raises pack_I (fun e => e = StructError) inds e'); [ | exact Hm ].
  intros i e0. unfold pack_I. destruct (_ && _); [ discriminate | ].
  intros Hr. injection Hr as <-. reflexivity.
Qed.

(** On a valid triangle list the estimator returns or raises
    [OverflowError]. *)
Lemma compute_normals_raises (vertices : list (vertex float))
  (indices : list Z) (e : exn) :
  valid_triangles vertices indices ->
  compute_normals vertices indices = Raise e -> e = OverflowError.
Proof.
  intros [[n Hlen] Hvalid]. unfold compute_normals.
  destruct (accumulate_total vertices n indices
              (map (fun _ => (zero, zero, zero)) vertices) Hlen Hvalid
              (length_map _ vertices)) as [acc ->].
  cbn [bind]. rewrite mapM_normalize_binary64.
  destruct (existsb squares_overflow acc); [ | discriminate ].
  intros Hr. injection Hr as <-. reflexivity.
Qed.

Lemma append_mesh_raises (name : string) (data : V3.group float) (lvl : Z)
  (em : V3.emitter float) (e : exn) :
  valid_triangles (fst (fst data)) (snd (fst data)) ->
  V3.append_mesh name data lvl em = Raise e ->
  e = OverflowError \/ e = StructError.
Proof.
  destruct data as [[verts inds] semantic]. cbn [fst snd]. intros Hvalid.
  unfold V3.append_mesh.
  destruct (compute_normals verts inds) as [normals | e1] eqn:Hn; cbn [bind];
    [ | intros Hr; injection Hr as <-; left;
        eapply compute_normals_raises; eassumption ].
  destruct (pack_vec3_list verts) as [vb | e2] eqn:Hv; cbn [bind];
    [ | intros Hr; injection Hr as <-; left;
        eapply pack_vec3_list_raises; eassumption ].
  destruct (pack_vec3_list normals) as [nb | e3] eqn:Hnb; cbn [bind];
    [ | intros Hr; injection Hr as <-; left;
        eapply pack_vec3_list_raises; eassumption ].
  destruct (pack_index_list inds) as [ib | e4] eqn:Hi; cbn [bind];
    [ discriminate
    | intros Hr; injection Hr as <-; right;
      eapply pack_index_list_raises; eassumption ].
Qed.

Lemma append_all_raises (lod : list (string * V3.group float)) (lvl : Z)
  (em : V3.emitter float) (e : exn) :
  Forall (fun entry =>
            valid_triangles (fst (fst (snd entry))) (snd (fst (snd entry))))
    lod ->
  V3.append_all lod lvl em = Raise e ->
  e = OverflowError \/ e = StructError.
Proof.
  intros Hvalid. unfold V3.append_all.
  apply (foldM_raises _ (fun e => e = OverflowError \/ e = StructError)
           (fun entry =>
              valid_triangles (fst (fst (snd entry))) (snd (fst (snd entry))))).
  - intros entry s e' Hentry Hstep. eapply append_mesh_raises; eassumption.
  - exact Hvalid.
Qed.

(** X18.  How the third script can fail on binary64 numbers, whatever
    its parameters: with [ZeroDivisionError], exactly when one of the
    two grid sizes is one; otherwise only with [OverflowError] (a square
    in [compute_normals] or a float too large for [struct.pack]) or
    [struct.error] (an index that does not fit 32 bits).  It never fails
    with [IndexError] or [ValueError]: every group it builds is a valid
    input of [compute_normals]. *)
Theorem v3_generate_failures (p : V3.params float) (e : exn) :
  V3.generate p = Raise e ->
  (e = ZeroDivisionError /\ (V3.grid_L0 p = 1%Z \/ V3.grid_L1 p = 1%Z)) \/
  (V3.grid_L0 p <> 1%Z /\ V3.grid_L1 p <> 1%Z /\
   (e = OverflowError \/ e = StructError)).
Proof.
  unfold V3.generate. intros Hgen.
  destruct (V3.build_structure p (V3.grid_L0 p)) as [lod0 | e0] eqn:H0.
  2:{ cbn [bind] in Hgen. injection Hgen as <-.
      apply build_structure_raises_only_at_one in H0.
      destruct H0 as [Hone ->]. left. split; [ reflexivity | left; exact Hone ]. }
  cbn [bind] in Hgen.
  destruct (V3.build_structure p (V3.grid_L1 p)) as [lod1 | e1] eqn:H1.
  2:{ cbn [bind] in Hgen. injection Hgen as <-.
      apply build_structure_raises_only_at_one in H1.
      destruct H1 as [Hone ->]. left. split; [ reflexivity | right; exact Hone ]. }
  cbn [bind] in Hgen.
  assert (Hg0 : V3.grid_L0 p <> 1%Z).
  { intros Hone. rewrite Hone in H0.
    unfold V3.build_structure in H0.
    rewrite spacing_division_by_zero in H0. cbn [bind] in H0. discriminate. }
  assert (Hg1 : V3.grid_L1 p <> 1%Z).
  { intros Hone. rewrite Hone in H1.
    unfold V3.build_structure in H1.
    rewrite spacing_division_by_zero in H1. cbn [bind] in H1. discriminate. }
  right. split; [ exact Hg0 | ]. split; [ exact Hg1 | ].
  apply build_structure_groups_valid in H0, H1.
  destruct (V3.append_all lod0 0 V3.empty_emitter) as [em0 | e2] eqn:Ha0.
  2:{ cbn [bind] in Hgen. injection Hgen as <-.
      exact (append_all_raises lod0 0 V3.empty_emitter e2 H0 Ha0). }
  cbn [bind] in Hgen.
  destruct (V3.append_all lod1 1 em0) as [em1 | e3] eqn:Ha1.
  2:{ cbn [bind] in Hgen. injection Hgen as <-.
      exact (append_all_raises lod1 1 em0 e3 H1 Ha1). }
  discriminate.
Qed.

(** X19.  The same of the second script: [ZeroDivisionError] exactly
    when the grid size is one, otherwise only [OverflowError] or
    [struct.error]; never [IndexError] or [ValueError]. *)
Theorem v2_generate_failures (p : V2.params float) (e : exn) :
  V2.generate p = Raise e ->
  (e = ZeroDivisionError /\ V2.grid_size p = 1%Z) \/
  (V2.grid_size p <> 1%Z /\ (e = OverflowError \/ e = StructError)).
Proof.
  unfold V2.generate. intros Hgen.
  destruct (V2.build_geometry p) as [st | e0] eqn:Hst.
  2:{ cbn [bind] in Hgen. injection Hgen as <-.
      unfold V2.build_geometry, py_div_int in Hst.
      destruct (Z.eqb_spec (V2.grid_size p - 1) 0) as [Hzero | _];
        [ | discriminate ].
      cbn [bind] in Hst. injection Hst as <-.
      left. split; [ reflexivity | lia ]. }
  cbn [bind] in Hgen.
  assert (Hgrid : V2.grid_size p <> 1%Z).
  { intros Hone. unfold V2.build_geometry in Hst.
    rewrite Hone, spacing_division_by_zero in Hst. cbn [bind] in Hst.
    discriminate. }
  right. split; [ exact Hgrid | ].
  apply v2_build_geometry_valid in Hst. destruct Hst as [_ Hvalid].
  unfold V2.emit in Hgen.
  destruct (compute_normals (all_vertices st) (all_indices st))
    as [normals | e1] eqn:Hn; cbn [bind] in Hgen;
    [ | injection Hgen as <-; left;
        eapply compute_normals_raises; eassumption ].
  destruct (pack_vec3_list (all_vertices st)) as [vb | e2] eqn:Hv;
    cbn [bind] in Hgen;
    [ | injection Hgen as <-; left; eapply pack_vec3_list_raises; eassumption ].
  destruct (pack_vec3_list normals) as [nb | e3] eqn:Hnb; cbn [bind] in Hgen;
    [ | injection Hgen as <-; left; eapply pack_vec3_list_raises; eassumption ].
  destruct (pack_index_list (all_indices st)) as [ib | e4] eqn:Hi;
    cbn [bind] in Hgen;
    [ discriminate
    | injection Hgen as <-; right; eapply pack_index_list_raises; eassumption ].
Qed.

Lemma v3_generate_failures_witness :
  let p : V3.params float :=
    {| V3.floors := 1; V3.floor_height := dec 35 10;
       V3.building_width := f_of_Z (10 ^ 100);
       V3.grid_L0 := 3; V3.grid_L1 := 2;
       V3.column_size := dec 4 10; V3.beam_height := dec 5 10;
       V3.beam_width := dec 4 10; V3.slab_thickness := dec 3 10;
       V3.core_size := f_of_Z 4; V3.wall_thickness := dec 3 10 |} in
  V3.generate p = Raise OverflowError /\
  V3.grid_L0 p <> 1%Z.
Proof.
  intros p.
  assert (Hgen : V3.generate p = Raise OverflowError)
    by (vm_compute; reflexivity).
  split; [ exact Hgen | ].
  destruct (v3_generate_failures p OverflowError Hgen)
    as [[Hzero _] | (Hg0 & _ & _)]; [ discriminate | exact Hg0 ].
Defined.

Lemma v2_generate_failures_witness :
  let p : V2.params float :=
    {| V2.floors := 2; V2.floor_height := dec 35 10;
       V2.building_width := f_of_Z 20; V2.grid_size := 1;
       V2.column_size := dec 4 10; V2.beam_height := dec 5 10;
       V2.beam_width := dec 4 10; V2.slab_thickness := dec 3 10;
       V2.brace_thickness := dec 2 10; V2.core_size := f_of_Z 4;
       V2.wall_thickness := dec 3 10 |} in
  V2.generate p = Raise ZeroDivisionError /\
  V2.grid_size p = 1%Z.
Proof.
  intros p.
  assert (Hgen : V2.generate p = Raise ZeroDivisionError) by reflexivity.
  split; [ exact Hgen | ].
  destruct (v2_generate_failures p ZeroDivisionError Hgen)
    as [[_ Hone] | (_ & [Hover | Hstruct])];
    [ exact Hone | discriminate | discriminate ].
Defined.

(* ================================================================== *)
(** * The data URI: what is encoded can be decoded *)
(* ================================================================== *)

Section Base64.
Local Open Scope N_scope.

Lemma sextets_checked :
  forallb (fun n => match b64_index (b64_char n) with
                    | Some m => N.eqb m n && negb (is_pad (b64_char n))
                    | None => false
                    end)
    (map N.of_nat (seq 0 64)) = true.
Proof. vm_compute. reflexivity. Qed.

Lemma b64_index_char (n : N) :
  n < 64 -> b64_index (b64_char n) = Some n /\ is_pad (b64_char n) = false.
Proof.
  intros Hn.
  pose proof (proj1 (forallb_forall _ _) sextets_checked n) as Hall.
  assert (Hin : In n (map N.of_nat (seq 0 64))).
  { apply in_map_iff. exists (N.to_nat n). split; [ lia | ].
    apply in_seq. lia. }
  specialize (Hall Hin). cbv beta in Hall.
  destruct (b64_index (b64_char n)) as [m | ]; [ | discriminate ].
  apply andb_true_iff in Hall. destruct Hall as [Hm Hpad].
  apply N.eqb_eq in Hm. subst m.
  split; [ reflexivity | ].
  destruct (is_pad (b64_char n)); [ discriminate | reflexivity ].
Qed.

Lemma byte_of_N_to_N (b : byte) (n : N) : n = Byte.to_N b -> byte_of_N n = b.
Proof. intros ->. unfold byte_of_N. rewrite Byte.of_to_N. reflexivity. Qed.

Lemma byte_below (b : byte) : Byte.to_N b < 256.
Proof. pose proof (Byte.to_N_bounded b). lia. Qed.

Lemma decode_three (a b c : byte) (rest : string) :
  b64decode
    (String (b64_char (Byte.to_N a / 4))
       (String (b64_char ((Byte.to_N a mod 4) * 16 + Byte.to_N b / 16))
          (String (b64_char ((Byte.to_N b mod 16) * 4 + Byte.to_N c / 64))
             (String (b64_char (Byte.to_N c mod 64)) rest))))
  = option_map (fun bs => a :: b :: c :: bs) (b64decode rest).
Proof.
  pose proof (byte_below a) as Ha. pose proof (byte_below b) as Hb.
  pose proof (byte_below c) as Hc.
  set (x := Byte.to_N a) in *. set (y := Byte.to_N b) in *.
  set (z := Byte.to_N c) in *.
  pose proof (N.mod_lt x 4 ltac:(lia)). pose proof (N.mod_lt y 16 ltac:(lia)).
  pose proof (N.mod_lt z 64 ltac:(lia)).
  assert (x / 4 < 64) by (apply N.Div0.div_lt_upper_bound; lia).
  assert (y / 16 < 16) by (apply N.Div0.div_lt_upper_bound; lia).
  assert (z / 64 < 4) by (apply N.Div0.div_lt_upper_bound; lia).
  destruct (b64_index_char (x / 4)) as [E0 _]; [ lia | ].
  destruct (b64_index_char ((x mod 4) * 16 + y / 16)) as [E1 _]; [ lia | ].
  destruct (b64_index_char ((y mod 16) * 4 + z / 64)) as [E2 P2]; [ lia | ].
  destruct (b64_index_char (z mod 64)) as [E3 P3]; [ lia | ].
  cbn [b64decode]. rewrite E0, E1, P2, E2, P3, E3.
  assert (B0 : x / 4 * 4 + (x mod 4 * 16 + y / 16) / 16 = x).
  { replace ((x mod 4 * 16 + y / 16) / 16) with (x mod 4).
    - pose proof (N.div_mod x 4 ltac:(lia)). lia.
    - symmetry. rewrite N.add_comm, N.div_add by lia.
      rewrite N.div_small by lia. reflexivity. }
  assert (B1 : (x mod 4 * 16 + y / 16) mod 16 * 16
               + (y mod 16 * 4 + z / 64) / 4 = y).
  { replace ((x mod 4 * 16 + y / 16) mod 16) with (y / 16).
    - replace ((y mod 16 * 4 + z / 64) / 4) with (y mod 16).
      + pose proof (N.div_mod y 16 ltac:(lia)). lia.
      + symmetry. rewrite N.add_comm, N.div_add by lia.
        rewrite N.div_small by lia. reflexivity.
    - symmetry. rewrite N.add_comm, N.Div0.mod_add.
      apply N.mod_small. lia. }
  assert (B2 : (y mod 16 * 4 + z / 64) mod 4 * 64 + z mod 64 = z).
  { replace ((y mod 16 * 4 + z / 64) mod 4) with (z / 64).
    - pose proof (N.div_mod z 64 ltac:(lia)). lia.
    - symmetry. rewrite N.add_comm, N.Div0.mod_add.
      apply N.mod_small. lia. }
  rewrite (byte_of_N_to_N a), (byte_of_N_to_N b), (byte_of_N_to_N c)
    by (subst x y z; assumption).
  destruct (b64decode rest); reflexivity.
Qed.

Lemma decode_two (a b : byte) :
  b64decode
    (String (b64_char (Byte.to_N a / 4))
       (String (b64_char ((Byte.to_N a mod 4) * 16 + Byte.to_N b / 16))
          (String (b64_char ((Byte.to_N b mod 16) * 4)) "=")))
  = Some [a; b].
Proof.
  pose proof (byte_below a) as Ha. pose proof (byte_below b) as Hb.
  set (x := Byte.to_N a) in *. set (y := Byte.to_N b) in *.
  pose proof (N.mod_lt x 4 ltac:(lia)). pose proof (N.mod_lt y 16 ltac:(lia)).
  assert (x / 4 < 64) by (apply N.Div0.div_lt_upper_bound; lia).
  assert (y / 16 < 16) by (apply N.Div0.div_lt_upper_bound; lia).
  destruct (b64_index_char (x / 4)) as [E0 _]; [ lia | ].
  destruct (b64_index_char ((x mod 4) * 16 + y / 16)) as [E1 _]; [ lia | ].
  destruct (b64_index_char ((y mod 16) * 4)) as [E2 P2]; [ lia | ].
  cbn [b64decode]. rewrite E0, E1, P2, E2.
  change (is_pad "=") with true. cbv iota.
  assert (B0 : x / 4 * 4 + (x mod 4 * 16 + y / 16) / 16 = x).
  { replace ((x mod 4 * 16 + y / 16) / 16) with (x mod 4).
    - pose proof (N.div_mod x 4 ltac:(lia)). lia.
    - symmetry. rewrite N.add_comm, N.div_add by lia.
      rewrite N.div_small by lia. reflexivity. }
  assert (B1 : (x mod 4 * 16 + y / 16) mod 16 * 16 + (y mod 16 * 4) / 4 = y).
  { replace ((x mod 4 * 16 + y / 16) mod 16) with (y / 16).
    - rewrite N.div_mul by lia.
      pose proof (N.div_mod y 16 ltac:(lia)). lia.
    - symmetry. rewrite N.add_comm, N.Div0.mod_add.
      apply N.mod_small. lia. }
  rewrite (byte_of_N_to_N a), (byte_of_N_to_N b) by (subst x y; assumption).
  reflexivity.
Qed.

Lemma decode_one (a : byte) :
  b64decode
    (String (b64_char (Byte.to_N a / 4))
       (String (b64_char ((Byte.to_N a mod 4) * 16)) "=="))
  = Some [a].
Proof.
  pose proof (byte_below a) as Ha.
  set (x := Byte.to_N a) in *.
  pose proof (N.mod_lt x 4 ltac:(lia)).
  assert (x / 4 < 64) by (apply N.Div0.div_lt_upper_bound; lia).
  destruct (b64_index_char (x / 4)) as [E0 _]; [ lia | ].
  destruct (b64_index_char ((x mod 4) * 16)) as [E1 _]; [ lia | ].
  cbn [b64decode]. rewrite E0, E1.
  change (is_pad "=") with true. cbv iota.
  assert (B0 : x / 4 * 4 + (x mod 4 * 16) / 16 = x).
  { rewrite N.div_mul by lia. pose proof (N.div_mod x 4 ltac:(lia)). lia. }
  rewrite (byte_of_N_to_N a) by (subst x; assumption).
  reflexivity.
Qed.

End Base64.

Lemma b64_round_trip_upto (n : nat) :
  forall bs, length bs <= n ->
    b64decode (b64encode bs) = Some bs /\
    String.length (b64encode bs) = 4 * ((length bs + 2) / 3).
Proof.
  induction n as [n IH] using (well_founded_induction lt_wf).
  intros bs Hlen.
  destruct bs as [ | a [ | b [ | c rest ] ] ].
  - split; reflexivity.
  - split; [ apply decode_one | reflexivity ].
  - split; [ apply decode_two | reflexivity ].
  - destruct (IH (length rest) ltac:(simpl in Hlen; lia) rest (Nat.le_refl _))
      as [Hdec Hsize].
    split.
    + cbn [b64encode]. rewrite decode_three, Hdec. reflexivity.
    + cbn [b64encode String.length length]. rewrite Hsize.
      replace (S (S (S (length rest))) + 2) with (length rest + 2 + 1 * 3) by lia.
      rewrite Nat.div_add by lia. lia.
Qed.

(** X26.  The data URI carries the whole buffer: it is the fixed prefix
    followed by a base64 text of four characters for every three bytes,
    rounded up, and decoding that text gives back the buffer, byte for
    byte. *)
Theorem data_uri_round_trip (bs : list byte) :
  exists text,
    data_uri bs = ("data:application/octet-stream;base64," ++ text)%string /\
    b64decode text = Some bs /\
    String.length text = 4 * ((length bs + 2) / 3).
Proof.
  exists (b64encode bs). split; [ reflexivity | ].
  apply (b64_round_trip_upto (length bs)). lia.
Qed.

(* ================================================================== *)
(** * The surface of a box *)
(* ================================================================== *)

(** X27.  The box is a closed surface wound one way: whatever its size
    and position, each of the 36 directed edges of the twelve triangles
    [create_box] returns occurs exactly once, and its reverse occurs
    exactly once, so every edge is shared by exactly two triangles that
    run along it in opposite directions. *)
Theorem create_box_closed_surface {F : Type} `{PyFloat F}
  (w h d tx ty tz : F) :
  closed_surface (snd (create_box w h d tx ty tz)) /\
  length (directed_edges (snd (create_box w h d tx ty tz))) = 36.
Proof.
  split; [ | reflexivity ].
  unfold closed_surface. cbn [create_box snd].
  change (directed_edges box_indices)
    with (ltac:(let r := eval vm_compute in (directed_edges box_indices) in
                exact r)).
  repeat (apply Forall_cons; [ split; vm_compute; reflexivity | ]).
  apply Forall_nil.
Qed.
